(** * e2ee-files: the key-wrapping, sharing and access-control core

    A shallow embedding of the TypeScript sources
    - [src/lib/crypto.ts]        (Web Crypto wrappers, base64, PEM import
                                  and export, the master key and the stored
                                  private key),
    - [src/lib/share-crypto.ts]  (re-encryption of a file key for a recipient),
    - [src/lib/crypto-utils.ts]  (upload and download processing, integrity
                                  validation, the small utilities),
    - [src/lib/auth.ts]          (validateFilePermission, logAuditEvent, the
                                  client address, sessions),
    - the API routes [files/[id]/share], [files/[id]/reencrypt-share],
      [files/[id]], [files/[id]/download] and [auth/login],
    followed by the properties the specification states about them and by
    further properties of the same code.

    Conventions.
    - An [ArrayBuffer]/[Uint8Array] is a [list byte]; a JavaScript string is a
      [string] whose characters are code units 0..255.
    - A rejected promise / thrown exception is [Throw e]; [await] is the bind
      of the monad at hand.
    - The browser's cryptographic primitives (RSA-OAEP, AES-GCM, SHA-256, the
      random source) are the fields of the class [WebCrypto]; what the
      [SubtleCrypto] interface itself decides (key objects, their
      [extractable] flag and usages, the order of its checks) is written out.
    - The database is a record of tables, each a list of rows in insertion
      order; a Prisma call is a function on that record. *)

From Stdlib Require Import List String Ascii Bool Arith NArith ZArith Lia.
From Stdlib Require Import Strings.Byte DecimalString DecimalNat.
Import ListNotations.

Local Open Scope string_scope.
Local Open Scope list_scope.

(* ================================================================== *)
(** ** JavaScript values that the model needs *)
(* ================================================================== *)

(** Names of the [DOMException]s raised by [atob] and by [crypto.subtle]. *)
Inductive DOMExceptionName : Type :=
| InvalidAccessError
| OperationError
| DataError
| SyntaxError
| NotSupportedError
| InvalidCharacterError.

(** A thrown value: a [DOMException] of the platform, or [new Error(message)]
    raised by the application code. *)
Inductive exn : Type :=
| DOMException (name : DOMExceptionName)
| JsError (message : string).

(** The outcome of a call that may throw (of an awaited promise). *)
Inductive result (A : Type) : Type :=
| Ok (a : A)
| Throw (e : exn).

Arguments Ok {A} a.
Arguments Throw {A} e.

Definition ArrayBuffer := list byte.

Module Res.
Definition bind {A B} (m : result A) (k : A -> result B) : result B :=
  match m with
  | Ok a => k a
  | Throw e => Throw e
  end.

(** [try { m } catch (error) { h error }] *)
Definition try_catch {A} (m : result A) (h : exn -> result A) : result A :=
  match m with
  | Ok a => Ok a
  | Throw e => h e
  end.
End Res.

Declare Scope res_scope.
Delimit Scope res_scope with res.
Notation "x <- m ;; k" := (Res.bind m (fun x => k))
  (at level 61, m at next level, right associativity) : res_scope.

(* ================================================================== *)
(** ** Strings: the pieces of [String.prototype] the sources call *)
(* ================================================================== *)

Module JsString.

Definition code (c : ascii) : N := N_of_ascii c.

(** White space as the regular expression class [\s] and [trim] see it,
    within code units 0..255: TAB, LF, VT, FF, CR, SPACE and NBSP. *)
Definition is_space (c : ascii) : bool :=
  let n := code c in
  (n =? 9)%N || (n =? 10)%N || (n =? 11)%N || (n =? 12)%N || (n =? 13)%N
  || (n =? 32)%N || (n =? 160)%N.

Definition chars (s : string) : list ascii := list_ascii_of_string s.
Definition of_chars (l : list ascii) : string := string_of_list_ascii l.

(** [s.replace(/\s/g, '')] *)
Definition remove_spaces (s : string) : string :=
  of_chars (filter (fun c => negb (is_space c)) (chars s)).

(** [s.startsWith(p)] *)
Definition startsWith (p s : string) : bool := String.prefix p s.

(** [s.replace(pat, '')] with a string pattern: only the first occurrence
    is removed. *)
Fixpoint remove_first (pat s : string) : string :=
  if String.prefix pat s then substring (String.length pat) (String.length s - String.length pat) s
  else match s with
       | EmptyString => EmptyString
       | String c s' => String c (remove_first pat s')
       end.

(** [s.split(',')]: the fields between the separators; never empty. *)
Fixpoint split_chars (sep : ascii) (l : list ascii) : list (list ascii) :=
  match l with
  | [] => [[]]
  | c :: l' =>
      if Ascii.eqb c sep then [] :: split_chars sep l'
      else match split_chars sep l' with
           | [] => [[c]]
           | f :: fs => (c :: f) :: fs
           end
  end.

Definition split (sep : ascii) (s : string) : list string :=
  map of_chars (split_chars sep (chars s)).

Fixpoint drop_spaces (l : list ascii) : list ascii :=
  match l with
  | c :: l' => if is_space c then drop_spaces l' else l
  | [] => []
  end.

(** [s.trim()] *)
Definition trim (s : string) : string :=
  of_chars (rev (drop_spaces (rev (drop_spaces (chars s))))).

(** [parts.join(sep)] *)
Fixpoint join (sep : string) (parts : list string) : string :=
  match parts with
  | [] => ""
  | [p] => p
  | p :: ps => p ++ sep ++ join sep ps
  end.

(** [arr.includes(x)] on an array of strings *)
Definition includes (arr : list string) (x : string) : bool :=
  existsb (String.eqb x) arr.

End JsString.

(* ================================================================== *)
(** ** [btoa] / [atob] and the two buffer conversions of crypto.ts *)
(* ================================================================== *)

Module Base64.

Definition alphabet : list ascii :=
  JsString.chars "ABCDEFGHIJKLMNOPQRSTUVWXYZabcdefghijklmnopqrstuvwxyz0123456789+/".

Definition pad : ascii := "="%char.

Definition digit (n : N) : ascii := nth (N.to_nat n) alphabet pad.

(** The value of a base64 digit; [None] for any other character. *)
Definition value (c : ascii) : option N :=
  let n := JsString.code c in
  if (65 <=? n)%N && (n <=? 90)%N then Some (n - 65)%N
  else if (97 <=? n)%N && (n <=? 122)%N then Some (n - 71)%N
  else if (48 <=? n)%N && (n <=? 57)%N then Some (n + 4)%N
  else if (n =? 43)%N then Some 62%N
  else if (n =? 47)%N then Some 63%N
  else None.

(** Three octets become four digits; a tail of one or two octets is padded. *)
Fixpoint encode (l : list N) : list ascii :=
  match l with
  | a :: b :: c :: rest =>
      digit (a / 4)
      :: digit ((a mod 4) * 16 + b / 16)
      :: digit ((b mod 16) * 4 + c / 64)
      :: digit (c mod 64)
      :: encode rest
  | [a; b] =>
      [digit (a / 4); digit ((a mod 4) * 16 + b / 16); digit ((b mod 16) * 4); pad]
  | [a] =>
      [digit (a / 4); digit ((a mod 4) * 16); pad; pad]
  | [] => []
  end%N.

(** Four digits give three octets; two or three trailing digits give one or
    two octets, the spare bits being discarded. *)
Fixpoint decode (l : list N) : list N :=
  match l with
  | s0 :: s1 :: s2 :: s3 :: rest =>
      (s0 * 4 + s1 / 16)
      :: ((s1 mod 16) * 16 + s2 / 4)
      :: ((s2 mod 4) * 64 + s3)
      :: decode rest
  | [s0; s1; s2] => [s0 * 4 + s1 / 16; (s1 mod 16) * 16 + s2 / 4]
  | [s0; s1] => [s0 * 4 + s1 / 16]
  | _ => []
  end%N.

Fixpoint values (l : list ascii) : option (list N) :=
  match l with
  | [] => Some []
  | c :: l' =>
      match value c, values l' with
      | Some v, Some vs => Some (v :: vs)
      | _, _ => None
      end
  end.

(** ASCII white space as [atob] strips it: TAB, LF, FF, CR, SPACE. *)
Definition is_ascii_whitespace (c : ascii) : bool :=
  let n := JsString.code c in
  (n =? 9)%N || (n =? 10)%N || (n =? 12)%N || (n =? 13)%N || (n =? 32)%N.

(** One or two trailing [=] are dropped. *)
Definition strip_padding (l : list ascii) : list ascii :=
  match rev l with
  | p1 :: p2 :: r =>
      if Ascii.eqb p1 pad then
        if Ascii.eqb p2 pad then rev r else rev (p2 :: r)
      else l
  | [p1] => if Ascii.eqb p1 pad then [] else l
  | [] => l
  end.

(** [btoa(binary)]: every code unit of the model is below 256, so the
    call never throws. *)
Definition btoa (binary : string) : string :=
  JsString.of_chars (encode (map JsString.code (JsString.chars binary))).

(** [atob(data)], the forgiving base64 decoding of the HTML standard. *)
Definition atob (data : string) : result string :=
  let d := filter (fun c => negb (is_ascii_whitespace c)) (JsString.chars data) in
  let d := if (List.length d mod 4 =? 0)%nat then strip_padding d else d in
  if (List.length d mod 4 =? 1)%nat then Throw (DOMException InvalidCharacterError)
  else match values d with
       | None => Throw (DOMException InvalidCharacterError)
       | Some vs => Ok (JsString.of_chars (map ascii_of_N (decode vs)))
       end.

End Base64.

(** [arrayBufferToBase64]: the loop appends [String.fromCharCode(bytes[i])]
    for each byte, then [btoa]. *)
Definition arrayBufferToBase64 (buffer : ArrayBuffer) : string :=
  let binary := string_of_list_byte buffer in
  Base64.btoa binary.

(** [base64ToArrayBuffer]: [atob], then [bytes[i] = binary.charCodeAt(i)]. *)
Definition base64ToArrayBuffer (base64 : string) : result ArrayBuffer :=
  match Base64.atob base64 with
  | Ok binary => Ok (list_byte_of_string binary)
  | Throw e => Throw e
  end.

(** [calculateFileHash]'s rendering: two lower-case hexadecimal digits per
    byte ([b.toString(16).padStart(2, '0')], joined). *)
Module Hex.
Definition digit (n : N) : ascii :=
  nth (N.to_nat n) (JsString.chars "0123456789abcdef") "0"%char.

Definition of_byte (b : byte) : list ascii :=
  let n := Byte.to_N b in [digit (n / 16)%N; digit (n mod 16)%N].

Definition of_bytes (l : list byte) : string :=
  JsString.of_chars (flat_map of_byte l).
End Hex.

(* ================================================================== *)
(** ** The Web Crypto API ([crypto.subtle], [crypto.getRandomValues]) *)
(* ================================================================== *)

Inductive KeyType : Type := Secret | Public | Private.
Inductive KeyUsage : Type := Encrypt | Decrypt | WrapKey | UnwrapKey.
Inductive Algorithm : Type := AES_GCM | RSA_OAEP.
Inductive KeyFormat : Type := Raw | Spki | Pkcs8.

(** A [CryptoKey] with its internal slots. [key_data] is the key material:
    the raw bytes of an AES key, the SubjectPublicKeyInfo of an RSA public
    key, the PKCS#8 encoding of an RSA private key. *)
Record CryptoKey : Type := mkCryptoKey {
  key_type : KeyType;
  extractable : bool;
  algorithm : Algorithm;
  usages : list KeyUsage;
  key_data : list byte
}.

Definition KeyUsage_eqb (a b : KeyUsage) : bool :=
  match a, b with
  | Encrypt, Encrypt | Decrypt, Decrypt | WrapKey, WrapKey | UnwrapKey, UnwrapKey => true
  | _, _ => false
  end.

Definition Algorithm_eqb (a b : Algorithm) : bool :=
  match a, b with
  | AES_GCM, AES_GCM | RSA_OAEP, RSA_OAEP => true
  | _, _ => false
  end.

Definition has_usage (u : KeyUsage) (us : list KeyUsage) : bool :=
  existsb (KeyUsage_eqb u) us.

Definition usages_within (allowed us : list KeyUsage) : bool :=
  forallb (fun u => has_usage u allowed) us.

Definition usages_inter (us allowed : list KeyUsage) : list KeyUsage :=
  filter (fun u => has_usage u allowed) us.

(** The primitives behind the interface. Randomised operations take the
    state of the random source and give back the state after their draws.
    - [rsa_generate] yields the SPKI and PKCS#8 encodings of a fresh
      2048-bit key pair;
    - [rsa_oaep_encrypt spki msg] is [None] when the message is too long for
      the modulus;
    - [aes_gcm_encrypt key iv data] is the ciphertext followed by the
      128-bit tag; [aes_gcm_decrypt] is [None] when the tag does not verify. *)
Class WebCrypto : Type := {
  Entropy : Type;
  getRandomValues : nat -> Entropy -> list byte * Entropy;
  rsa_generate : Entropy -> (list byte * list byte) * Entropy;
  spki_parses : list byte -> bool;
  pkcs8_parses : list byte -> bool;
  rsa_oaep_encrypt : list byte -> list byte -> Entropy -> option (list byte) * Entropy;
  rsa_oaep_decrypt : list byte -> list byte -> option (list byte);
  aes_gcm_encrypt : list byte -> list byte -> list byte -> list byte;
  aes_gcm_decrypt : list byte -> list byte -> list byte -> option (list byte);
  sha256 : list byte -> list byte
}.

(** The largest message RSA-OAEP takes with a 2048-bit modulus and SHA-256:
    256 - 2*32 - 2 bytes. *)
Definition rsa_oaep_max_message : nat := 190.

(** What the primitives are assumed to satisfy: the random source delivers
    the length asked for, generated RSA keys parse and decrypt what was
    encrypted to them, AES-GCM appends a 16-byte tag and decrypts what it
    encrypted under the same 256-bit key and IV. *)
Class WebCryptoLaws (W : WebCrypto) : Prop := {
  random_length :
    forall n e, List.length (fst (getRandomValues n e)) = n;
  rsa_generate_parses :
    forall e, spki_parses (fst (fst (rsa_generate e))) = true
              /\ pkcs8_parses (snd (fst (rsa_generate e))) = true;
  rsa_generate_inverse :
    forall e msg e',
      List.length msg <= rsa_oaep_max_message ->
      exists c,
        fst (rsa_oaep_encrypt (fst (fst (rsa_generate e))) msg e') = Some c
        /\ rsa_oaep_decrypt (snd (fst (rsa_generate e))) c = Some msg;
  aes_gcm_tag :
    forall key iv data,
      List.length (aes_gcm_encrypt key iv data) = List.length data + 16;
  aes_gcm_inverse :
    forall key iv data,
      List.length key = 32 ->
      aes_gcm_decrypt key iv (aes_gcm_encrypt key iv data) = Some data
}.

(** An asynchronous computation that may draw from the random source. *)
Definition Async `{WebCrypto} (A : Type) : Type := Entropy -> result A * Entropy.

Module Async.
Section Ops.
Context `{WebCrypto}.

Definition ret {A} (a : A) : Async A := fun e => (Ok a, e).

Definition bind {A B} (m : Async A) (k : A -> Async B) : Async B :=
  fun e => match m e with
           | (Ok a, e') => k a e'
           | (Throw x, e') => (Throw x, e')
           end.

(** A computation that draws nothing. *)
Definition lift {A} (r : result A) : Async A := fun e => (r, e).

Definition throw {A} (x : exn) : Async A := fun e => (Throw x, e).

(** [crypto.getRandomValues(new Uint8Array(n))] *)
Definition random (n : nat) : Async (list byte) :=
  fun e => let '(bytes, e') := getRandomValues n e in (Ok bytes, e').

(** [try { m } catch (error) { h error }] *)
Definition try_catch {A} (m : Async A) (h : exn -> Async A) : Async A :=
  fun e => match m e with
           | (Ok a, e') => (Ok a, e')
           | (Throw x, e') => h x e'
           end.
End Ops.
End Async.

Declare Scope async_scope.
Delimit Scope async_scope with async.
Notation "x <- m ;; k" := (Async.bind m (fun x => k))
  (at level 61, m at next level, right associativity) : async_scope.

Record KeyPair : Type := mkKeyPair {
  publicKey : CryptoKey;
  privateKey : CryptoKey
}.

Module Subtle.
Section Ops.
Context `{WebCrypto}.

(** The usages that AES-GCM and RSA-OAEP recognise. *)
Definition cipher_usages : list KeyUsage := [Encrypt; Decrypt; WrapKey; UnwrapKey].
Definition rsa_public_usages : list KeyUsage := [Encrypt; WrapKey].
Definition rsa_private_usages : list KeyUsage := [Decrypt; UnwrapKey].

Definition is_nil {A} (l : list A) : bool :=
  match l with [] => true | _ => false end.

(** [crypto.subtle.generateKey({name: 'AES-GCM', length}, extractable, usages)] *)
Definition generateKey_AES (length_bits : nat) (ext : bool) (us : list KeyUsage)
  : Async CryptoKey :=
  fun e =>
    if negb (usages_within cipher_usages us) then (Throw (DOMException SyntaxError), e)
    else if negb ((length_bits =? 128) || (length_bits =? 192) || (length_bits =? 256))%nat
    then (Throw (DOMException OperationError), e)
    else
      let '(raw, e') := getRandomValues (length_bits / 8) e in
      if is_nil us then (Throw (DOMException SyntaxError), e')
      else (Ok (mkCryptoKey Secret ext AES_GCM us raw), e').

(** [crypto.subtle.generateKey({name: 'RSA-OAEP', ...}, extractable, usages)]:
    the public key is always extractable; each key keeps the usages
    that apply to it. *)
Definition generateKey_RSA (ext : bool) (us : list KeyUsage) : Async KeyPair :=
  fun e =>
    if negb (usages_within cipher_usages us) then (Throw (DOMException SyntaxError), e)
    else
      let '((spki, pkcs8), e') := rsa_generate e in
      let pub := mkCryptoKey Public true RSA_OAEP (usages_inter us rsa_public_usages) spki in
      let priv := mkCryptoKey Private ext RSA_OAEP (usages_inter us rsa_private_usages) pkcs8 in
      if is_nil (usages priv) then (Throw (DOMException SyntaxError), e')
      else (Ok (mkKeyPair pub priv), e').

(** [crypto.subtle.importKey(format, keyData, algorithm, extractable, usages)] *)
Definition importKey (format : KeyFormat) (keyData : list byte) (alg : Algorithm)
           (ext : bool) (us : list KeyUsage) : result CryptoKey :=
  match alg, format with
  | AES_GCM, Raw =>
      if negb (usages_within cipher_usages us) then Throw (DOMException SyntaxError)
      else
        let n := List.length keyData in
        if negb ((n =? 16) || (n =? 24) || (n =? 32))%nat then Throw (DOMException DataError)
        else if is_nil us then Throw (DOMException SyntaxError)
        else Ok (mkCryptoKey Secret ext AES_GCM us keyData)
  | AES_GCM, _ => Throw (DOMException NotSupportedError)
  | RSA_OAEP, Spki =>
      if negb (usages_within rsa_public_usages us) then Throw (DOMException SyntaxError)
      else if negb (spki_parses keyData) then Throw (DOMException DataError)
      else Ok (mkCryptoKey Public ext RSA_OAEP us keyData)
  | RSA_OAEP, Pkcs8 =>
      if negb (usages_within rsa_private_usages us) then Throw (DOMException SyntaxError)
      else if negb (pkcs8_parses keyData) then Throw (DOMException DataError)
      else if is_nil us then Throw (DOMException SyntaxError)
      else Ok (mkCryptoKey Private ext RSA_OAEP us keyData)
  | RSA_OAEP, Raw => Throw (DOMException NotSupportedError)
  end.

(** [crypto.subtle.exportKey(format, key)]: a key whose [extractable]
    slot is false is never exported. *)
Definition exportKey (format : KeyFormat) (key : CryptoKey) : result (list byte) :=
  if negb (extractable key) then Throw (DOMException InvalidAccessError)
  else
    match algorithm key, format with
    | AES_GCM, Raw => Ok (key_data key)
    | AES_GCM, _ => Throw (DOMException NotSupportedError)
    | RSA_OAEP, Spki =>
        match key_type key with
        | Public => Ok (key_data key)
        | _ => Throw (DOMException InvalidAccessError)
        end
    | RSA_OAEP, Pkcs8 =>
        match key_type key with
        | Private => Ok (key_data key)
        | _ => Throw (DOMException InvalidAccessError)
        end
    | RSA_OAEP, Raw => Throw (DOMException NotSupportedError)
    end.

(** [crypto.subtle.encrypt({name: 'RSA-OAEP'}, key, data)] *)
Definition encrypt_RSA_OAEP (key : CryptoKey) (data : list byte) : Async (list byte) :=
  fun e =>
    if negb (Algorithm_eqb (algorithm key) RSA_OAEP) then (Throw (DOMException InvalidAccessError), e)
    else if negb (has_usage Encrypt (usages key)) then (Throw (DOMException InvalidAccessError), e)
    else
      match key_type key with
      | Public =>
          match rsa_oaep_encrypt (key_data key) data e with
          | (Some c, e') => (Ok c, e')
          | (None, e') => (Throw (DOMException OperationError), e')
          end
      | _ => (Throw (DOMException InvalidAccessError), e)
      end.

(** [crypto.subtle.decrypt({name: 'RSA-OAEP'}, key, data)] *)
Definition decrypt_RSA_OAEP (key : CryptoKey) (data : list byte) : result (list byte) :=
  if negb (Algorithm_eqb (algorithm key) RSA_OAEP) then Throw (DOMException InvalidAccessError)
  else if negb (has_usage Decrypt (usages key)) then Throw (DOMException InvalidAccessError)
  else
    match key_type key with
    | Private =>
        match rsa_oaep_decrypt (key_data key) data with
        | Some m => Ok m
        | None => Throw (DOMException OperationError)
        end
    | _ => Throw (DOMException InvalidAccessError)
    end.

(** [crypto.subtle.encrypt({name: 'AES-GCM', iv}, key, data)]: the
    result is the ciphertext with the tag appended. *)
Definition encrypt_AES_GCM (iv : list byte) (key : CryptoKey) (data : list byte)
  : result (list byte) :=
  if negb (Algorithm_eqb (algorithm key) AES_GCM) then Throw (DOMException InvalidAccessError)
  else if negb (has_usage Encrypt (usages key)) then Throw (DOMException InvalidAccessError)
  else Ok (aes_gcm_encrypt (key_data key) iv data).

(** [crypto.subtle.decrypt({name: 'AES-GCM', iv}, key, data)], with the
    default tag length of 128 bits. *)
Definition decrypt_AES_GCM (iv : list byte) (key : CryptoKey) (data : list byte)
  : result (list byte) :=
  if negb (Algorithm_eqb (algorithm key) AES_GCM) then Throw (DOMException InvalidAccessError)
  else if negb (has_usage Decrypt (usages key)) then Throw (DOMException InvalidAccessError)
  else if (List.length data <? 16)%nat then Throw (DOMException OperationError)
  else
    match aes_gcm_decrypt (key_data key) iv data with
    | Some p => Ok p
    | None => Throw (DOMException OperationError)
    end.

(** [crypto.subtle.digest('SHA-256', data)] *)
Definition digest_SHA256 (data : list byte) : list byte := sha256 data.

End Ops.
End Subtle.

(* ================================================================== *)
(** ** src/lib/crypto.ts *)
(* ================================================================== *)

Record EncryptedData : Type := mkEncryptedData {
  ed_encryptedData : ArrayBuffer;
  ed_iv : ArrayBuffer;
  ed_authTag : ArrayBuffer
}.

Record EncryptedFile : Type := mkEncryptedFile {
  ef_encryptedData : ArrayBuffer;
  ef_encryptedKey : ArrayBuffer;
  ef_iv : ArrayBuffer;
  ef_authTag : ArrayBuffer;
  ef_checksum : string
}.

(** [arr.slice(0, -n)] and [arr.slice(-n)] on a typed array: a negative
    index counts from the end and is clamped at 0. *)
Definition slice_until_last (n : nat) (l : list byte) : list byte :=
  firstn (List.length l - n) l.

Definition slice_last (n : nat) (l : list byte) : list byte :=
  skipn (List.length l - n) l.

Definition pem_header : string := "-----BEGIN PUBLIC KEY-----".
Definition pem_footer : string := "-----END PUBLIC KEY-----".
Definition newline : string := String (ascii_of_nat 10) EmptyString.

(** [base64.match(/.{1,64}/g)]: the string cut into pieces of 64 characters
    (the last may be shorter); [None] stands for the [null] that [match]
    gives on the empty string. The fuel is the length of the input. *)
Fixpoint chunks64 (fuel : nat) (l : list ascii) : list string :=
  match fuel, l with
  | _, [] => []
  | O, _ => []
  | S fuel', _ => JsString.of_chars (firstn 64 l) :: chunks64 fuel' (skipn 64 l)
  end.

Definition match_1_64 (base64 : string) : option (list string) :=
  match JsString.chars base64 with
  | [] => None
  | l => Some (chunks64 (List.length l) l)
  end.

Section Crypto.
Context `{WebCrypto}.

Local Open Scope async_scope.

(** [generateRSAKeyPair] *)
Definition generateRSAKeyPair : Async KeyPair :=
  Subtle.generateKey_RSA true [Encrypt; Decrypt].

(** [generateAESKey] *)
Definition generateAESKey : Async CryptoKey :=
  Subtle.generateKey_AES 256 true [Encrypt; Decrypt].

(** [encryptWithAES]: a fresh 12-byte IV, then the ciphertext is split
    from its 16-byte tag. *)
Definition encryptWithAES (data : ArrayBuffer) (key : CryptoKey) : Async EncryptedData :=
  iv <- Async.random 12 ;;
  encrypted <- Async.lift (Subtle.encrypt_AES_GCM iv key data) ;;
  let authTagLength := 16 in
  let encryptedData := slice_until_last authTagLength encrypted in
  let authTag := slice_last authTagLength encrypted in
  Async.ret (mkEncryptedData encryptedData iv authTag).

(** [decryptWithAES]: ciphertext and tag are put back together. *)
Definition decryptWithAES (encryptedData : ArrayBuffer) (key : CryptoKey)
           (iv authTag : ArrayBuffer) : result ArrayBuffer :=
  let combined := encryptedData ++ authTag in
  Subtle.decrypt_AES_GCM iv key combined.

(** [encryptKeyWithRSA]: the AES key is exported raw and encrypted. *)
Definition encryptKeyWithRSA (aesKey rsaPublicKey : CryptoKey) : Async ArrayBuffer :=
  keyData <- Async.lift (Subtle.exportKey Raw aesKey) ;;
  Subtle.encrypt_RSA_OAEP rsaPublicKey keyData.

(** [decryptKeyWithRSA]: the decrypted bytes are imported as an AES-GCM
    key with [extractable = false] and usages [encrypt], [decrypt]. *)
Definition decryptKeyWithRSA (encryptedKey : ArrayBuffer) (rsaPrivateKey : CryptoKey)
  : result CryptoKey :=
  (keyData <- Subtle.decrypt_RSA_OAEP rsaPrivateKey encryptedKey ;;
   Subtle.importKey Raw keyData AES_GCM false [Encrypt; Decrypt])%res.

(** [calculateFileHash] *)
Definition calculateFileHash (data : ArrayBuffer) : string :=
  let hashBuffer := Subtle.digest_SHA256 data in
  Hex.of_bytes hashBuffer.

(** [encryptFile] *)
Definition encryptFile (fileData : ArrayBuffer) (rsaPublicKey : CryptoKey)
  : Async EncryptedFile :=
  aesKey <- generateAESKey ;;
  encryptedData <- encryptWithAES fileData aesKey ;;
  encryptedKey <- encryptKeyWithRSA aesKey rsaPublicKey ;;
  let checksum := calculateFileHash fileData in
  Async.ret (mkEncryptedFile (ed_encryptedData encryptedData) encryptedKey
                             (ed_iv encryptedData) (ed_authTag encryptedData) checksum).

(** [decryptFile]: unwrap the AES key, then decrypt. No checksum is
    among its arguments. *)
Definition decryptFile (encryptedData encryptedKey iv authTag : ArrayBuffer)
           (rsaPrivateKey : CryptoKey) : result ArrayBuffer :=
  (aesKey <- decryptKeyWithRSA encryptedKey rsaPrivateKey ;;
   decryptWithAES encryptedData aesKey iv authTag)%res.

(** [exportPublicKeyToPEM]; the optional chaining on a [null] match
    leaves [undefined] in the template. *)
Definition exportPublicKeyToPEM (publicKey : CryptoKey) : result string :=
  (exported <- Subtle.exportKey Spki publicKey ;;
   let base64 := arrayBufferToBase64 exported in
   let body := match match_1_64 base64 with
               | Some lines => JsString.join newline lines
               | None => "undefined"
               end in
   Ok (pem_header ++ newline ++ body ++ newline ++ pem_footer)%string)%res.

(** [importPublicKeyFromPEM]: header, footer and white space are removed,
    the rest is decoded and imported as a non-extractable RSA-OAEP key
    for [encrypt]. *)
Definition importPublicKeyFromPEM (pem : string) : result CryptoKey :=
  let base64 :=
    JsString.remove_spaces
      (JsString.remove_first pem_footer (JsString.remove_first pem_header pem)) in
  (keyData <- base64ToArrayBuffer base64 ;;
   Subtle.importKey Spki keyData RSA_OAEP false [Encrypt])%res.

End Crypto.

(* ================================================================== *)
(** ** src/lib/share-crypto.ts *)
(* ================================================================== *)

Section ShareCrypto.
Context `{WebCrypto}.

Local Open Scope async_scope.

Definition reEncrypt_failure : exn :=
  JsError "No se pudo re-cifrar la clave del archivo".

(** [reEncryptFileKey]: every failure inside the [try] block is replaced
    by the same [Error]. *)
Definition reEncryptFileKey (encryptedFileKey : string) (ownerPrivateKey : CryptoKey)
           (targetPublicKeyPEM : string) : Async string :=
  Async.try_catch
    (encryptedKeyBuffer <- Async.lift (base64ToArrayBuffer encryptedFileKey) ;;
     aesKey <- Async.lift (decryptKeyWithRSA encryptedKeyBuffer ownerPrivateKey) ;;
     targetPublicKey <- Async.lift (importPublicKeyFromPEM targetPublicKeyPEM) ;;
     reEncryptedKeyBuffer <- encryptKeyWithRSA aesKey targetPublicKey ;;
     Async.ret (arrayBufferToBase64 reEncryptedKeyBuffer))
    (fun _ => Async.throw reEncrypt_failure).

(** [validatePublicKey] *)
Definition validatePublicKey (publicKeyPEM : string) : bool :=
  match importPublicKeyFromPEM publicKeyPEM with
  | Ok _ => true
  | Throw _ => false
  end.

(** [validateSharePermissions] *)
Definition validateSharePermissions (permissions : list string) : bool :=
  let validPermissions := ["read"; "download"; "share"] in
  if (List.length permissions =? 0)%nat then false
  else forallb (fun permission => JsString.includes validPermissions permission) permissions.

End ShareCrypto.

(* ================================================================== *)
(** ** An executable instance of the primitives

    A stand-in for the browser's algorithms, small enough to run the model
    on concrete inputs: a counter as random source, key pairs that share a
    four-byte identifier, "encryption to a key" as tagging the message with
    that identifier, AES-GCM as reversing the data and appending a tag taken
    from the key. It satisfies [WebCryptoLaws]; nothing about its security
    is claimed. *)
(* ================================================================== *)

Module Reference.

Definition byte_of_nat (n : nat) : byte :=
  match Byte.of_N (N.of_nat n mod 256) with
  | Some b => b
  | None => x00
  end.

Fixpoint bytes_eqb (a b : list byte) : bool :=
  match a, b with
  | [], [] => true
  | x :: a', y :: b' => Byte.eqb x y && bytes_eqb a' b'
  | _, _ => false
  end.

Definition random_bytes (n : nat) (e : nat) : list byte * nat :=
  (map (fun i => byte_of_nat (e + i)) (seq 0 n), e + n).

Definition keygen (e : nat) : (list byte * list byte) * nat :=
  let '(ident, e') := random_bytes 4 e in
  (("P"%byte :: ident, "S"%byte :: ident), e').

Definition parses (tag : byte) (l : list byte) : bool :=
  match l with
  | t :: ident => Byte.eqb t tag && (List.length ident =? 4)%nat
  | [] => false
  end.

Definition oaep_encrypt (spki msg : list byte) (e : nat) : option (list byte) * nat :=
  let '(seed, e') := random_bytes 1 e in
  if (List.length msg <=? rsa_oaep_max_message)%nat
  then (Some (seed ++ tl spki ++ msg), e')
  else (None, e').

Definition oaep_decrypt (pkcs8 c : list byte) : option (list byte) :=
  let body := skipn 1 c in
  if (4 <=? List.length body)%nat && bytes_eqb (firstn 4 body) (tl pkcs8)
  then Some (skipn 4 body)
  else None.

Definition gcm_tag (key : list byte) : list byte :=
  firstn 16 (key ++ repeat x00 16).

Definition gcm_encrypt (key iv data : list byte) : list byte :=
  rev data ++ gcm_tag key.

Definition gcm_decrypt (key iv c : list byte) : option (list byte) :=
  if bytes_eqb (skipn (List.length c - 16) c) (gcm_tag key)
  then Some (rev (firstn (List.length c - 16) c))
  else None.

(** A 32-byte digest that depends on the length and on every byte. *)
Definition hash (data : list byte) : list byte :=
  let sum := fold_left (fun acc b => acc + N.to_nat (Byte.to_N b) + 1) data 0 in
  map (fun i => byte_of_nat (sum * (i + 1) + List.length data)) (seq 0 32).

Definition crypto : WebCrypto := {|
  Entropy := nat;
  getRandomValues := random_bytes;
  rsa_generate := keygen;
  spki_parses := parses "P"%byte;
  pkcs8_parses := parses "S"%byte;
  rsa_oaep_encrypt := oaep_encrypt;
  rsa_oaep_decrypt := oaep_decrypt;
  aes_gcm_encrypt := gcm_encrypt;
  aes_gcm_decrypt := gcm_decrypt;
  sha256 := hash
|}.

End Reference.

(* ================================================================== *)
(** ** src/lib/crypto-utils.ts *)
(* ================================================================== *)

Record FileMetadata : Type := mkFileMetadata {
  originalName : string;
  fm_mimeType : string;
  fm_size : nat;
  uploadedAt : Z;
  description : option string;
  tags : option (list string)
}.

(** The four base64 fields that [encryptMetadata] serialises and
    [decryptMetadata] reads back after [JSON.parse]. *)
Record EncryptedMetadata : Type := mkEncryptedMetadata {
  em_encryptedData : string;
  em_encryptedKey : string;
  em_iv : string;
  em_authTag : string
}.

(** [EncryptedFileData]: the transport form, every buffer in base64. *)
Record EncryptedFileData : Type := mkEncryptedFileData {
  encryptedData : string;
  encryptedKey : string;
  iv : string;
  authTag : string;
  checksum : string;
  metadata : option EncryptedMetadata
}.

Record Blob : Type := mkBlob {
  blob_bytes : ArrayBuffer;
  blob_type : string
}.

(** [new Blob([bytes], { type })]: the type is kept in ASCII lower case,
    and is the empty string when it holds a character outside
    U+0020..U+007E. *)
Definition ascii_lowercase (c : ascii) : ascii :=
  let n := JsString.code c in
  if ((65 <=? n) && (n <=? 90))%N then ascii_of_N (n + 32) else c.

Definition Blob_type (type : string) : string :=
  let cs := JsString.chars type in
  if forallb (fun c => ((32 <=? JsString.code c) && (JsString.code c <=? 126))%N) cs
  then JsString.of_chars (map ascii_lowercase cs)
  else "".

Definition new_Blob (bytes : ArrayBuffer) (type : string) : Blob :=
  mkBlob bytes (Blob_type type).

Definition checksum_failure : exn := JsError "Checksum inválido - archivo corrupto".

(** [value || fallback] on an optional string: [undefined] and the empty
    string are both falsy. *)
Definition or_default (value : option string) (fallback : string) : string :=
  match value with
  | Some s => if String.eqb s "" then fallback else s
  | None => fallback
  end.

Section CryptoUtils.
Context `{WebCrypto}.

(** [JSON.parse(new TextDecoder().decode(buffer))] read as a
    [FileMetadata]; it throws on malformed input. *)
Variable parseMetadata : ArrayBuffer -> result FileMetadata.

Local Open Scope res_scope.

(** [decryptMetadata] *)
Definition decryptMetadata (parsed : EncryptedMetadata) (privateKey : CryptoKey)
  : result FileMetadata :=
  a1 <- base64ToArrayBuffer (em_encryptedData parsed) ;;
  a2 <- base64ToArrayBuffer (em_encryptedKey parsed) ;;
  a3 <- base64ToArrayBuffer (em_iv parsed) ;;
  a4 <- base64ToArrayBuffer (em_authTag parsed) ;;
  decryptedBuffer <- decryptFile a1 a2 a3 a4 privateKey ;;
  parseMetadata decryptedBuffer.

(** The fallback metadata of [processFileForDownload]. *)
Definition fallbackMetadata (fallbackFilename fallbackMimeType : option string)
           (decryptedBuffer : ArrayBuffer) (now : Z) : FileMetadata :=
  let fileName := or_default fallbackFilename "archivo_descargado" in
  mkFileMetadata fileName (or_default fallbackMimeType "application/octet-stream")
                 (List.length decryptedBuffer) now None None.

(** [processFileForDownload]; [now] is the value of [new Date()]. *)
Definition processFileForDownload (encryptedFile : EncryptedFileData)
           (privateKey : CryptoKey) (fallbackFilename fallbackMimeType : option string)
           (now : Z) : result (Blob * FileMetadata) :=
  a1 <- base64ToArrayBuffer (encryptedData encryptedFile) ;;
  a2 <- base64ToArrayBuffer (encryptedKey encryptedFile) ;;
  a3 <- base64ToArrayBuffer (iv encryptedFile) ;;
  a4 <- base64ToArrayBuffer (authTag encryptedFile) ;;
  decryptedBuffer <- decryptFile a1 a2 a3 a4 privateKey ;;
  let calculatedChecksum := calculateFileHash decryptedBuffer in
  if negb (String.eqb calculatedChecksum (checksum encryptedFile))
  then Throw checksum_failure
  else
    let metadata :=
      match metadata encryptedFile with
      | Some m =>
          match decryptMetadata m privateKey with
          | Ok md => md
          | Throw _ => fallbackMetadata fallbackFilename fallbackMimeType decryptedBuffer now
          end
      | None => fallbackMetadata fallbackFilename fallbackMimeType decryptedBuffer now
      end in
    let file := new_Blob decryptedBuffer (fm_mimeType metadata) in
    Ok (file, metadata).

(** [validateFileIntegrity] *)
Definition validateFileIntegrity (encryptedFile : EncryptedFileData)
           (privateKey : CryptoKey) : result bool :=
  Res.try_catch
    (a1 <- base64ToArrayBuffer (encryptedData encryptedFile) ;;
     a2 <- base64ToArrayBuffer (encryptedKey encryptedFile) ;;
     a3 <- base64ToArrayBuffer (iv encryptedFile) ;;
     a4 <- base64ToArrayBuffer (authTag encryptedFile) ;;
     decryptedBuffer <- decryptFile a1 a2 a3 a4 privateKey ;;
     let calculatedChecksum := calculateFileHash decryptedBuffer in
     Ok (String.eqb calculatedChecksum (checksum encryptedFile)))
    (fun _ => Ok false).

End CryptoUtils.

(* ================================================================== *)
(** ** prisma/schema.prisma: the tables *)
(* ================================================================== *)

Definition Id := string.

(** A [DateTime], in milliseconds since the epoch. *)
Definition DateTime := Z.

(** A JSON value, as carried by request bodies, responses and audit
    details. A [Date] serialises to its time value. *)
#[local] Unset Elimination Schemes.
Inductive Json : Type :=
| JNull
| JBool (b : bool)
| JNum (n : Z)
| JStr (s : string)
| JDate (t : DateTime)
| JArr (items : list Json)
| JObj (fields : list (string * Json)).
#[local] Set Elimination Schemes.

Definition JOpt {A} (f : A -> Json) (o : option A) : Json :=
  match o with Some a => f a | None => JNull end.

Fixpoint lookup (key : string) (fields : list (string * Json)) : option Json :=
  match fields with
  | [] => None
  | (k, v) :: rest => if String.eqb k key then Some v else lookup key rest
  end.

Module User.
Record t : Type := mk {
  id : Id;
  email : string;
  username : string;
  passwordHash : string;
  salt : string;
  publicKey : string;
  encryptedPrivateKey : string;
  isEmailVerified : bool;
  isTwoFactorEnabled : bool;
  twoFactorSecret : option string;
  createdAt : DateTime;
  updatedAt : DateTime;
  lastLoginAt : option DateTime
}.
End User.

Module Session.
Record t : Type := mk {
  id : Id;
  userId : Id;
  sessionToken : string;
  accessToken : option string;
  refreshToken : option string;
  expiresAt : DateTime;
  createdAt : DateTime;
  ipAddress : option string;
  userAgent : option string
}.
End Session.

Module File.
Record t : Type := mk {
  id : Id;
  filename : string;
  encryptedFilename : option string;
  mimeType : string;
  size : Z;
  encryptedSize : Z;
  encryptedData : list byte;
  encryptedKey : string;
  iv : string;
  authTag : string;
  checksum : string;
  ownerId : Id;
  isDeleted : bool;
  deletedAt : option DateTime;
  createdAt : DateTime;
  updatedAt : DateTime;
  encryptedMetadata : option string
}.
End File.

Module FileShare.
Record t : Type := mk {
  id : Id;
  fileId : Id;
  sharedWithId : Id;
  sharedById : Id;
  encryptedKey : string;
  permissions : string;
  expiresAt : option DateTime;
  isRevoked : bool;
  revokedAt : option DateTime;
  revokedBy : option Id;
  createdAt : DateTime;
  updatedAt : DateTime
}.

(** The columns of the compound unique index [fileId_sharedWithId]. *)
Definition pair (s : t) : Id * Id := (fileId s, sharedWithId s).
End FileShare.

Module AuditLog.
Record t : Type := mk {
  id : Id;
  userId : option Id;
  fileId : option Id;
  action : string;
  details : Json;
  ipAddress : option string;
  userAgent : option string;
  success : bool;
  errorMessage : option string;
  timestamp : DateTime
}.
End AuditLog.

(** The database: one list of rows per table, oldest first, and the counter
    behind [@default(cuid())]. *)
Record DB : Type := mkDB {
  users : list User.t;
  sessions : list Session.t;
  files : list File.t;
  fileShares : list FileShare.t;
  auditLogs : list AuditLog.t;
  cuid_counter : nat
}.

(** The identifier drawn for a new row: distinct counters give distinct
    identifiers. *)
Definition cuid (n : nat) : Id := String "c"%char (NilEmpty.string_of_uint (Nat.to_uint n)).

Definition pair_eqb (p q : Id * Id) : bool :=
  String.eqb (fst p) (fst q) && String.eqb (snd p) (snd q).

Definition prisma_error (code : string) : exn := JsError code.

Module Prisma.

(** [prisma.file.findUnique({ where: { id } })] *)
Definition file_findUnique (id : Id) (db : DB) : option File.t :=
  find (fun f => String.eqb (File.id f) id) (files db).

(** [prisma.user.findUnique({ where: { email } })] *)
Definition user_findUnique_email (email : string) (db : DB) : option User.t :=
  find (fun u => String.eqb (User.email u) email) (users db).

(** [prisma.user.findUnique({ where: { id } })] *)
Definition user_findUnique (id : Id) (db : DB) : option User.t :=
  find (fun u => String.eqb (User.id u) id) (users db).

(** [prisma.fileShare.findUnique({ where: { fileId_sharedWithId } })] *)
Definition fileShare_findUnique (fileId sharedWithId : Id) (db : DB) : option FileShare.t :=
  find (fun s => pair_eqb (FileShare.pair s) (fileId, sharedWithId)) (fileShares db).

(** [prisma.fileShare.findUnique({ where: { id } })] *)
Definition fileShare_findUnique_id (id : Id) (db : DB) : option FileShare.t :=
  find (fun s => String.eqb (FileShare.id s) id) (fileShares db).

Definition set_fileShares (l : list FileShare.t) (db : DB) : DB :=
  mkDB (users db) (sessions db) (files db) l (auditLogs db) (cuid_counter db).

Definition set_files (l : list File.t) (db : DB) : DB :=
  mkDB (users db) (sessions db) l (fileShares db) (auditLogs db) (cuid_counter db).

Definition set_users (l : list User.t) (db : DB) : DB :=
  mkDB l (sessions db) (files db) (fileShares db) (auditLogs db) (cuid_counter db).

Definition set_sessions (l : list Session.t) (db : DB) : DB :=
  mkDB (users db) l (files db) (fileShares db) (auditLogs db) (cuid_counter db).

Definition set_auditLogs (l : list AuditLog.t) (db : DB) : DB :=
  mkDB (users db) (sessions db) (files db) (fileShares db) l (cuid_counter db).

(** A fresh [cuid()] and the database with the counter advanced. *)
Definition fresh_id (db : DB) : Id * DB :=
  (cuid (cuid_counter db),
   mkDB (users db) (sessions db) (files db) (fileShares db) (auditLogs db)
        (S (cuid_counter db))).

(** The columns a share call writes, on create and on update alike. *)
Record ShareData : Type := mkShareData {
  sd_fileId : Id;
  sd_sharedWithId : Id;
  sd_sharedById : Id;
  sd_encryptedKey : string;
  sd_permissions : string;
  sd_expiresAt : option DateTime
}.

(** [prisma.fileShare.create({ data })]: the row gets a fresh id and both
    timestamps; the call fails on a foreign key that matches no row and on
    a second row for the same (fileId, sharedWithId). The write sets
    [isRevoked: false, revokedAt: null, revokedBy: null]. *)
Definition fileShare_create (now : DateTime) (d : ShareData) (db : DB)
  : result (FileShare.t * DB) :=
  match file_findUnique (sd_fileId d) db, user_findUnique (sd_sharedWithId d) db with
  | Some _, Some _ =>
      match fileShare_findUnique (sd_fileId d) (sd_sharedWithId d) db with
      | Some _ => Throw (prisma_error "P2002")
      | None =>
          let '(i, db1) := fresh_id db in
          let row := FileShare.mk i (sd_fileId d) (sd_sharedWithId d) (sd_sharedById d)
                                  (sd_encryptedKey d) (sd_permissions d) (sd_expiresAt d)
                                  false None None now now in
          Ok (row, set_fileShares (fileShares db1 ++ [row]) db1)
      end
  | _, _ => Throw (prisma_error "P2003")
  end.

Definition apply_ShareData (now : DateTime) (d : ShareData) (s : FileShare.t) : FileShare.t :=
  FileShare.mk (FileShare.id s) (sd_fileId d) (sd_sharedWithId d) (sd_sharedById d)
               (sd_encryptedKey d) (sd_permissions d) (sd_expiresAt d)
               false None None (FileShare.createdAt s) now.

(** [prisma.fileShare.update({ where: { id }, data })]: fails when no row
    has the id; [updatedAt] follows the write. *)
Definition fileShare_update (now : DateTime) (id : Id) (d : ShareData) (db : DB)
  : result (FileShare.t * DB) :=
  match fileShare_findUnique_id id db with
  | None => Throw (prisma_error "P2025")
  | Some old =>
      let row := apply_ShareData now d old in
      Ok (row,
          set_fileShares
            (map (fun s => if String.eqb (FileShare.id s) id then apply_ShareData now d s else s)
                 (fileShares db))
            db)
  end.

Definition revoke (now : DateTime) (by_ : Id) (s : FileShare.t) : FileShare.t :=
  FileShare.mk (FileShare.id s) (FileShare.fileId s) (FileShare.sharedWithId s)
               (FileShare.sharedById s) (FileShare.encryptedKey s) (FileShare.permissions s)
               (FileShare.expiresAt s) true (Some now) (Some by_)
               (FileShare.createdAt s) now.

(** [prisma.fileShare.updateMany({ where: { fileId },
      data: { isRevoked: true, revokedAt, revokedBy } })] *)
Definition fileShare_revokeMany (now : DateTime) (fileId by_ : Id) (db : DB) : DB :=
  set_fileShares
    (map (fun s => if String.eqb (FileShare.fileId s) fileId then revoke now by_ s else s)
         (fileShares db))
    db.

Definition mark_deleted (now : DateTime) (f : File.t) : File.t :=
  File.mk (File.id f) (File.filename f) (File.encryptedFilename f) (File.mimeType f)
          (File.size f) (File.encryptedSize f) (File.encryptedData f) (File.encryptedKey f)
          (File.iv f) (File.authTag f) (File.checksum f) (File.ownerId f)
          true (Some now) (File.createdAt f) now (File.encryptedMetadata f).

(** [prisma.file.update({ where: { id }, data: { isDeleted: true, deletedAt } })] *)
Definition file_softDelete (now : DateTime) (id : Id) (db : DB) : result DB :=
  match file_findUnique id db with
  | None => Throw (prisma_error "P2025")
  | Some _ =>
      Ok (set_files
            (map (fun f => if String.eqb (File.id f) id then mark_deleted now f else f)
                 (files db))
            db)
  end.

Definition references_ok (userId fileId : option Id) (db : DB) : bool :=
  match userId with
  | Some u => match user_findUnique u db with Some _ => true | None => false end
  | None => true
  end
  && match fileId with
     | Some f => match file_findUnique f db with Some _ => true | None => false end
     | None => true
     end.

(** [prisma.auditLog.create({ data })]: fails on a dangling reference. *)
Definition auditLog_create (now : DateTime) (userId fileId : option Id) (action : string)
           (details : Json) (ipAddress userAgent : option string) (success : bool)
           (errorMessage : option string) (db : DB) : result DB :=
  if references_ok userId fileId db then
    let '(i, db1) := fresh_id db in
    Ok (set_auditLogs
          (auditLogs db1
           ++ [AuditLog.mk i userId fileId action details ipAddress userAgent
                           success errorMessage now])
          db1)
  else Throw (prisma_error "P2003").

End Prisma.

(* ================================================================== *)
(** ** src/lib/auth.ts: audit log and permission check *)
(* ================================================================== *)

Definition expired (now : DateTime) (expiresAt : option DateTime) : bool :=
  match expiresAt with
  | Some t => (t <? now)%Z
  | None => false
  end.

(** [logAuditEvent]: a failure of the insert is logged to the console and
    goes no further. *)
Definition logAuditEvent (now : DateTime) (action : string) (userId fileId : option Id)
           (details : Json) (ipAddress userAgent : option string) (success : bool)
           (errorMessage : option string) (db : DB) : DB :=
  match Prisma.auditLog_create now userId fileId action details ipAddress userAgent
                               success errorMessage db with
  | Ok db' => db'
  | Throw _ => db
  end.

(** The [permission] parameter: ['read' | 'write' | 'share' | 'delete']. *)
Inductive Permission : Type := PermRead | PermWrite | PermShare | PermDelete.

(** [permissionMap]: for each required permission, the granted entries
    that satisfy it. *)
Definition permissionMap (permission : Permission) : list string :=
  match permission with
  | PermRead => ["read"; "download"; "share"]
  | PermWrite => ["write"]
  | PermShare => ["share"]
  | PermDelete => []
  end.

(** [share.permissions.split(',').map(p => p.trim())] *)
Definition userPermissions (share : FileShare.t) : list string :=
  map JsString.trim (JsString.split ","%char (FileShare.permissions share)).

(** [validateFilePermission]; [now] is the value of [new Date()]. *)
Definition validateFilePermission (now : DateTime) (fileId userId : Id)
           (permission : Permission) (db : DB) : bool :=
  match Prisma.file_findUnique fileId db with
  | None => false
  | Some file =>
      if String.eqb (File.ownerId file) userId then true
      else
        match Prisma.fileShare_findUnique fileId userId db with
        | None => false
        | Some share =>
            if FileShare.isRevoked share || expired now (FileShare.expiresAt share)
            then false
            else existsb (fun p => JsString.includes (permissionMap permission) p)
                         (userPermissions share)
        end
  end.

(* ================================================================== *)
(** ** The API routes *)
(* ================================================================== *)

Record AuthUser : Type := mkAuthUser {
  au_id : Id;
  au_email : string;
  au_username : string;
  au_publicKey : string
}.

(** What a handler reads of a request: the user [getAuthenticatedUser]
    resolves the bearer token to ([None]: [requireAuth] throws), the client
    address and agent headers, and the outcome of [request.json()]. *)
Record Request : Type := mkRequest {
  auth : option AuthUser;
  clientIP : option string;
  userAgentHeader : option string;
  json : result Json
}.

Record Response : Type := mkResponse {
  status : nat;
  body : Json
}.

(** [request.headers.get('user-agent') || undefined] *)
Definition userAgent (req : Request) : option string :=
  match userAgentHeader req with
  | Some s => if String.eqb s "" then None else Some s
  | None => None
  end.

(** [error instanceof Error ? error.message : 'Unknown error'] *)
Definition exn_message (e : exn) : string :=
  match e with
  | JsError m => m
  | DOMException InvalidAccessError => "InvalidAccessError"
  | DOMException OperationError => "OperationError"
  | DOMException DataError => "DataError"
  | DOMException SyntaxError => "SyntaxError"
  | DOMException NotSupportedError => "NotSupportedError"
  | DOMException InvalidCharacterError => "InvalidCharacterError"
  end.

Definition error_body (message : string) : Json := JObj [("error", JStr message)].

Definition internal_error : Response := mkResponse 500 (error_body "Error interno del servidor").

(** The outer [catch] of every route: an audit entry for the error, then a
    500. *)
Definition route_failure (now : DateTime) (action : string) (fileId : option Id)
           (req : Request) (e : exn) (db : DB) : Response * DB :=
  (internal_error,
   logAuditEvent now action None fileId (JObj [("error", JStr (exn_message e))])
                 (clientIP req) (userAgent req) false (Some (exn_message e)) db).

Definition unauthorized : exn := JsError "No autorizado".

(** Services of the server besides the database: the string formats zod
    accepts, bcrypt and JWT signing. [parse_datetime s] is the time value
    of [new Date(s)] when [s] passes [z.string().datetime()]. *)
Class ServerEnv : Type := {
  is_email : string -> bool;
  parse_datetime : string -> option DateTime;
  bcrypt_compare : string -> string -> bool;
  jwt_sign : string -> Id -> string -> Id -> DateTime -> string
}.

Definition invalid_data (issues : list string) : Response :=
  mkResponse 400 (JObj [("error", JStr "Datos inválidos"); ("details", JArr (map JStr issues))]).

(* ------------------------------------------------------------------ *)
(** *** POST /api/files/[id]/share *)
(* ------------------------------------------------------------------ *)

(** The validated body of a share call; [si_expiresAt] already holds
    [new Date(expiresAt)]. *)
Record ShareInput : Type := mkShareInput {
  si_userEmail : string;
  si_permissions : list string;
  si_expiresAt : option DateTime
}.

Definition share_permission_enum : list string := ["read"; "download"; "share"].

Fixpoint enum_strings (allowed : list string) (items : list Json) : option (list string) :=
  match items with
  | [] => Some []
  | JStr s :: rest =>
      if JsString.includes allowed s then
        match enum_strings allowed rest with
        | Some l => Some (s :: l)
        | None => None
        end
      else None
  | _ :: _ => None
  end.

Section Routes.
Context `{WebCrypto} `{ServerEnv}.

(** [shareSchema.safeParse(body)]: the issues, or the parsed data. *)
Definition shareSchema_safeParse (body : Json) : list string + ShareInput :=
  match body with
  | JObj fields =>
      let email :=
        match lookup "userEmail" fields with
        | Some (JStr s) => if is_email s then inr s else inl ["Email inválido"]
        | Some _ => inl ["Expected string"]
        | None => inl ["Required"]
        end in
      let perms :=
        match lookup "permissions" fields with
        | Some (JArr items) =>
            match enum_strings share_permission_enum items with
            | Some [] => inl ["Al menos un permiso requerido"]
            | Some l => inr l
            | None => inl ["Invalid enum value"]
            end
        | Some _ => inl ["Expected array"]
        | None => inl ["Required"]
        end in
      let expires :=
        match lookup "expiresAt" fields with
        | None => inr None
        | Some (JStr s) =>
            match parse_datetime s with
            | Some t => inr (Some t)
            | None => inl ["Invalid datetime"]
            end
        | Some _ => inl ["Expected string"]
        end in
      match email, perms, expires with
      | inr e, inr p, inr x => inr (mkShareInput e p x)
      | _, _, _ =>
          inl (match email with inl i => i | inr _ => [] end
               ++ match perms with inl i => i | inr _ => [] end
               ++ match expires with inl i => i | inr _ => [] end)
      end
  | _ => inl ["Expected object"]
  end.

Definition demo_marker : string := "DEMO_".

Definition share_created (target : User.t) (permissions : list string)
           (share : FileShare.t) : Response :=
  mkResponse 201
    (JObj [("message", JStr "Archivo compartido exitosamente");
           ("share",
            JObj [("id", JStr (FileShare.id share));
                  ("sharedWith",
                   JObj [("email", JStr (User.email target));
                         ("username", JStr (User.username target))]);
                  ("permissions", JArr (map JStr permissions));
                  ("expiresAt", JOpt JDate (FileShare.expiresAt share));
                  ("createdAt", JDate (FileShare.createdAt share))])]).

(** [generateShareAuditData] merged with the fields the route adds. *)
Definition share_audit_details (fileId : Id) (user : AuthUser) (target : User.t)
           (input : ShareInput) (file : File.t) (share : FileShare.t) (isUpdate : bool)
           (now : DateTime) : Json :=
  JObj [("action", JStr "file_share");
        ("fileId", JStr fileId);
        ("ownerEmail", JStr (au_email user));
        ("targetEmail", JStr (User.email target));
        ("permissions", JArr (map JStr (si_permissions input)));
        ("expiresAt", JOpt JDate (si_expiresAt input));
        ("timestamp", JDate now);
        ("shareMethod", JStr "e2ee_reencrypt");
        ("filename", JStr (File.filename file));
        ("shareId", JStr (FileShare.id share));
        ("isUpdate", JBool isUpdate)].

(** The inner [try] block of the route: the placeholder key is stored,
    by update when a (revoked) record exists and by create otherwise. *)
Definition share_write (now : DateTime) (req : Request) (fileId : Id) (user : AuthUser)
           (input : ShareInput) (file : File.t) (target : User.t)
           (existingShare : option FileShare.t) (db : DB) : result (Response * DB) :=
  (_ <- importPublicKeyFromPEM (User.publicKey target) ;;
   let reEncryptedKey := (demo_marker ++ File.encryptedKey file)%string in
   let shareData :=
     Prisma.mkShareData fileId (User.id target) (au_id user) reEncryptedKey
                        (JsString.join "," (si_permissions input)) (si_expiresAt input) in
   written <- match existingShare with
              | Some existing => Prisma.fileShare_update now (FileShare.id existing) shareData db
              | None => Prisma.fileShare_create now shareData db
              end ;;
   let '(share, db1) := written in
   let isUpdate := match existingShare with Some _ => true | None => false end in
   let db2 :=
     logAuditEvent now "file_share" (Some (au_id user)) (Some fileId)
                   (share_audit_details fileId user target input file share isUpdate now)
                   (clientIP req) (userAgent req) true None db1 in
   Ok (share_created target (si_permissions input) share, db2))%res.

Definition share_POST (now : DateTime) (req : Request) (fileId : Id) (db : DB)
  : Response * DB :=
  match auth req with
  | None => route_failure now "file_share_error" (Some fileId) req unauthorized db
  | Some user =>
  match json req with
  | Throw e => route_failure now "file_share_error" (Some fileId) req e db
  | Ok body =>
  match shareSchema_safeParse body with
  | inl issues => (invalid_data issues, db)
  | inr input =>
  if negb (validateSharePermissions (si_permissions input))
  then (mkResponse 400 (error_body "Permisos inválidos"), db)
  else
  match Prisma.file_findUnique fileId db with
  | None => (mkResponse 404 (error_body "Archivo no encontrado"), db)
  | Some file =>
  if negb (String.eqb (File.ownerId file) (au_id user))
  then (mkResponse 403 (error_body "Solo el propietario puede compartir el archivo"), db)
  else if File.isDeleted file
  then (mkResponse 410 (error_body "No se puede compartir un archivo eliminado"), db)
  else
  match Prisma.user_findUnique_email (si_userEmail input) db with
  | None => (mkResponse 404 (error_body "Usuario destinatario no encontrado"), db)
  | Some target =>
  if String.eqb (User.id target) (au_id user)
  then (mkResponse 400 (error_body "No puedes compartir un archivo contigo mismo"), db)
  else
  let existingShare := Prisma.fileShare_findUnique fileId (User.id target) db in
  if match existingShare with
     | Some existing => negb (FileShare.isRevoked existing)
     | None => false
     end
  then (mkResponse 409 (error_body "El archivo ya está compartido con este usuario"), db)
  else if negb (validatePublicKey (User.publicKey target))
  then (mkResponse 400
          (error_body "El usuario destinatario tiene una clave pública inválida"), db)
  else
  match share_write now req fileId user input file target existingShare db with
  | Ok out => out
  | Throw _ =>
      (mkResponse 500 (error_body "Error procesando claves criptográficas"), db)
  end
  end end end end end.

End Routes.

(* ------------------------------------------------------------------ *)
(** *** DELETE /api/files/[id] *)
(* ------------------------------------------------------------------ *)

Definition file_DELETE (now : DateTime) (req : Request) (fileId : Id) (db : DB)
  : Response * DB :=
  match auth req with
  | None => route_failure now "file_delete_error" (Some fileId) req unauthorized db
  | Some user =>
  match Prisma.file_findUnique fileId db with
  | None => (mkResponse 404 (error_body "Archivo no encontrado"), db)
  | Some file =>
  if negb (String.eqb (File.ownerId file) (au_id user))
  then (mkResponse 403 (error_body "Solo el propietario puede eliminar el archivo"), db)
  else if File.isDeleted file
  then (mkResponse 410 (error_body "El archivo ya está eliminado"), db)
  else
  match Prisma.file_softDelete now fileId db with
  | Throw e => route_failure now "file_delete_error" (Some fileId) req e db
  | Ok db1 =>
      let db2 := Prisma.fileShare_revokeMany now fileId (au_id user) db1 in
      let db3 :=
        logAuditEvent now "file_delete" (Some (au_id user)) (Some fileId)
                      (JObj [("filename", JStr (File.filename file))])
                      (clientIP req) (userAgent req) true None db2 in
      (mkResponse 200 (JObj [("message", JStr "Archivo eliminado exitosamente")]), db3)
  end
  end end.

(* ------------------------------------------------------------------ *)
(** *** GET /api/files/[id]/download *)
(* ------------------------------------------------------------------ *)

Definition demo_notice : string :=
  "Este archivo fue compartido contigo pero está en modo demostración. Para descargarlo, el propietario necesitaría re-cifrar la clave del archivo específicamente para tu clave pública RSA. Esta es una limitación del demo - en producción esto se haría automáticamente durante el proceso de compartir.".

Definition download_body (file : File.t) (encryptedKey : string) : Json :=
  JObj [("id", JStr (File.id file));
        ("filename", JStr (File.filename file));
        ("mimeType", JStr (File.mimeType file));
        ("size", JNum (File.size file));
        ("encryptedSize", JNum (File.encryptedSize file));
        ("encryptedData", JStr (arrayBufferToBase64 (File.encryptedData file)));
        ("encryptedKey", JStr encryptedKey);
        ("iv", JStr (File.iv file));
        ("authTag", JStr (File.authTag file));
        ("checksum", JStr (File.checksum file));
        ("encryptedMetadata", JOpt JStr (File.encryptedMetadata file))].

(** The key the route selects for the caller: the file's own for the owner,
    the share's for anybody else, or the response that ends the request. *)
Definition download_key (now : DateTime) (fileId : Id) (user : AuthUser) (file : File.t)
           (db : DB) : Response + string :=
  if negb (String.eqb (File.ownerId file) (au_id user)) then
    match Prisma.fileShare_findUnique fileId (au_id user) db with
    | None => inl (mkResponse 403 (error_body "Acceso al archivo revocado o expirado"))
    | Some share =>
        if FileShare.isRevoked share || expired now (FileShare.expiresAt share)
        then inl (mkResponse 403 (error_body "Acceso al archivo revocado o expirado"))
        else if JsString.startsWith "DEMO_" (FileShare.encryptedKey share)
        then inl (mkResponse 501
                    (JObj [("error", JStr demo_notice);
                           ("isSharedDemo", JBool true);
                           ("fileName", JStr (File.filename file))]))
        else inr (FileShare.encryptedKey share)
    end
  else inr (File.encryptedKey file).

Definition download_GET (now : DateTime) (req : Request) (fileId : Id) (db : DB)
  : Response * DB :=
  match auth req with
  | None => route_failure now "file_download_error" (Some fileId) req unauthorized db
  | Some user =>
  if negb (validateFilePermission now fileId (au_id user) PermRead db)
  then
    (mkResponse 403 (error_body "No tienes permisos para descargar este archivo"),
     logAuditEvent now "file_download_denied" (Some (au_id user)) (Some fileId)
                   (JObj [("reason", JStr "insufficient_permissions")])
                   (clientIP req) (userAgent req) false (Some "Permisos insuficientes") db)
  else
  match Prisma.file_findUnique fileId db with
  | None => (mkResponse 404 (error_body "Archivo no encontrado"), db)
  | Some file =>
  if File.isDeleted file
  then (mkResponse 410 (error_body "Archivo eliminado"), db)
  else
  match download_key now fileId user file db with
  | inl response => (response, db)
  | inr encryptedKey =>
      (mkResponse 200 (download_body file encryptedKey),
       logAuditEvent now "file_download" (Some (au_id user)) (Some fileId)
                     (JObj [("filename", JStr (File.filename file));
                            ("size", JNum (File.size file));
                            ("isOwner", JBool (String.eqb (File.ownerId file) (au_id user)))])
                     (clientIP req) (userAgent req) true None db)
  end
  end end.

(* ------------------------------------------------------------------ *)
(** *** POST /api/auth/login *)
(* ------------------------------------------------------------------ *)

Record LoginInput : Type := mkLoginInput {
  li_email : string;
  li_password : string
}.

Record SessionTokens : Type := mkSessionTokens {
  st_sessionId : Id;
  st_accessToken : string;
  st_refreshToken : string
}.

Definition ACCESS_TOKEN_EXPIRY : string := "15m".
Definition REFRESH_TOKEN_EXPIRY : string := "7d".

Definition seven_days : Z := 7 * 24 * 60 * 60 * 1000.

Definition invalid_credentials : Response :=
  mkResponse 401 (error_body "Credenciales inválidas").

Section Login.
Context `{WebCrypto} `{ServerEnv}.

(** [loginSchema.safeParse(body)] *)
Definition loginSchema_safeParse (body : Json) : list string + LoginInput :=
  match body with
  | JObj fields =>
      let email :=
        match lookup "email" fields with
        | Some (JStr s) => if is_email s then inr s else inl ["Email inválido"]
        | Some _ => inl ["Expected string"]
        | None => inl ["Required"]
        end in
      let password :=
        match lookup "password" fields with
        | Some (JStr s) => if String.eqb s "" then inl ["Contraseña requerida"] else inr s
        | Some _ => inl ["Expected string"]
        | None => inl ["Required"]
        end in
      match email, password with
      | inr e, inr p => inr (mkLoginInput e p)
      | _, _ =>
          inl (match email with inl i => i | inr _ => [] end
               ++ match password with inl i => i | inr _ => [] end)
      end
  | _ => inl ["Expected object"]
  end.

(** [verifyPassword] *)
Definition verifyPassword (password hash : string) : bool := bcrypt_compare password hash.

(** [generateSessionToken]: 32 random bytes in hexadecimal. *)
Definition generateSessionToken : Async string :=
  (bytes <- Async.random 32 ;; Async.ret (Hex.of_bytes bytes))%async.

(** [prisma.session.create]: [sessionToken] is unique, [userId] a
    reference. *)
Definition session_create (now : DateTime) (userId : Id) (token : string)
           (expiresAt : DateTime) (ip ua : option string) (db : DB)
  : result (Session.t * DB) :=
  match Prisma.user_findUnique userId db with
  | None => Throw (prisma_error "P2003")
  | Some _ =>
      if existsb (fun s => String.eqb (Session.sessionToken s) token) (sessions db)
      then Throw (prisma_error "P2002")
      else
        let '(i, db1) := Prisma.fresh_id db in
        let row := Session.mk i userId token None None expiresAt now ip ua in
        Ok (row, Prisma.set_sessions (sessions db1 ++ [row]) db1)
  end.

(** [prisma.session.update({ where: { id }, data: { accessToken, refreshToken } })] *)
Definition session_set_tokens (id : Id) (access refresh : string) (db : DB) : DB :=
  Prisma.set_sessions
    (map (fun s =>
            if String.eqb (Session.id s) id
            then Session.mk (Session.id s) (Session.userId s) (Session.sessionToken s)
                            (Some access) (Some refresh) (Session.expiresAt s)
                            (Session.createdAt s) (Session.ipAddress s) (Session.userAgent s)
            else s)
         (sessions db))
    db.

(** [createSession]. The throw for a missing user comes after the session
    row is written; [session_create] has just found that user, so the
    branch is never taken. *)
Definition createSession (now : DateTime) (userId : Id) (ip ua : option string) (db : DB)
  : Async (SessionTokens * DB) :=
  (let expiresAt := (now + seven_days)%Z in
   token <- generateSessionToken ;;
   created <- Async.lift (session_create now userId token expiresAt ip ua db) ;;
   let '(session, db1) := created in
   match Prisma.user_findUnique userId db1 with
   | None => Async.throw (JsError "Usuario no encontrado")
   | Some user =>
       let accessToken :=
         jwt_sign ACCESS_TOKEN_EXPIRY (User.id user) (User.email user) (Session.id session) now in
       let refreshToken :=
         jwt_sign REFRESH_TOKEN_EXPIRY (User.id user) (User.email user) (Session.id session) now in
       let db2 := session_set_tokens (Session.id session) accessToken refreshToken db1 in
       Async.ret (mkSessionTokens (Session.id session) accessToken refreshToken, db2)
   end)%async.

(** [prisma.user.update({ where: { id }, data: { lastLoginAt: new Date() } })] *)
Definition user_touch_login (now : DateTime) (id : Id) (db : DB) : DB :=
  Prisma.set_users
    (map (fun u =>
            if String.eqb (User.id u) id
            then User.mk (User.id u) (User.email u) (User.username u) (User.passwordHash u)
                         (User.salt u) (User.publicKey u) (User.encryptedPrivateKey u)
                         (User.isEmailVerified u) (User.isTwoFactorEnabled u)
                         (User.twoFactorSecret u) (User.createdAt u) now (Some now)
            else u)
         (users db))
    db.

Definition login_success (user : User.t) (tokens : SessionTokens) : Response :=
  let fields :=
    [("message", JStr "Login exitoso");
     ("user",
      JObj [("id", JStr (User.id user));
            ("email", JStr (User.email user));
            ("username", JStr (User.username user));
            ("publicKey", JStr (User.publicKey user));
            ("isEmailVerified", JBool (User.isEmailVerified user));
            ("isTwoFactorEnabled", JBool (User.isTwoFactorEnabled user))]);
     ("session",
      JObj [("sessionId", JStr (st_sessionId tokens));
            ("accessToken", JStr (st_accessToken tokens));
            ("refreshToken", JStr (st_refreshToken tokens))]);
     ("cryptoData",
      JObj [("encryptedPrivateKey", JStr (User.encryptedPrivateKey user));
            ("salt", JStr (User.salt user))])] in
  if User.isTwoFactorEnabled user then
    mkResponse 200
      (JObj (("message", JStr "Se requiere verificación de segundo factor")
             :: tl fields ++ [("requires2FA", JBool true)]))
  else mkResponse 200 (JObj fields).

Definition login_POST (now : DateTime) (req : Request) (db : DB) (e : Entropy)
  : (Response * DB) * Entropy :=
  match json req with
  | Throw x => (route_failure now "login_error" None req x db, e)
  | Ok body =>
  match loginSchema_safeParse body with
  | inl issues => ((invalid_data issues, db), e)
  | inr input =>
  match Prisma.user_findUnique_email (li_email input) db with
  | None =>
      ((invalid_credentials,
        logAuditEvent now "login_attempt" None None
                      (JObj [("email", JStr (li_email input));
                             ("reason", JStr "user_not_found")])
                      (clientIP req) (userAgent req) false (Some "Usuario no encontrado") db),
       e)
  | Some user =>
  if negb (verifyPassword (li_password input) (User.passwordHash user))
  then
    ((invalid_credentials,
      logAuditEvent now "login_attempt" (Some (User.id user)) None
                    (JObj [("email", JStr (li_email input));
                           ("reason", JStr "invalid_password")])
                    (clientIP req) (userAgent req) false (Some "Contraseña inválida") db),
     e)
  else
  match createSession now (User.id user) (clientIP req) (userAgent req) db e with
  | (Throw x, e') => (route_failure now "login_error" None req x db, e')
  | (Ok (tokens, db1), e') =>
      let db2 := user_touch_login now (User.id user) db1 in
      let db3 :=
        logAuditEvent now "user_login" (Some (User.id user)) None
                      (JObj [("email", JStr (li_email input));
                             ("sessionId", JStr (st_sessionId tokens))])
                      (clientIP req) (userAgent req) true None db2 in
      ((login_success user tokens, db3), e')
  end
  end end end.

End Login.


(* ================================================================== *)
(** ** A server environment and a scenario to run the routes on *)
(* ================================================================== *)

Module ReferenceServer.

Definition date_2020 : string := "2020-01-01T00:00:00.000Z".
Definition date_2030 : string := "2030-01-01T00:00:00.000Z".

(** An address is a string with an [@] in it. *)
Definition has_at (s : string) : bool :=
  existsb (Ascii.eqb "@"%char) (JsString.chars s).

(** Two instants are known to the parser. *)
Definition datetime (s : string) : option DateTime :=
  if String.eqb s date_2020 then Some 1577836800000%Z
  else if String.eqb s date_2030 then Some 1893456000000%Z
  else None.

Definition env : ServerEnv := {|
  is_email := has_at;
  parse_datetime := datetime;
  bcrypt_compare := fun password hash => String.eqb ("bcrypt:" ++ password) hash;
  jwt_sign := fun expiresIn userId email sessionId iat =>
                ("jwt." ++ expiresIn ++ "." ++ userId ++ "." ++ sessionId)%string
|}.

End ReferenceServer.

(** The scenario of the specification: Alice owns report.pdf and shares it
    with Bob. Keys and ciphertexts come from the reference primitives. *)
Module Scenario.

Definition W : WebCrypto := Reference.crypto.
Definition S : ServerEnv := ReferenceServer.env.

Definition no_key : CryptoKey := mkCryptoKey Secret false AES_GCM [] [].

Definition keys_at (seed : nat) : KeyPair :=
  match fst (@generateRSAKeyPair W seed) with
  | Ok k => k
  | Throw _ => mkKeyPair no_key no_key
  end.

Definition alice_keys : KeyPair := keys_at 0.
Definition bob_keys : KeyPair := keys_at 50.

Definition pem_of (k : KeyPair) : string :=
  match exportPublicKeyToPEM (publicKey k) with
  | Ok pem => pem
  | Throw _ => ""
  end.

(** "hello world" *)
Definition hello : ArrayBuffer :=
  list_byte_of_string "hello world".

Definition report_encrypted : EncryptedFile :=
  match fst (@encryptFile W hello (publicKey alice_keys) 100) with
  | Ok ef => ef
  | Throw _ => mkEncryptedFile [] [] [] [] ""
  end.

(** The same record with its checksum overwritten. *)
Definition report_tampered : EncryptedFile :=
  mkEncryptedFile (ef_encryptedData report_encrypted) (ef_encryptedKey report_encrypted)
                  (ef_iv report_encrypted) (ef_authTag report_encrypted)
                  "corrupted-checksum".

(** The transport form of a record, as the download route serves it. *)
Definition transport (ef : EncryptedFile) : EncryptedFileData :=
  mkEncryptedFileData (arrayBufferToBase64 (ef_encryptedData ef))
                      (arrayBufferToBase64 (ef_encryptedKey ef))
                      (arrayBufferToBase64 (ef_iv ef))
                      (arrayBufferToBase64 (ef_authTag ef))
                      (ef_checksum ef) None.

Definition no_metadata : ArrayBuffer -> result FileMetadata :=
  fun _ => Throw (JsError "Unexpected end of JSON input").

Definition now : DateTime := 1750000000000%Z.

Definition alice : User.t :=
  User.mk "u-alice" "alice@example.com" "alice" "bcrypt:correct-horse" "c2FsdA=="
          (pem_of alice_keys) "" true false None 0%Z 0%Z None.

Definition bob : User.t :=
  User.mk "u-bob" "bob@example.com" "bob" "bcrypt:battery-staple" "c2FsdA=="
          (pem_of bob_keys) "" true false None 0%Z 0%Z None.

Definition report : File.t :=
  File.mk "f-report" "report.pdf" None "application/pdf" 11 11
          (ef_encryptedData report_encrypted)
          (arrayBufferToBase64 (ef_encryptedKey report_encrypted))
          (arrayBufferToBase64 (ef_iv report_encrypted))
          (arrayBufferToBase64 (ef_authTag report_encrypted))
          (ef_checksum report_encrypted)
          "u-alice" false None 0%Z 0%Z None.

Definition db0 : DB := mkDB [alice; bob] [] [report] [] [] 0.

Definition as_user (u : User.t) (body : Json) : Request :=
  mkRequest (Some (mkAuthUser (User.id u) (User.email u) (User.username u) (User.publicKey u)))
            (Some "203.0.113.7") (Some "test-agent") (Ok body).

Definition share_body (permissions : list string) (expiresAt : option string) : Json :=
  JObj ([("userEmail", JStr "bob@example.com");
         ("permissions", JArr (map JStr permissions))]
        ++ match expiresAt with
           | Some s => [("expiresAt", JStr s)]
           | None => []
           end).

(** Alice shares with Bob: read and download, no expiry. *)
Definition first_share : Response * DB :=
  @share_POST W S now (as_user alice (share_body ["read"; "download"] None)) "f-report" db0.

Definition db1 : DB := snd first_share.

Definition no_share : FileShare.t :=
  FileShare.mk "" "" "" "" "" "" None true None None 0%Z 0%Z.

(** Bob's share of the report in a database. *)
Definition bob_share (db : DB) : FileShare.t :=
  match Prisma.fileShare_findUnique "f-report" "u-bob" db with
  | Some share => share
  | None => no_share
  end.

(** Alice shares again while the first grant is active. *)
Definition second_share : Response * DB :=
  @share_POST W S (now + 1000)%Z
              (as_user alice (share_body ["share"] (Some ReferenceServer.date_2030)))
              "f-report" db1.

Definition db2 : DB := snd second_share.

(** A grant of download alone, and one that expired in 2020. *)
Definition db_download_only : DB :=
  snd (@share_POST W S now (as_user alice (share_body ["download"] None)) "f-report" db0).

Definition db_expired : DB :=
  snd (@share_POST W S now
         (as_user alice (share_body ["read"] (Some ReferenceServer.date_2020)))
         "f-report" db0).

(** Alice deletes the file after the first share. *)
Definition deletion : Response * DB :=
  file_DELETE (now + 2000)%Z (as_user alice JNull) "f-report" db1.

Definition login_body (email password : string) : Json :=
  JObj [("email", JStr email); ("password", JStr password)].

Definition anonymous (body : Json) : Request :=
  mkRequest None (Some "203.0.113.7") (Some "test-agent") (Ok body).

End Scenario.


(* ================================================================== *)
(** ** Predicates the properties are stated with *)
(* ================================================================== *)

(** The decoding and decryption steps that [processFileForDownload] and
    [validateFileIntegrity] both start with. *)
Definition decrypt_record `{WebCrypto} (ef : EncryptedFileData) (privateKey : CryptoKey)
  : result ArrayBuffer :=
  (a1 <- base64ToArrayBuffer (encryptedData ef) ;;
   a2 <- base64ToArrayBuffer (encryptedKey ef) ;;
   a3 <- base64ToArrayBuffer (iv ef) ;;
   a4 <- base64ToArrayBuffer (authTag ef) ;;
   decryptFile a1 a2 a3 a4 privateKey)%res.

(** The record's four buffers decode, the key unwraps under [privateKey]
    and AES-GCM decryption under that key gives [plain]. *)
Definition decrypts_to `{WebCrypto} (ef : EncryptedFileData) (privateKey : CryptoKey)
           (plain : ArrayBuffer) : Prop :=
  exists d k i t aesKey,
    base64ToArrayBuffer (encryptedData ef) = Ok d
    /\ base64ToArrayBuffer (encryptedKey ef) = Ok k
    /\ base64ToArrayBuffer (iv ef) = Ok i
    /\ base64ToArrayBuffer (authTag ef) = Ok t
    /\ decryptKeyWithRSA k privateKey = Ok aesKey
    /\ decryptWithAES d aesKey i t = Ok plain.

(** [decryptFile] hands back only plaintext whose digest is the record's. *)
Definition decryptFile_checks_digest `{WebCrypto} (ef : EncryptedFile)
           (privateKey : CryptoKey) : Prop :=
  forall plain,
    decryptFile (ef_encryptedData ef) (ef_encryptedKey ef) (ef_iv ef) (ef_authTag ef)
                privateKey = Ok plain ->
    calculateFileHash plain = ef_checksum ef.

(** The share's key unwraps, under the recipient's private key, to the key
    that the file's own wrapped key unwraps to under the owner's. *)
Definition share_key_matches_file_key `{WebCrypto} (file : File.t) (share : FileShare.t)
           (ownerPrivateKey recipientPrivateKey : CryptoKey) : Prop :=
  exists wo wr ko kr,
    base64ToArrayBuffer (File.encryptedKey file) = Ok wo
    /\ decryptKeyWithRSA wo ownerPrivateKey = Ok ko
    /\ base64ToArrayBuffer (FileShare.encryptedKey share) = Ok wr
    /\ decryptKeyWithRSA wr recipientPrivateKey = Ok kr
    /\ key_data kr = key_data ko.

(** The download route hands the share's key to the recipient. *)
Definition download_serves_share_key (now : DateTime) (req : Request) (fileId : Id)
           (db : DB) (share : FileShare.t) : Prop :=
  exists fields,
    fst (download_GET now req fileId db) = mkResponse 200 (JObj fields)
    /\ lookup "encryptedKey" fields = Some (JStr (FileShare.encryptedKey share)).

(** Whether the share grants the entry [p]. *)
Definition granted (share : FileShare.t) (p : string) : bool :=
  JsString.includes (userPermissions share) p.

(** The name under which a required permission would be granted. *)
Definition permission_name (permission : Permission) : string :=
  match permission with
  | PermRead => "read"
  | PermWrite => "write"
  | PermShare => "share"
  | PermDelete => "delete"
  end.

(** The row [s'] is the row [s] marked as revoked at [now] by [by_]: the
    same record in every other column. *)
Definition marked_revoked (now : DateTime) (by_ : Id) (s s' : FileShare.t) : Prop :=
  FileShare.id s' = FileShare.id s
  /\ FileShare.fileId s' = FileShare.fileId s
  /\ FileShare.sharedWithId s' = FileShare.sharedWithId s
  /\ FileShare.sharedById s' = FileShare.sharedById s
  /\ FileShare.encryptedKey s' = FileShare.encryptedKey s
  /\ FileShare.permissions s' = FileShare.permissions s
  /\ FileShare.expiresAt s' = FileShare.expiresAt s
  /\ FileShare.isRevoked s' = true
  /\ FileShare.revokedAt s' = Some now
  /\ FileShare.revokedBy s' = Some by_.

(** At most one share row per (file, recipient). *)
Definition one_share_per_pair (db : DB) : Prop :=
  NoDup (map FileShare.pair (fileShares db)).

(** Row identifiers are distinct and were drawn below the counter. *)
Definition share_ids_fresh (db : DB) : Prop :=
  NoDup (map FileShare.id (fileShares db))
  /\ forall n, cuid_counter db <= n -> ~ In (cuid n) (map FileShare.id (fileShares db)).

Definition shares_wf (db : DB) : Prop := one_share_per_pair db /\ share_ids_fresh db.

(** The share on record for the pair carries the permissions and the expiry
    of a call. *)
Definition share_reflects (db : DB) (fileId recipient : Id) (permissions : list string)
           (expiresAt : option DateTime) : Prop :=
  exists share,
    Prisma.fileShare_findUnique fileId recipient db = Some share
    /\ userPermissions share = permissions
    /\ FileShare.expiresAt share = expiresAt.

(** A row written from the data [d]. *)
Definition written_from (d : Prisma.ShareData) (r : FileShare.t) : Prop :=
  FileShare.fileId r = Prisma.sd_fileId d
  /\ FileShare.sharedWithId r = Prisma.sd_sharedWithId d
  /\ FileShare.sharedById r = Prisma.sd_sharedById d
  /\ FileShare.encryptedKey r = Prisma.sd_encryptedKey d
  /\ FileShare.permissions r = Prisma.sd_permissions d
  /\ FileShare.expiresAt r = Prisma.sd_expiresAt d
  /\ FileShare.isRevoked r = false
  /\ FileShare.revokedAt r = None
  /\ FileShare.revokedBy r = None.

(** The row-wise function of [Prisma.fileShare_update]. *)
Definition update_row (now : DateTime) (d : Prisma.ShareData) (i : Id) (s : FileShare.t)
  : FileShare.t :=
  if String.eqb (FileShare.id s) i then Prisma.apply_ShareData now d s else s.

Definition conflict_response : Response :=
  mkResponse 409 (error_body "El archivo ya está compartido con este usuario").

(** The row contents the share route writes for a call. *)
Definition share_data (fileId : Id) (user : AuthUser) (input : ShareInput)
           (file : File.t) (target : User.t) : Prisma.ShareData :=
  Prisma.mkShareData fileId (User.id target) (au_id user)
                     (demo_marker ++ File.encryptedKey file)%string
                     (JsString.join "," (si_permissions input)) (si_expiresAt input).

(** A share call that passes every check before the look-up of an existing
    share: authenticated owner, well-formed body, live file, a recipient
    other than the caller. *)
Definition share_call_valid `{ServerEnv} (req : Request) (fileId : Id) (db : DB)
           (user : AuthUser) (input : ShareInput) (file : File.t) (target : User.t) : Prop :=
  auth req = Some user
  /\ (exists body, json req = Ok body /\ shareSchema_safeParse body = inr input)
  /\ validateSharePermissions (si_permissions input) = true
  /\ Prisma.file_findUnique fileId db = Some file
  /\ File.ownerId file = au_id user
  /\ File.isDeleted file = false
  /\ Prisma.user_findUnique_email (si_userEmail input) db = Some target
  /\ User.id target <> au_id user.

(** The digits of a base64 encoding, without the padding, and the padding
    that follows them. *)
Module Base64Digits.
Import Base64.

Fixpoint sextets (l : list N) : list N :=
  match l with
  | a :: b :: c :: rest =>
      (a / 4) :: ((a mod 4) * 16 + b / 16) :: ((b mod 16) * 4 + c / 64) :: (c mod 64)
      :: sextets rest
  | [a; b] => [a / 4; (a mod 4) * 16 + b / 16; (b mod 16) * 4]
  | [a] => [a / 4; (a mod 4) * 16]
  | [] => []
  end%N.

Definition padding (l : list N) : list ascii :=
  match (List.length l mod 3)%nat with
  | 1%nat => [pad; pad]
  | 2%nat => [pad]
  | _ => []
  end.

(** A digit decodes to its value, is not the padding character and is not
    white space. *)
Definition digit_ok (n : N) : bool :=
  match value (digit n) with
  | Some v => (v =? n)%N
  | None => false
  end
  && negb (Ascii.eqb (digit n) pad)
  && negb (is_ascii_whitespace (digit n)).

Definition octets (l : list N) : Prop := Forall (fun n => (n < 256)%N) l.
Definition small (l : list N) : Prop := Forall (fun n => (n < 64)%N) l.
End Base64Digits.

(** The route run over a list of calls, each with its time, request and
    file. *)
Fixpoint share_calls `{WebCrypto} `{ServerEnv} (calls : list (DateTime * Request * Id))
         (db : DB) : DB :=
  match calls with
  | [] => db
  | (now, req, fileId) :: rest => share_calls rest (snd (share_POST now req fileId db))
  end.


(* ================================================================== *)
(** ** src/lib/crypto.ts: the master key and the stored private key *)
(* ================================================================== *)

(** [new TextEncoder().encode(s)]: UTF-8. A code unit below 128 is one
    byte, one from 128 to 255 is two. *)
Module TextEncoder.

Definition byte_of_N (n : N) : byte :=
  match Byte.of_N n with
  | Some b => b
  | None => x00
  end.

Definition encode_unit (c : ascii) : list byte :=
  let n := JsString.code c in
  if (n <? 128)%N then [byte_of_N n]
  else [byte_of_N (192 + n / 64); byte_of_N (128 + n mod 64)].

Definition encode (s : string) : list byte :=
  flat_map encode_unit (JsString.chars s).

End TextEncoder.

(** PBKDF2 with HMAC-SHA-256: [pbkdf2 password salt iterations length]
    gives [length] bits. *)
Class KeyDerivation : Type := {
  pbkdf2 : list byte -> list byte -> N -> N -> list byte
}.

Class KeyDerivationLaws (K : KeyDerivation) : Prop := {
  pbkdf2_length :
    forall password salt iterations length,
      List.length (pbkdf2 password salt iterations length) = N.to_nat (length / 8)
}.

Definition PBKDF2_iterations : N := 100000.
Definition PBKDF2_length : N := 256.

Section KeyStorage.
Context `{WebCrypto} `{KeyDerivation}.

(** [generateSalt] *)
Definition generateSalt : Async (list byte) := Async.random 32.

(** [deriveKeyFromPassword]. The import of the password as a PBKDF2 base
    key ([extractable = false], usage [deriveKey]) succeeds for every
    password; [deriveKey] derives 256 bits and imports them as a raw
    AES-GCM key with the [extractable] flag and the usages it was given. *)
Definition deriveKeyFromPassword (password : string) (salt : list byte) : result CryptoKey :=
  let passwordBuffer := TextEncoder.encode password in
  let secret := pbkdf2 passwordBuffer salt PBKDF2_iterations PBKDF2_length in
  Subtle.importKey Raw secret AES_GCM false [Encrypt; Decrypt].

(** [encryptPrivateKey]: the private key is exported as PKCS#8 and
    encrypted under the master key. *)
Definition encryptPrivateKey (privateKey masterKey : CryptoKey) : Async EncryptedData :=
  (keyData <- Async.lift (Subtle.exportKey Pkcs8 privateKey) ;;
   encryptWithAES keyData masterKey)%async.

(** [decryptPrivateKey]: the decrypted bytes are imported as an RSA-OAEP
    private key with [extractable = false] and the usage [decrypt]. *)
Definition decryptPrivateKey (encryptedData : ArrayBuffer) (masterKey : CryptoKey)
           (iv authTag : ArrayBuffer) : result CryptoKey :=
  (keyData <- decryptWithAES encryptedData masterKey iv authTag ;;
   Subtle.importKey Pkcs8 keyData RSA_OAEP false [Decrypt])%res.

End KeyStorage.

(** The private key as [register] sends it and [login] receives it back:
    three buffers in base64. *)
Record StoredPrivateKey : Type := mkStoredPrivateKey {
  spk_encryptedData : string;
  spk_iv : string;
  spk_authTag : string
}.

(* ================================================================== *)
(** ** src/lib/share-crypto.ts: shareFileE2EE *)
(* ================================================================== *)

Record ReEncryptRequest : Type := mkReEncryptRequest {
  rr_fileId : string;
  rr_encryptedFileKey : string;
  rr_ownerPrivateKeyData : string;
  rr_targetUserEmail : string;
  rr_permissions : list string;
  rr_expiresAt : option string
}.

Definition shareFileE2EE_failure : exn := JsError "Error procesando el cifrado E2EE".

Section ShareFileE2EE.
Context `{WebCrypto}.

(** [shareFileE2EE]: the owner's private key is imported from its base64
    PKCS#8 form, then [reEncryptFileKey]; every failure is replaced by the
    same [Error]. *)
Definition shareFileE2EE (request : ReEncryptRequest) (targetPublicKeyPEM : string)
  : Async string :=
  Async.try_catch
    (ownerPrivateKey <-
       Async.lift (keyData <- base64ToArrayBuffer (rr_ownerPrivateKeyData request) ;;
                   Subtle.importKey Pkcs8 keyData RSA_OAEP false [Decrypt])%res ;;
     reEncryptFileKey (rr_encryptedFileKey request) ownerPrivateKey targetPublicKeyPEM)%async
    (fun _ => Async.throw shareFileE2EE_failure).

End ShareFileE2EE.

(* ================================================================== *)
(** ** src/lib/crypto-utils.ts: upload processing and the small utilities *)
(* ================================================================== *)

(** A [File] of the browser: name, type and content; [file.size] is the
    length of the content. *)
Record JsFile : Type := mkJsFile {
  file_name : string;
  file_type : string;
  file_bytes : ArrayBuffer
}.

Section Upload.
Context `{WebCrypto}.

(** [new TextEncoder().encode(JSON.stringify(metadata))] *)
Variable serializeMetadata : FileMetadata -> ArrayBuffer.

Local Open Scope async_scope.

(** [encryptMetadata]. The result is the JSON text of an object with four
    base64 strings; its callers parse that text back at once, so the
    object itself is returned here. *)
Definition encryptMetadata (metadata : FileMetadata) (publicKey : CryptoKey)
  : Async EncryptedMetadata :=
  let metadataBuffer := serializeMetadata metadata in
  encrypted <- encryptFile metadataBuffer publicKey ;;
  Async.ret (mkEncryptedMetadata (arrayBufferToBase64 (ef_encryptedData encrypted))
                                 (arrayBufferToBase64 (ef_encryptedKey encrypted))
                                 (arrayBufferToBase64 (ef_iv encrypted))
                                 (arrayBufferToBase64 (ef_authTag encrypted))).

(** [processFileForUpload]; [now] is the value of [new Date()]. *)
Definition processFileForUpload (file : JsFile) (publicKey : CryptoKey)
           (description : option string) (tags : option (list string)) (now : Z)
  : Async (EncryptedFileData * FileMetadata) :=
  let fileBuffer := file_bytes file in
  let metadata :=
    mkFileMetadata (file_name file) (file_type file) (List.length fileBuffer) now description tags in
  encrypted <- encryptFile fileBuffer publicKey ;;
  encryptedMetadata <- encryptMetadata metadata publicKey ;;
  let encryptedFile :=
    mkEncryptedFileData (arrayBufferToBase64 (ef_encryptedData encrypted))
                        (arrayBufferToBase64 (ef_encryptedKey encrypted))
                        (arrayBufferToBase64 (ef_iv encrypted))
                        (arrayBufferToBase64 (ef_authTag encrypted))
                        (ef_checksum encrypted)
                        (Some encryptedMetadata) in
  Async.ret (encryptedFile, metadata).

(** [generateFileId]: 16 random bytes in hexadecimal. *)
Definition generateFileId : Async string :=
  bytes <- Async.random 16 ;; Async.ret (Hex.of_bytes bytes).

End Upload.

(** [estimateEncryptionTime]: [Math.ceil(fileSize / (1024 * 1024) / 1)].
    A size is a whole number of bytes below 2^53, for which the division
    by a power of two is exact. *)
Definition estimateEncryptionTime (fileSize : N) : N :=
  let mbPerSecond := 1%N in
  let megabyte := (1024 * 1024)%N in
  ((fileSize + (megabyte * mbPerSecond - 1)) / (megabyte * mbPerSecond))%N.

(** More of [String.prototype]. *)
Module JsStringExt.

(** [s.lastIndexOf(c)]; [None] stands for -1. *)
Fixpoint lastIndexOf (c : ascii) (s : string) : option nat :=
  match s with
  | EmptyString => None
  | String d s' =>
      match lastIndexOf c s' with
      | Some i => Some (S i)
      | None => if Ascii.eqb d c then Some 0 else None
      end
  end.

(** [s.substring(i)] *)
Definition substring_from (i : nat) (s : string) : string :=
  substring i (String.length s - i) s.

(** Lower case of one code unit below 256: the letters A-Z and the
    capital letters of Latin-1 (192..222 without the multiplication sign)
    move up by 32. *)
Definition lower (c : ascii) : ascii :=
  let n := JsString.code c in
  if ((65 <=? n) && (n <=? 90))%N
     || ((192 <=? n) && (n <=? 222) && negb (n =? 215))%N
  then ascii_of_N (n + 32)
  else c.

(** [s.toLowerCase()] *)
Fixpoint toLowerCase (s : string) : string :=
  match s with
  | EmptyString => EmptyString
  | String c s' => String (lower c) (toLowerCase s')
  end.

(** [s.endsWith(suffix)] *)
Definition endsWith (suffix s : string) : bool :=
  (String.length suffix <=? String.length s)%nat
  && String.eqb (substring_from (String.length s - String.length suffix) s) suffix.

End JsStringExt.

(** [preserveFileExtension] *)
Definition preserveFileExtension (originalName baseName : string) : string :=
  match JsStringExt.lastIndexOf "."%char originalName with
  | Some lastDotIndex =>
      if (0 <? lastDotIndex)%nat && (lastDotIndex + 1 <? String.length originalName)%nat
      then
        let extension := JsStringExt.substring_from lastDotIndex originalName in
        if negb (JsStringExt.endsWith (JsStringExt.toLowerCase extension)
                                    (JsStringExt.toLowerCase baseName))
        then (baseName ++ extension)%string
        else baseName
      else baseName
  | None => baseName
  end.

(* ================================================================== *)
(** ** src/lib/auth.ts: the client address and the sessions *)
(* ================================================================== *)

(** The headers the server reads; [None] is the [null] of
    [headers.get]. *)
Record Headers : Type := mkHeaders {
  authorization : option string;
  x_forwarded_for : option string;
  x_real_ip : option string;
  cf_connecting_ip : option string;
  user_agent : option string
}.

(** A header that is present and not the empty string. *)
Definition truthy (value : option string) : option string :=
  match value with
  | Some s => if String.eqb s "" then None else Some s
  | None => None
  end.

(** [getClientIP] *)
Definition getClientIP (headers : Headers) : option string :=
  let forwarded := x_forwarded_for headers in
  let realIP := x_real_ip headers in
  let cfConnectingIP := cf_connecting_ip headers in
  match truthy forwarded with
  | Some f => Some (JsString.trim (hd "" (JsString.split ","%char f)))
  | None =>
      match truthy realIP with
      | Some r => Some r
      | None =>
          match truthy cfConnectingIP with
          | Some c => Some c
          | None => None
          end
      end
  end.

Module Auth.

(** The [AuthUser] of auth.ts: the six selected columns of a user. *)
Record AuthUser : Type := mkAuthUser {
  id : Id;
  email : string;
  username : string;
  publicKey : string;
  isEmailVerified : bool;
  isTwoFactorEnabled : bool
}.

Record JWTPayload : Type := mkJWTPayload {
  userId : Id;
  payload_email : string;
  sessionId : Id
}.

Record SessionData : Type := mkSessionData {
  user : AuthUser;
  sd_sessionId : Id;
  expiresAt : DateTime
}.

(** The [select] of the user columns. *)
Definition select_user (u : User.t) : AuthUser :=
  mkAuthUser (User.id u) (User.email u) (User.username u) (User.publicKey u)
             (User.isEmailVerified u) (User.isTwoFactorEnabled u).

End Auth.

(** [verifyToken]: the payload of a token that [jwt.verify] accepts at the
    given time, [None] for [null]. *)
Class TokenVerifier : Type := {
  verifyToken : string -> DateTime -> option Auth.JWTPayload
}.

Module PrismaSession.

(** [prisma.session.findUnique({ where: { id } })] *)
Definition findUnique (id : Id) (db : DB) : option Session.t :=
  find (fun s => String.eqb (Session.id s) id) (sessions db).

(** [prisma.session.delete({ where: { id } })]: fails when no row has
    the id. *)
Definition delete (id : Id) (db : DB) : result DB :=
  match findUnique id db with
  | None => Throw (prisma_error "P2025")
  | Some _ =>
      Ok (Prisma.set_sessions
            (filter (fun s => negb (String.eqb (Session.id s) id)) (sessions db)) db)
  end.

(** [prisma.session.deleteMany({ where: { userId } })] *)
Definition deleteMany (userId : Id) (db : DB) : DB :=
  Prisma.set_sessions
    (filter (fun s => negb (String.eqb (Session.userId s) userId)) (sessions db)) db.

End PrismaSession.

(** [validateSession]; [now] is the value of [new Date()]. A session whose
    user row is missing makes the query fail, and the [catch] returns
    [null]. *)
Definition validateSession (now : DateTime) (sessionId : Id) (db : DB)
  : option Auth.SessionData :=
  match PrismaSession.findUnique sessionId db with
  | None => None
  | Some session =>
      match Prisma.user_findUnique (Session.userId session) db with
      | None => None
      | Some u =>
          if (Session.expiresAt session <? now)%Z then None
          else Some (Auth.mkSessionData (Auth.select_user u) (Session.id session)
                                        (Session.expiresAt session))
      end
  end.

(** [revokeSession] *)
Definition revokeSession (sessionId : Id) (db : DB) : result DB :=
  PrismaSession.delete sessionId db.

(** [revokeAllUserSessions] *)
Definition revokeAllUserSessions (userId : Id) (db : DB) : DB :=
  PrismaSession.deleteMany userId db.

Section Authentication.
Context `{TokenVerifier}.

(** [getAuthenticatedUser] *)
Definition getAuthenticatedUser (now : DateTime) (headers : Headers) (db : DB)
  : option Auth.AuthUser :=
  match authorization headers with
  | None => None
  | Some authHeader =>
      if negb (JsString.startsWith "Bearer " authHeader) then None
      else
        let token := JsStringExt.substring_from 7 authHeader in
        match verifyToken token now with
        | None => None
        | Some payload =>
            match validateSession now (Auth.sessionId payload) db with
            | None => None
            | Some sessionData => Some (Auth.user sessionData)
            end
        end
  end.

End Authentication.


(* ================================================================== *)
(** ** More API routes *)
(* ================================================================== *)

(** [Buffer.from(s, 'base64')] of Node. *)
Class NodeBuffer : Type := {
  Buffer_from_base64 : string -> list byte
}.

Module PrismaExt.

Definition with_key (now : DateTime) (key : string) (s : FileShare.t) : FileShare.t :=
  FileShare.mk (FileShare.id s) (FileShare.fileId s) (FileShare.sharedWithId s)
               (FileShare.sharedById s) key (FileShare.permissions s)
               (FileShare.expiresAt s) (FileShare.isRevoked s) (FileShare.revokedAt s)
               (FileShare.revokedBy s) (FileShare.createdAt s) now.

(** [prisma.fileShare.update({ where: { id }, data: { encryptedKey } })] *)
Definition fileShare_setKey (now : DateTime) (id : Id) (key : string) (db : DB) : result DB :=
  match Prisma.fileShare_findUnique_id id db with
  | None => Throw (prisma_error "P2025")
  | Some _ =>
      Ok (Prisma.set_fileShares
            (map (fun s => if String.eqb (FileShare.id s) id then with_key now key s else s)
                 (fileShares db))
            db)
  end.

Definition with_metadata (now : DateTime) (encryptedMetadata : option string) (f : File.t)
  : File.t :=
  File.mk (File.id f) (File.filename f) (File.encryptedFilename f) (File.mimeType f)
          (File.size f) (File.encryptedSize f) (File.encryptedData f) (File.encryptedKey f)
          (File.iv f) (File.authTag f) (File.checksum f) (File.ownerId f)
          (File.isDeleted f) (File.deletedAt f) (File.createdAt f) now
          (match encryptedMetadata with
           | Some m => Some m
           | None => File.encryptedMetadata f
           end).

(** [prisma.file.update({ where: { id },
      data: { encryptedMetadata, updatedAt: new Date() } })]: a field that
    is [undefined] in [data] is left as it is. *)
Definition file_setMetadata (now : DateTime) (id : Id) (encryptedMetadata : option string)
           (db : DB) : result (File.t * DB) :=
  match Prisma.file_findUnique id db with
  | None => Throw (prisma_error "P2025")
  | Some old =>
      Ok (with_metadata now encryptedMetadata old,
          Prisma.set_files
            (map (fun f => if String.eqb (File.id f) id
                           then with_metadata now encryptedMetadata f else f)
                 (files db))
            db)
  end.

End PrismaExt.

(* ------------------------------------------------------------------ *)
(** *** POST /api/files/[id]/reencrypt-share *)
(* ------------------------------------------------------------------ *)

Record ReEncryptInput : Type := mkReEncryptInput {
  ri_shareId : string;
  ri_ownerPrivateKeyData : string;
  ri_targetUserEmail : string
}.

(** [z.string().min(1, message)] on a field of the body. *)
Definition required_string (key message : string) (fields : list (string * Json))
  : list string + string :=
  match lookup key fields with
  | Some (JStr s) => if String.eqb s "" then inl [message] else inr s
  | Some _ => inl ["Expected string"]
  | None => inl ["Required"]
  end.

Definition issues_of {A} (r : list string + A) : list string :=
  match r with
  | inl i => i
  | inr _ => []
  end.

Section MoreRoutes.
Context `{WebCrypto} `{ServerEnv} `{NodeBuffer}.

(** [reEncryptSchema.safeParse(body)] *)
Definition reEncryptSchema_safeParse (body : Json) : list string + ReEncryptInput :=
  match body with
  | JObj fields =>
      let shareId := required_string "shareId" "ID de compartición requerido" fields in
      let keyData :=
        required_string "ownerPrivateKeyData" "Clave privada del propietario requerida"
                        fields in
      let email :=
        match lookup "targetUserEmail" fields with
        | Some (JStr s) =>
            if is_email s then inr s else inl ["Email del destinatario requerido"]
        | Some _ => inl ["Expected string"]
        | None => inl ["Required"]
        end in
      match shareId, keyData, email with
      | inr i, inr k, inr e => inr (mkReEncryptInput i k e)
      | _, _, _ => inl (issues_of shareId ++ issues_of keyData ++ issues_of email)
      end
  | _ => inl ["Expected object"]
  end.

(** The inner [try] block of the route. *)
Definition reencrypt_write (now : DateTime) (req : Request) (fileId : Id) (user : AuthUser)
           (input : ReEncryptInput) (file : File.t) (sharedWith : User.t) (db : DB)
  : Async (Response * DB) :=
  (let originalEncryptedKey :=
     if JsString.startsWith "DEMO_" (File.encryptedKey file)
     then JsStringExt.substring_from 5 (File.encryptedKey file)
     else File.encryptedKey file in
   ownerPrivateKey <-
     Async.lift (Subtle.importKey Pkcs8 (Buffer_from_base64 (ri_ownerPrivateKeyData input))
                                  RSA_OAEP false [Decrypt]) ;;
   reEncryptedKey <-
     reEncryptFileKey originalEncryptedKey ownerPrivateKey (User.publicKey sharedWith) ;;
   db1 <- Async.lift (PrismaExt.fileShare_setKey now (ri_shareId input) reEncryptedKey db) ;;
   let db2 :=
     logAuditEvent now "file_reencrypt_share" (Some (au_id user)) (Some fileId)
                   (JObj [("filename", JStr (File.filename file));
                          ("targetEmail", JStr (ri_targetUserEmail input));
                          ("shareId", JStr (ri_shareId input))])
                   (clientIP req) (userAgent req) true None db1 in
   Async.ret
     (mkResponse 200
        (JObj [("message",
                JStr "Clave re-cifrada exitosamente. El destinatario ya puede descargar el archivo.");
               ("shareId", JStr (ri_shareId input))]),
      db2))%async.

Definition reencrypt_POST (now : DateTime) (req : Request) (fileId : Id) (db : DB)
           (e : Entropy) : (Response * DB) * Entropy :=
  let failure x := (route_failure now "file_reencrypt_share_error" (Some fileId) req x db, e) in
  match auth req with
  | None => failure unauthorized
  | Some user =>
  match json req with
  | Throw x => failure x
  | Ok body =>
  match reEncryptSchema_safeParse body with
  | inl issues => ((invalid_data issues, db), e)
  | inr input =>
  match Prisma.file_findUnique fileId db with
  | None => ((mkResponse 404 (error_body "Archivo no encontrado"), db), e)
  | Some file =>
  if negb (String.eqb (File.ownerId file) (au_id user))
  then ((mkResponse 403 (error_body "Solo el propietario puede re-cifrar claves"), db), e)
  else if File.isDeleted file
  then ((mkResponse 410 (error_body "No se puede re-cifrar un archivo eliminado"), db), e)
  else
  match Prisma.fileShare_findUnique_id (ri_shareId input) db with
  | None => ((mkResponse 404 (error_body "Compartición no encontrada"), db), e)
  | Some share =>
  match Prisma.user_findUnique (FileShare.sharedWithId share) db with
  | None => failure (prisma_error "Inconsistent query result")
  | Some sharedWith =>
  if negb (String.eqb (FileShare.fileId share) fileId)
  then ((mkResponse 400 (error_body "La compartición no corresponde al archivo"), db), e)
  else if negb (String.eqb (User.email sharedWith) (ri_targetUserEmail input))
  then ((mkResponse 400 (error_body "Email del destinatario no coincide"), db), e)
  else
  match reencrypt_write now req fileId user input file sharedWith db e with
  | (Ok out, e') => (out, e')
  | (Throw _, e') =>
      ((mkResponse 500 (error_body "Error procesando el re-cifrado E2EE"), db), e')
  end
  end end end end end end.

(* ------------------------------------------------------------------ *)
(** *** GET and PUT /api/files/[id] *)
(* ------------------------------------------------------------------ *)

Definition file_info (file : File.t) (owner : User.t) (isOwner : bool)
           (shareInfo : option FileShare.t) : Json :=
  JObj [("id", JStr (File.id file));
        ("filename", JStr (File.filename file));
        ("mimeType", JStr (File.mimeType file));
        ("size", JNum (File.size file));
        ("checksum", JStr (File.checksum file));
        ("createdAt", JDate (File.createdAt file));
        ("updatedAt", JDate (File.updatedAt file));
        ("encryptedMetadata", JOpt JStr (File.encryptedMetadata file));
        ("isOwner", JBool isOwner);
        ("owner", JObj [("username", JStr (User.username owner));
                        ("email", JStr (User.email owner))]);
        ("shareInfo",
         JOpt (fun share =>
                 JObj [("permissions", JStr (FileShare.permissions share));
                       ("createdAt", JDate (FileShare.createdAt share));
                       ("expiresAt", JOpt JDate (FileShare.expiresAt share))])
              shareInfo)].

(** The GET handler writes no audit entry, not even in its [catch]. *)
Definition file_GET (now : DateTime) (req : Request) (fileId : Id) (db : DB) : Response :=
  match auth req with
  | None => internal_error
  | Some user =>
  if negb (validateFilePermission now fileId (au_id user) PermRead db)
  then mkResponse 403 (error_body "No tienes permisos para acceder a este archivo")
  else
  match Prisma.file_findUnique fileId db with
  | None => mkResponse 404 (error_body "Archivo no encontrado")
  | Some file =>
  match Prisma.user_findUnique (File.ownerId file) db with
  | None => internal_error
  | Some owner =>
  if File.isDeleted file
  then mkResponse 404 (error_body "Archivo no encontrado")
  else
    let isOwner := String.eqb (File.ownerId file) (au_id user) in
    let shareInfo :=
      if negb isOwner then Prisma.fileShare_findUnique fileId (au_id user) db else None in
    mkResponse 200 (file_info file owner isOwner shareInfo)
  end end end.

(** [updateMetadataSchema.safeParse(body)] *)
Definition updateMetadataSchema_safeParse (body : Json) : list string + option string :=
  match body with
  | JObj fields =>
      match lookup "encryptedMetadata" fields with
      | None => inr None
      | Some (JStr s) => inr (Some s)
      | Some _ => inl ["Expected string"]
      end
  | _ => inl ["Expected object"]
  end.

Definition file_PUT (now : DateTime) (req : Request) (fileId : Id) (db : DB)
  : Response * DB :=
  match auth req with
  | None => route_failure now "file_update_error" (Some fileId) req unauthorized db
  | Some user =>
  if negb (validateFilePermission now fileId (au_id user) PermWrite db)
  then (mkResponse 403 (error_body "No tienes permisos para modificar este archivo"), db)
  else
  match json req with
  | Throw x => route_failure now "file_update_error" (Some fileId) req x db
  | Ok body =>
  match updateMetadataSchema_safeParse body with
  | inl issues => (invalid_data issues, db)
  | inr encryptedMetadata =>
  match PrismaExt.file_setMetadata now fileId encryptedMetadata db with
  | Throw x => route_failure now "file_update_error" (Some fileId) req x db
  | Ok (updatedFile, db1) =>
      (mkResponse 200
         (JObj [("message", JStr "Archivo actualizado exitosamente");
                ("file", JObj [("id", JStr (File.id updatedFile));
                               ("filename", JStr (File.filename updatedFile));
                               ("updatedAt", JDate (File.updatedAt updatedFile))])]),
       logAuditEvent now "file_update" (Some (au_id user)) (Some fileId)
                     (JObj [("filename", JStr (File.filename updatedFile))])
                     (clientIP req) (userAgent req) true None db1)
  end
  end end end.

(* ------------------------------------------------------------------ *)
(** *** The routes as one interface *)
(* ------------------------------------------------------------------ *)

Inductive ApiCall : Type :=
| CallShare (req : Request) (fileId : Id)
| CallReEncrypt (req : Request) (fileId : Id)
| CallDownload (req : Request) (fileId : Id)
| CallInfo (req : Request) (fileId : Id)
| CallUpdate (req : Request) (fileId : Id)
| CallDelete (req : Request) (fileId : Id)
| CallLogin (req : Request).

(** One call at time [now], on the database and the random source. *)
Definition api_call (now : DateTime) (call : ApiCall) (db : DB) (e : Entropy)
  : (Response * DB) * Entropy :=
  match call with
  | CallShare req fileId => (share_POST now req fileId db, e)
  | CallReEncrypt req fileId => reencrypt_POST now req fileId db e
  | CallDownload req fileId => (download_GET now req fileId db, e)
  | CallInfo req fileId => ((file_GET now req fileId db, db), e)
  | CallUpdate req fileId => (file_PUT now req fileId db, e)
  | CallDelete req fileId => (file_DELETE now req fileId db, e)
  | CallLogin req => login_POST now req db e
  end.

(** The database after a sequence of calls, each with its time. *)
Fixpoint api_run (calls : list (DateTime * ApiCall)) (db : DB) (e : Entropy) : DB * Entropy :=
  match calls with
  | [] => (db, e)
  | (now, call) :: rest =>
      let '((_, db'), e') := api_call now call db e in
      api_run rest db' e'
  end.

End MoreRoutes.

(** A share as the share route writes it: a placeholder key, and
    permissions among 'read', 'download' and 'share'. *)
Definition share_as_written (s : FileShare.t) : Prop :=
  JsString.startsWith "DEMO_" (FileShare.encryptedKey s) = true
  /\ Forall (fun p => In p share_permission_enum) (userPermissions s).



(* ================================================================== *)
(** ** Further predicates the properties are stated with *)
(* ================================================================== *)

(** [pub] and [priv] carry the key material of the pair generated from the
    random state [e0], and may be used to encrypt and to decrypt. They
    need not be the key objects [generateRSAKeyPair] returned: keys
    imported from PEM or recovered from storage qualify. *)
Definition key_pair_of `{WebCrypto} (e0 : Entropy) (pub priv : CryptoKey) : Prop :=
  key_type pub = Public /\ algorithm pub = RSA_OAEP
  /\ has_usage Encrypt (usages pub) = true
  /\ key_data pub = fst (fst (rsa_generate e0))
  /\ key_type priv = Private /\ algorithm priv = RSA_OAEP
  /\ has_usage Decrypt (usages priv) = true
  /\ key_data priv = snd (fst (rsa_generate e0)).

(** An AES-GCM key of 256 bits for both directions. *)
Definition aes256_key (key : CryptoKey) : Prop :=
  algorithm key = AES_GCM
  /\ has_usage Encrypt (usages key) = true
  /\ has_usage Decrypt (usages key) = true
  /\ List.length (key_data key) = 32.

(** A lower-case hexadecimal digit. *)
Definition is_hex_digit (c : ascii) : bool :=
  let n := JsString.code c in
  ((48 <=? n) && (n <=? 57) || (97 <=? n) && (n <=? 102))%N.

(** What [login] does with the password and the [cryptoData] of the
    response: the salt and the three buffers are decoded, the master key
    is derived and the private key decrypted. *)
Definition recoverPrivateKey `{WebCrypto} `{KeyDerivation} (password : string)
           (salt : string) (stored : StoredPrivateKey) : result CryptoKey :=
  (saltBuffer <- base64ToArrayBuffer salt ;;
   masterKey <- deriveKeyFromPassword password saltBuffer ;;
   encryptedData <- base64ToArrayBuffer (spk_encryptedData stored) ;;
   iv <- base64ToArrayBuffer (spk_iv stored) ;;
   authTag <- base64ToArrayBuffer (spk_authTag stored) ;;
   decryptPrivateKey encryptedData masterKey iv authTag)%res.

(** What [register] sends of an encrypted private key. *)
Definition storePrivateKey (encrypted : EncryptedData) : StoredPrivateKey :=
  mkStoredPrivateKey (arrayBufferToBase64 (ed_encryptedData encrypted))
                     (arrayBufferToBase64 (ed_iv encrypted))
                     (arrayBufferToBase64 (ed_authTag encrypted)).


(** No stored session has an identifier the counter has yet to draw. *)
Definition session_ids_fresh (db : DB) : Prop :=
  forall n, cuid_counter db <= n -> ~ In (cuid n) (map Session.id (sessions db)).

(** The largest integer a JavaScript number counts exactly: 2^53 - 1. *)
Definition MAX_SAFE_INTEGER : N := 9007199254740991.


(** The request and the file a call addresses; a login addresses none. *)
Definition call_target (call : ApiCall) : option (Request * Id) :=
  match call with
  | CallShare req fileId
  | CallReEncrypt req fileId
  | CallDownload req fileId
  | CallInfo req fileId
  | CallUpdate req fileId
  | CallDelete req fileId => Some (req, fileId)
  | CallLogin _ => None
  end.

(** The request does not come from the owner of the file: it carries no
    authenticated user, or the file does not exist, or it belongs to
    somebody else. *)
Definition not_from_the_owner (req : Request) (fileId : Id) (db : DB) : Prop :=
  forall user file,
    auth req = Some user ->
    Prisma.file_findUnique fileId db = Some file ->
    File.ownerId file <> au_id user.

(** The file is on record and marked as deleted. *)
Definition file_is_deleted (fileId : Id) (db : DB) : Prop :=
  exists file, Prisma.file_findUnique fileId db = Some file /\ File.isDeleted file = true.


(* ================================================================== *)
(** ** More of the executable instances and of the scenario *)
(* ================================================================== *)

Module ReferenceClient.

(** A stand-in for PBKDF2: the first bytes of password and salt, padded. *)
Definition derive (password salt : list byte) (iterations length : N) : list byte :=
  let n := N.to_nat (length / 8) in
  firstn n (password ++ salt ++ repeat x00 n).

Definition kdf : KeyDerivation := {| pbkdf2 := derive |}.

(** A token is the word [session:] followed by the identifier of its
    session. *)
Definition verify (token : string) (now : DateTime) : option Auth.JWTPayload :=
  if JsString.startsWith "session:" token
  then Some (Auth.mkJWTPayload "" "" (JsStringExt.substring_from 8 token))
  else None.

Definition verifier : TokenVerifier := {| verifyToken := verify |}.

(** Node's decoder, on well-formed input. *)
Definition decode (s : string) : list byte :=
  match base64ToArrayBuffer s with
  | Ok bytes => bytes
  | Throw _ => []
  end.

Definition buffer : NodeBuffer := {| Buffer_from_base64 := decode |}.

End ReferenceClient.

(** Alice registers, logs in and uploads; Bob tries his luck. *)
Module Walkthrough.

Definition W : WebCrypto := Scenario.W.
Definition S : ServerEnv := Scenario.S.

Definition password : string := "correct-horse".

Definition salt : list byte := fst (Reference.random_bytes 32 7).

Definition masterKey : CryptoKey :=
  match @deriveKeyFromPassword W ReferenceClient.kdf password salt with
  | Ok key => key
  | Throw _ => Scenario.no_key
  end.

(** Alice's private key under her master key. *)
Definition encryptedPrivateKey : EncryptedData :=
  match fst (@encryptPrivateKey W (privateKey Scenario.alice_keys) masterKey 300) with
  | Ok enc => enc
  | Throw _ => mkEncryptedData [] [] []
  end.

(** The key her login recovers. *)
Definition recoveredKey : CryptoKey :=
  mkCryptoKey Private false RSA_OAEP [Decrypt] (key_data (privateKey Scenario.alice_keys)).

Definition notes : JsFile :=
  mkJsFile "notes.txt" "text/plain" Scenario.hello.

(** The metadata travel as their file name alone. *)
Definition serialize (metadata : FileMetadata) : ArrayBuffer :=
  list_byte_of_string (originalName metadata).

Definition login_request : Request :=
  Scenario.anonymous (Scenario.login_body "alice@example.com" "correct-horse").

(** Alice logs in; her session is the first row that gets an identifier. *)
Definition db_logged_in : DB :=
  snd (fst (@login_POST W S Scenario.now login_request Scenario.db0 500)).

Definition alice_session : Id := cuid 0.

(** The same session, opened by [createSession] alone. *)
Definition db_session : DB :=
  match fst (@createSession W S Scenario.now "u-alice" (Some "203.0.113.7")
               (Some "test-agent") Scenario.db0 500) with
  | Ok (_, db) => db
  | Throw _ => Scenario.db0
  end.

Definition bearer (sessionId : Id) : Headers :=
  mkHeaders (Some ("Bearer session:" ++ sessionId)%string)
            (Some "203.0.113.7, 10.0.0.1") (Some "10.0.0.1") None (Some "test-agent").

Definition metadata_update : Json := JObj [("encryptedMetadata", JStr "e30=")].

Definition reencrypt_body : Json :=
  JObj [("shareId", JStr "c0");
        ("ownerPrivateKeyData",
         JStr (arrayBufferToBase64 (key_data (privateKey Scenario.alice_keys))));
        ("targetUserEmail", JStr "bob@example.com")].

(** Alice shares the report with Bob and asks for the re-encryption; Bob
    logs in, looks at the file and tries to download it. *)
Definition calls : list (DateTime * ApiCall) :=
  [(Scenario.now,
    CallShare (Scenario.as_user Scenario.alice
                 (Scenario.share_body ["read"; "download"; "share"] None)) "f-report");
   ((Scenario.now + 1000)%Z,
    CallReEncrypt (Scenario.as_user Scenario.alice reencrypt_body) "f-report");
   ((Scenario.now + 2000)%Z,
    CallLogin (Scenario.anonymous (Scenario.login_body "bob@example.com" "battery-staple")));
   ((Scenario.now + 3000)%Z, CallInfo (Scenario.as_user Scenario.bob JNull) "f-report");
   ((Scenario.now + 4000)%Z, CallDownload (Scenario.as_user Scenario.bob JNull) "f-report")].

Definition db_shared : DB :=
  fst (@api_run W S ReferenceClient.buffer calls Scenario.db0 600).

(** After the deletion, Alice shares again and Bob asks again. *)
Definition calls_after_deletion : list (DateTime * ApiCall) :=
  [((Scenario.now + 5000)%Z,
    CallShare (Scenario.as_user Scenario.alice (Scenario.share_body ["read"] None))
              "f-report");
   ((Scenario.now + 6000)%Z, CallDownload (Scenario.as_user Scenario.bob JNull) "f-report")].

(** A third user, Carol, and a second share of the report. *)
Definition carol : User.t :=
  User.mk "u-carol" "carol@example.com" "carol" "bcrypt:tr0ub4dor" "c2FsdA=="
          (Scenario.pem_of (Scenario.keys_at 90)) "" true false None 0%Z 0%Z None.

Definition share_with (email : string) (permissions : list string) : Json :=
  JObj [("userEmail", JStr email); ("permissions", JArr (map JStr permissions))].

(** Alice has shared the report with Bob and then with Carol. *)
Definition db_two_shares : DB :=
  snd (@share_POST W S (Scenario.now + 500)%Z
         (Scenario.as_user Scenario.alice (share_with "carol@example.com" ["read"]))
         "f-report"
         (Prisma.set_users [Scenario.alice; Scenario.bob; carol] Scenario.db1)).

(** Alice deletes the report while both shares are active. *)
Definition deletion_of_two : Response * DB :=
  file_DELETE (Scenario.now + 2000)%Z (Scenario.as_user Scenario.alice JNull) "f-report"
              db_two_shares.

End Walkthrough.


(* ================================================================== *)
(** * Properties *)
(* ================================================================== *)

(* ------------------------------------------------------------------ *)
(** ** Lists, strings and base64 *)
(* ------------------------------------------------------------------ *)

Section ListFacts.
Context {A : Type}.

Lemma find_map_same (p : A -> bool) (g : A -> A) (l : list A) :
  (forall x, p (g x) = p x) ->
  find p (map g l) = option_map g (find p l).
Proof.
  intros Hp. induction l as [|a l IH]; simpl; [reflexivity|].
  rewrite Hp. destruct (p a); [reflexivity | exact IH].
Qed.

Lemma find_app_none (p : A -> bool) (l l' : list A) :
  find p l = None -> find p (l ++ l') = find p l'.
Proof.
  induction l as [|a l IH]; simpl; [reflexivity|].
  destruct (p a); [discriminate | exact IH].
Qed.

Lemma NoDup_snoc (l : list A) (a : A) :
  NoDup l -> ~ In a l -> NoDup (l ++ [a]).
Proof.
  induction l as [|x l IH]; simpl; intros N NI.
  - constructor; [intros [] | constructor].
  - inversion N as [|? ? Nx Nl]. subst. constructor.
    + rewrite in_app_iff. simpl. intros [I|[E|[]]]; [auto|]. subst. auto.
    + apply IH; auto.
Qed.

Lemma NoDup_map_inj {B} (f : A -> B) (l : list A) a b :
  NoDup (map f l) -> In a l -> In b l -> f a = f b -> a = b.
Proof.
  induction l as [|x l IH]; simpl; [intros _ []|].
  intros N Ia Ib E. inversion N as [|? ? Nx Nl]. subst.
  destruct Ia as [->|Ia], Ib as [->|Ib]; auto.
  - exfalso. apply Nx. rewrite E. apply in_map. exact Ib.
  - exfalso. apply Nx. rewrite <- E. apply in_map. exact Ia.
Qed.
End ListFacts.

Lemma slice_parts n l : slice_until_last n l ++ slice_last n l = l.
Proof. apply firstn_skipn. Qed.

Module JsStringFacts.
Import JsString.

Lemma chars_app (a b : string) : chars (a ++ b)%string = chars a ++ chars b.
Proof.
  unfold chars. induction a as [|c a IH]; simpl; [reflexivity|].
  rewrite IH. reflexivity.
Qed.

Lemma of_chars_chars (s : string) : of_chars (chars s) = s.
Proof. apply string_of_list_ascii_of_string. Qed.

Lemma split_chars_single sep (a : list ascii) :
  ~ In sep a -> split_chars sep a = [a].
Proof.
  induction a as [|c a IH]; simpl; intros N; [reflexivity|].
  destruct (Ascii.eqb c sep) eqn:E.
  - apply Ascii.eqb_eq in E. exfalso. apply N. left. exact E.
  - rewrite IH; [reflexivity|]. intros I. apply N. right. exact I.
Qed.

Lemma split_chars_cons sep (a rest : list ascii) :
  ~ In sep a -> split_chars sep (a ++ sep :: rest) = a :: split_chars sep rest.
Proof.
  induction a as [|c a IH]; simpl; intros N.
  - rewrite Ascii.eqb_refl. reflexivity.
  - destruct (Ascii.eqb c sep) eqn:E.
    + apply Ascii.eqb_eq in E. exfalso. apply N. left. exact E.
    + rewrite IH; [reflexivity|]. intros I. apply N. right. exact I.
Qed.

(** [parts.join(',').split(',')] gives the parts back when there is at
    least one and none contains a comma. *)
Lemma split_join (parts : list string) :
  parts <> [] ->
  Forall (fun p => ~ In ","%char (chars p)) parts ->
  split ","%char (join "," parts) = parts.
Proof.
  unfold split. induction parts as [|p ps IH]; [congruence|].
  intros _ F. inversion F as [|? ? Np Fps]. subst.
  destruct ps as [|q ps].
  - simpl. rewrite split_chars_single by exact Np. simpl.
    rewrite of_chars_chars. reflexivity.
  - change (join "," (p :: q :: ps)) with (p ++ "," ++ join "," (q :: ps))%string.
    rewrite chars_app.
    change (chars ("," ++ join "," (q :: ps))%string)
      with (","%char :: chars (join "," (q :: ps))).
    rewrite split_chars_cons by exact Np. simpl map.
    rewrite of_chars_chars. f_equal. apply IH; [discriminate | exact Fps].
Qed.
End JsStringFacts.

Module Base64Facts.
Import Base64.

Lemma values_underscore l : In "_"%char l -> values l = None.
Proof.
  induction l as [|c l IH]; simpl; [intros []|].
  intros [E|I].
  - subst c. reflexivity.
  - rewrite (IH I). destruct (value c); reflexivity.
Qed.

Lemma strip_padding_keeps c l : c <> pad -> In c l -> In c (strip_padding l).
Proof.
  intros N I. unfold strip_padding. apply in_rev in I.
  destruct (rev l) as [|p1 [|p2 r]] eqn:R.
  - destruct I.
  - destruct I as [E|[]]. subst p1.
    apply Ascii.eqb_neq in N. rewrite N. apply in_rev. rewrite R. left. reflexivity.
  - destruct (Ascii.eqb p1 pad) eqn:E1.
    + apply Ascii.eqb_eq in E1. subst p1.
      destruct I as [E|I]; [congruence|].
      destruct (Ascii.eqb p2 pad) eqn:E2.
      * apply Ascii.eqb_eq in E2. subst p2.
        destruct I as [E|I]; [congruence|]. apply in_rev in I. exact I.
      * apply -> in_rev. exact I.
    + apply in_rev. rewrite R. exact I.
Qed.

(** A string that contains an underscore is not base64. *)
Lemma atob_underscore s :
  In "_"%char (JsString.chars s) -> atob s = Throw (DOMException InvalidCharacterError).
Proof.
  intros I. unfold atob.
  set (d0 := filter (fun c => negb (is_ascii_whitespace c)) (JsString.chars s)).
  assert (I0 : In "_"%char d0) by (apply filter_In; split; [exact I | reflexivity]).
  assert (I1 : In "_"%char
                 (if (List.length d0 mod 4 =? 0)%nat then strip_padding d0 else d0)).
  { destruct (List.length d0 mod 4 =? 0)%nat; [|exact I0].
    apply strip_padding_keeps; [discriminate | exact I0]. }
  rewrite (values_underscore _ I1).
  destruct (_ =? 1)%nat; reflexivity.
Qed.
End Base64Facts.

(** The placeholder the share route stores never decodes. *)
Lemma demo_key_is_not_base64 (key : string) :
  base64ToArrayBuffer (demo_marker ++ key)%string = Throw (DOMException InvalidCharacterError).
Proof.
  unfold base64ToArrayBuffer. rewrite Base64Facts.atob_underscore; [reflexivity|].
  rewrite JsStringFacts.chars_app. apply in_or_app. left. simpl. auto 6.
Qed.

Lemma demo_key_startsWith (key : string) :
  JsString.startsWith "DEMO_" (demo_marker ++ key)%string = true.
Proof. destruct key; reflexivity. Qed.

Lemma base64ToArrayBuffer_throws s e :
  base64ToArrayBuffer s = Throw e -> e = DOMException InvalidCharacterError.
Proof.
  unfold base64ToArrayBuffer, Base64.atob.
  repeat match goal with
         | |- context [if ?b then _ else _] => destruct b
         | |- context [match ?x with Some _ => _ | None => _ end] => destruct x
         end; intros E; inversion E; reflexivity.
Qed.

(* ------------------------------------------------------------------ *)
(** ** The reference primitives satisfy the laws *)
(* ------------------------------------------------------------------ *)

Module ReferenceFacts.
Import Reference.

Lemma bytes_eqb_refl l : bytes_eqb l l = true.
Proof.
  induction l as [|b l IH]; simpl; [reflexivity|].
  rewrite IH, (Byte.byte_dec_lb (eq_refl b)). reflexivity.
Qed.

Lemma random_bytes_length n e : List.length (fst (random_bytes n e)) = n.
Proof. unfold random_bytes. simpl. rewrite length_map, length_seq. reflexivity. Qed.

Lemma gcm_tag_length key : List.length (gcm_tag key) = 16.
Proof.
  unfold gcm_tag. rewrite length_firstn, length_app, repeat_length. lia.
Qed.

Lemma laws : WebCryptoLaws crypto.
Proof.
  constructor; simpl.
  - apply random_bytes_length.
  - intros e. split; reflexivity.
  - intros e msg e' Lm. unfold oaep_encrypt, oaep_decrypt. simpl.
    apply Nat.leb_le in Lm. rewrite Lm. simpl.
    eexists. split; [reflexivity|]. simpl.
    rewrite !(Byte.byte_dec_lb eq_refl). simpl. reflexivity.
  - intros key iv data. unfold gcm_encrypt.
    rewrite length_app, gcm_tag_length, length_rev. reflexivity.
  - intros key iv data _. unfold gcm_decrypt, gcm_encrypt.
    rewrite length_app, gcm_tag_length, length_rev.
    replace (List.length data + 16 - 16) with (List.length (rev data))
      by (rewrite length_rev; lia).
    rewrite skipn_app, skipn_all, Nat.sub_diag. simpl.
    rewrite bytes_eqb_refl.
    rewrite firstn_app, firstn_all, Nat.sub_diag. simpl.
    rewrite app_nil_r, rev_involutive. reflexivity.
Qed.
End ReferenceFacts.


(* ------------------------------------------------------------------ *)
(** ** base64 round trip *)
(* ------------------------------------------------------------------ *)

Ltac euclid := zify; Z.to_euclidean_division_equations; lia.

Module Base64RoundTrip.
Import Base64 Base64Digits.

Lemma list_ind3 {A} (P : list A -> Prop) :
  P [] -> (forall a, P [a]) -> (forall a b, P [a; b]) ->
  (forall a b c l, P l -> P (a :: b :: c :: l)) ->
  forall l, P l.
Proof.
  intros H0 H1 H2 H3.
  fix IH 1. intros [|a [|b [|c l]]];
    [exact H0 | apply H1 | apply H2 | apply H3; apply IH].
Qed.

Lemma length_mod3_step {A} (a b c : A) l :
  (List.length (a :: b :: c :: l) mod 3 = List.length l mod 3)%nat.
Proof.
  simpl List.length.
  replace (S (S (S (List.length l)))) with (List.length l + 1 * 3)%nat by lia.
  apply Nat.Div0.mod_add.
Qed.

Lemma encode_sextets l : encode l = map digit (sextets l) ++ padding l.
Proof.
  induction l as [| a | a b | a b c l IH] using list_ind3; try reflexivity.
  unfold padding. rewrite length_mod3_step. fold (padding l).
  cbn [encode sextets map app]. rewrite IH. reflexivity.
Qed.

Lemma digits_ok : forallb digit_ok (map N.of_nat (seq 0 64)) = true.
Proof. vm_compute. reflexivity. Qed.

Lemma digit_spec n :
  (n < 64)%N ->
  value (digit n) = Some n /\ digit n <> pad /\ is_ascii_whitespace (digit n) = false.
Proof.
  intros L. pose proof digits_ok as T. rewrite forallb_forall in T.
  assert (I : In n (map N.of_nat (seq 0 64))).
  { apply in_map_iff. exists (N.to_nat n). split; [apply N2Nat.id|].
    apply in_seq. lia. }
  specialize (T n I). unfold digit_ok in T.
  apply andb_prop in T. destruct T as [T W]. apply andb_prop in T. destruct T as [V Pd].
  destruct (value (digit n)) as [v|]; [|discriminate].
  apply N.eqb_eq in V. subst v.
  apply negb_true_iff in Pd, W. apply Ascii.eqb_neq in Pd. auto.
Qed.

Lemma sextets_small l : octets l -> small (sextets l).
Proof.
  unfold octets, small.
  induction l as [| a | a b | a b c l IH] using list_ind3; intros O; cbn [sextets].
  - constructor.
  - inversion O; subst. repeat constructor; euclid.
  - inversion O as [|? ? Ha O1]; subst. inversion O1; subst. repeat constructor; euclid.
  - inversion O as [|? ? Ha O1]; subst. inversion O1 as [|? ? Hb O2]; subst.
    inversion O2 as [|? ? Hc O3]; subst.
    repeat (constructor; [euclid|]). apply IH. exact O3.
Qed.

Lemma decode_sextets l : octets l -> decode (sextets l) = l.
Proof.
  unfold octets.
  induction l as [| a | a b | a b c l IH] using list_ind3; intros O; cbn [sextets decode].
  - reflexivity.
  - inversion O; subst. f_equal. euclid.
  - inversion O as [|? ? Ha O1]; subst. inversion O1; subst.
    f_equal; [euclid|]. f_equal. euclid.
  - inversion O as [|? ? Ha O1]; subst. inversion O1 as [|? ? Hb O2]; subst.
    inversion O2 as [|? ? Hc O3]; subst.
    rewrite (IH O3). f_equal; [euclid|]. f_equal; [euclid|]. f_equal. euclid.
Qed.

Lemma values_digits sx : small sx -> values (map digit sx) = Some sx.
Proof.
  unfold small. induction 1 as [|n sx Hn _ IH]; simpl; [reflexivity|].
  destruct (digit_spec n Hn) as (V & _). rewrite V, IH. reflexivity.
Qed.

Lemma no_whitespace_digits sx :
  small sx ->
  filter (fun c => negb (is_ascii_whitespace c)) (map digit sx) = map digit sx.
Proof.
  unfold small. induction 1 as [|n sx Hn _ IH]; simpl; [reflexivity|].
  destruct (digit_spec n Hn) as (_ & _ & Ws). rewrite Ws. simpl. rewrite IH. reflexivity.
Qed.

Lemma no_whitespace_padding l :
  filter (fun c => negb (is_ascii_whitespace c)) (padding l) = padding l.
Proof. unfold padding. destruct (List.length l mod 3)%nat as [|[|[|]]]; reflexivity. Qed.

Lemma sextets_length l :
  List.length (sextets l) + List.length (padding l) = 4 * ((List.length l + 2) / 3).
Proof.
  induction l as [| a | a b | a b c l IH] using list_ind3; try reflexivity.
  unfold padding in *. rewrite length_mod3_step.
  cbn [sextets List.length]. 
  replace (S (S (S (List.length l))) + 2) with (List.length l + 2 + 1 * 3) by lia.
  rewrite Nat.div_add by lia. lia.
Qed.

Lemma padding_cases l : padding l = [] \/ padding l = [pad] \/ padding l = [pad; pad].
Proof. unfold padding. destruct (List.length l mod 3)%nat as [|[|[|]]]; auto. Qed.

(** Stripping removes exactly the padding after digits. *)
Lemma strip_padding_digits sx p :
  small sx -> p = [] \/ p = [pad] \/ p = [pad; pad] ->
  strip_padding (map digit sx ++ p) = map digit sx.
Proof.
  intros Sm Hp. unfold strip_padding.
  assert (Hd : forall x r, rev (map digit sx) = x :: r -> Ascii.eqb x pad = false).
  { intros x r E. rewrite <- map_rev in E.
    destruct (rev sx) as [|n t] eqn:R; [discriminate|].
    inversion E. subst x r.
    assert (In n sx) by (apply in_rev; rewrite R; left; reflexivity).
    unfold small in Sm. rewrite Forall_forall in Sm.
    apply Ascii.eqb_neq. apply (digit_spec n). apply Sm. assumption. }
  rewrite rev_app_distr.
  destruct Hp as [->|[->| ->]]; simpl rev; simpl app.
  - rewrite app_nil_r.
    destruct (rev (map digit sx)) as [|p1 [|p2 r]] eqn:R; try reflexivity.
    + rewrite (Hd p1 [] eq_refl). reflexivity.
    + rewrite (Hd p1 (p2 :: r) eq_refl). reflexivity.
  - destruct (rev (map digit sx)) as [|p2 r] eqn:R.
    + simpl. apply (f_equal (@rev ascii)) in R. rewrite rev_involutive in R.
      simpl in R. rewrite R. reflexivity.
    + rewrite Ascii.eqb_refl, (Hd p2 r eq_refl).
      apply (f_equal (@rev ascii)) in R. rewrite rev_involutive in R.
      symmetry. exact R.
  - destruct (rev (map digit sx)) as [|p3 r] eqn:R.
    + simpl. apply (f_equal (@rev ascii)) in R. rewrite rev_involutive in R.
      simpl in R. rewrite R. reflexivity.
    + simpl. rewrite ?Ascii.eqb_refl.
      apply (f_equal (@rev ascii)) in R. rewrite rev_involutive in R.
      symmetry. exact R.
Qed.

Lemma code_octets cs : octets (map JsString.code cs).
Proof.
  unfold octets. apply Forall_forall. intros n I. apply in_map_iff in I.
  destruct I as (c & <- & _). apply N_ascii_bounded.
Qed.

Lemma chars_of_chars cs : JsString.chars (JsString.of_chars cs) = cs.
Proof. apply list_ascii_of_string_of_list_ascii. Qed.

(** [atob(btoa(s))] is [s]. *)
Theorem atob_btoa (s : string) : atob (btoa s) = Ok s.
Proof.
  unfold atob, btoa.
  set (ns := map JsString.code (JsString.chars s)).
  assert (O : octets ns) by apply code_octets.
  pose proof (sextets_small ns O) as Sm.
  rewrite chars_of_chars, encode_sextets.
  rewrite filter_app, no_whitespace_digits, no_whitespace_padding by exact Sm.
  assert (L4 : (List.length (map digit (sextets ns) ++ padding ns) mod 4 =? 0)%nat = true).
  { apply Nat.eqb_eq. rewrite length_app, length_map, sextets_length.
    rewrite Nat.mul_comm. apply Nat.Div0.mod_mul. }
  rewrite L4, (strip_padding_digits (sextets ns) (padding ns) Sm (padding_cases ns)).
  assert (L1 : (List.length (map digit (sextets ns)) mod 4 =? 1)%nat = false).
  { apply Nat.eqb_neq. rewrite length_map.
    pose proof (sextets_length ns) as E.
    assert (P2 : List.length (padding ns) <= 2)
      by (destruct (padding_cases ns) as [->|[->| ->]]; simpl; lia).
    generalize dependent (List.length (sextets ns)).
    generalize dependent (List.length (padding ns)).
    generalize ((List.length ns + 2) / 3)%nat.
    intros q p P2 n E M.
    pose proof (Nat.div_mod_eq n 4) as D. rewrite M in D. lia. }
  rewrite L1, (values_digits (sextets ns) Sm), (decode_sextets ns O).
  unfold ns. rewrite map_map.
  rewrite (map_ext _ (fun c => c)) by (intros c; apply ascii_N_embedding).
  rewrite map_id. f_equal. apply string_of_list_ascii_of_string.
Qed.
End Base64RoundTrip.

(** X1: [base64ToArrayBuffer(arrayBufferToBase64(buffer))] returns [buffer],
    for every buffer. *)
Theorem base64_buffer_roundtrip (buffer : ArrayBuffer) :
  base64ToArrayBuffer (arrayBufferToBase64 buffer) = Ok buffer.
Proof.
  unfold base64ToArrayBuffer, arrayBufferToBase64.
  rewrite Base64RoundTrip.atob_btoa. f_equal. apply list_byte_of_string_of_list_byte.
Qed.


(* ------------------------------------------------------------------ *)
(** ** Key objects, wrapping and file encryption *)
(* ------------------------------------------------------------------ *)

Section CryptoFacts.
Context `{W : WebCrypto}.

Lemma importKey_extractable format keyData alg ext us key :
  Subtle.importKey format keyData alg ext us = Ok key -> extractable key = ext.
Proof.
  unfold Subtle.importKey.
  destruct alg, format; try discriminate;
    repeat match goal with
           | |- context [if ?b then _ else _] => destruct b
           end; try discriminate; intros E; inversion E; reflexivity.
Qed.

Lemma importKey_throws format keyData alg ext us e :
  Subtle.importKey format keyData alg ext us = Throw e -> exists n, e = DOMException n.
Proof.
  unfold Subtle.importKey.
  destruct alg, format;
    repeat match goal with
           | |- context [if ?b then _ else _] => destruct b
           end; intros E; inversion E; eauto.
Qed.

(** The AES key that [decryptKeyWithRSA] returns cannot be exported. *)
Lemma decryptKeyWithRSA_not_extractable encryptedKey rsaPrivateKey aesKey :
  decryptKeyWithRSA encryptedKey rsaPrivateKey = Ok aesKey ->
  extractable aesKey = false.
Proof.
  unfold decryptKeyWithRSA, Res.bind.
  destruct (Subtle.decrypt_RSA_OAEP rsaPrivateKey encryptedKey); [|discriminate].
  apply importKey_extractable.
Qed.

(** [encryptKeyWithRSA] on such a key fails at its first step. *)
Lemma encryptKeyWithRSA_not_extractable aesKey rsaPublicKey e :
  extractable aesKey = false ->
  encryptKeyWithRSA aesKey rsaPublicKey e = (Throw (DOMException InvalidAccessError), e).
Proof.
  intros E. unfold encryptKeyWithRSA, Async.bind, Async.lift, Subtle.exportKey.
  rewrite E. reflexivity.
Qed.

(** C1 (as the code behaves): [reEncryptFileKey] never produces a re-wrapped
    key. Whatever the wrapped key, the owner's private key, the recipient's
    PEM and the state of the random source, the call rejects with
    [Error('No se pudo re-cifrar la clave del archivo')] and draws no
    randomness: [decryptKeyWithRSA] imports the unwrapped AES key with
    [extractable = false], and [encryptKeyWithRSA] starts by exporting it. *)
Theorem reEncryptFileKey_always_rejects :
  forall (encryptedFileKey : string) (ownerPrivateKey : CryptoKey)
         (targetPublicKeyPEM : string) (e : Entropy),
    reEncryptFileKey encryptedFileKey ownerPrivateKey targetPublicKeyPEM e
    = (Throw reEncrypt_failure, e).
Proof.
  intros. unfold reEncryptFileKey, Async.try_catch, Async.bind, Async.lift, Async.throw.
  destruct (base64ToArrayBuffer encryptedFileKey) as [buf|]; [|reflexivity].
  destruct (decryptKeyWithRSA buf ownerPrivateKey) as [aesKey|] eqn:D; [|reflexivity].
  destruct (importPublicKeyFromPEM targetPublicKeyPEM) as [pk|]; [|reflexivity].
  rewrite (encryptKeyWithRSA_not_extractable aesKey pk e
             (decryptKeyWithRSA_not_extractable buf ownerPrivateKey aesKey D)).
  reflexivity.
Qed.

Lemma decrypt_RSA_OAEP_throws key data e :
  Subtle.decrypt_RSA_OAEP key data = Throw e -> exists n, e = DOMException n.
Proof.
  unfold Subtle.decrypt_RSA_OAEP.
  destruct (negb (Algorithm_eqb (algorithm key) RSA_OAEP)); [intros E; inversion E; eauto|].
  destruct (negb (has_usage Decrypt (usages key))); [intros E; inversion E; eauto|].
  destruct (key_type key); try (intros E; inversion E; eauto; fail).
  destruct (rsa_oaep_decrypt (key_data key) data); intros E; inversion E; eauto.
Qed.

Lemma decrypt_AES_GCM_throws iv key data e :
  Subtle.decrypt_AES_GCM iv key data = Throw e -> exists n, e = DOMException n.
Proof.
  unfold Subtle.decrypt_AES_GCM.
  destruct (negb (Algorithm_eqb (algorithm key) AES_GCM)); [intros E; inversion E; eauto|].
  destruct (negb (has_usage Decrypt (usages key))); [intros E; inversion E; eauto|].
  destruct (List.length data <? 16)%nat; [intros E; inversion E; eauto|].
  destruct (aes_gcm_decrypt (key_data key) iv data); intros E; inversion E; eauto.
Qed.

(** Whatever [decryptFile] throws is a [DOMException] of the platform. *)
Lemma decryptFile_throws d k i t privateKey e :
  decryptFile d k i t privateKey = Throw e -> exists n, e = DOMException n.
Proof.
  unfold decryptFile, decryptKeyWithRSA, decryptWithAES, Res.bind.
  destruct (Subtle.decrypt_RSA_OAEP privateKey k) as [keyData|x] eqn:R.
  - destruct (Subtle.importKey Raw keyData AES_GCM false [Encrypt; Decrypt]) as [key|x] eqn:I.
    + apply decrypt_AES_GCM_throws.
    + intros E; inversion E; subst. eapply importKey_throws; eauto.
  - intros E; inversion E; subst. eapply decrypt_RSA_OAEP_throws; eauto.
Qed.

Lemma decrypt_record_spec ef privateKey plain :
  decrypt_record ef privateKey = Ok plain <-> decrypts_to ef privateKey plain.
Proof.
  unfold decrypt_record, decrypts_to, decryptFile, Res.bind. split.
  - destruct (base64ToArrayBuffer (encryptedData ef)) as [d|]; [|discriminate].
    destruct (base64ToArrayBuffer (encryptedKey ef)) as [k|]; [|discriminate].
    destruct (base64ToArrayBuffer (iv ef)) as [i|]; [|discriminate].
    destruct (base64ToArrayBuffer (authTag ef)) as [t|]; [|discriminate].
    destruct (decryptKeyWithRSA k privateKey) as [aesKey|] eqn:D; [|discriminate].
    intros E. exists d, k, i, t, aesKey. repeat split; auto.
  - intros (d & k & i & t & aesKey & E1 & E2 & E3 & E4 & D & A).
    rewrite E1, E2, E3, E4, D. exact A.
Qed.

Lemma decrypt_record_throws ef privateKey e :
  decrypt_record ef privateKey = Throw e -> exists n, e = DOMException n.
Proof.
  unfold decrypt_record, Res.bind.
  destruct (base64ToArrayBuffer (encryptedData ef)) eqn:E1;
    [|intros X; inversion X; subst; eauto using base64ToArrayBuffer_throws].
  destruct (base64ToArrayBuffer (encryptedKey ef)) eqn:E2;
    [|intros X; inversion X; subst; eauto using base64ToArrayBuffer_throws].
  destruct (base64ToArrayBuffer (iv ef)) eqn:E3;
    [|intros X; inversion X; subst; eauto using base64ToArrayBuffer_throws].
  destruct (base64ToArrayBuffer (authTag ef)) eqn:E4;
    [|intros X; inversion X; subst; eauto using base64ToArrayBuffer_throws].
  apply decryptFile_throws.
Qed.

Lemma validateFileIntegrity_unfold ef privateKey :
  validateFileIntegrity ef privateKey
  = match decrypt_record ef privateKey with
    | Ok plain => Ok (String.eqb (calculateFileHash plain) (checksum ef))
    | Throw _ => Ok false
    end.
Proof.
  unfold validateFileIntegrity, decrypt_record, Res.try_catch, Res.bind.
  destruct (base64ToArrayBuffer (encryptedData ef)) as [a1|]; [|reflexivity].
  destruct (base64ToArrayBuffer (encryptedKey ef)) as [a2|]; [|reflexivity].
  destruct (base64ToArrayBuffer (iv ef)) as [a3|]; [|reflexivity].
  destruct (base64ToArrayBuffer (authTag ef)) as [a4|]; [|reflexivity].
  destruct (decryptFile a1 a2 a3 a4 privateKey); reflexivity.
Qed.

(** C10: [validateFileIntegrity] always returns a boolean and never throws,
    for every record and every key. The boolean is [true] exactly when the
    record's buffers decode, the key unwraps, AES-GCM decryption succeeds
    and the digest of the plaintext equals the stored checksum; in every
    other case it is [false]. *)
Theorem validateFileIntegrity_total :
  forall (ef : EncryptedFileData) (privateKey : CryptoKey),
  exists b : bool,
    validateFileIntegrity ef privateKey = Ok b
    /\ (b = true <->
        exists plain, decrypts_to ef privateKey plain
                      /\ calculateFileHash plain = checksum ef).
Proof.
  intros ef privateKey. rewrite validateFileIntegrity_unfold.
  destruct (decrypt_record ef privateKey) as [plain|e] eqn:D.
  - eexists. split; [reflexivity|]. rewrite String.eqb_eq. split.
    + intros E. exists plain. split; [apply decrypt_record_spec; exact D | exact E].
    + intros (p & Dp & E). apply decrypt_record_spec in Dp.
      rewrite D in Dp. inversion Dp. subst. exact E.
  - exists false. split; [reflexivity|]. split; [discriminate|].
    intros (p & Dp & _). apply decrypt_record_spec in Dp. rewrite D in Dp. discriminate.
Qed.

Variable parseMetadata : ArrayBuffer -> result FileMetadata.

Lemma processFileForDownload_unfold ef privateKey fn fm now :
  processFileForDownload parseMetadata ef privateKey fn fm now
  = match decrypt_record ef privateKey with
    | Throw e => Throw e
    | Ok plain =>
        if String.eqb (calculateFileHash plain) (checksum ef)
        then
          let md := match metadata ef with
                    | Some m => match decryptMetadata parseMetadata m privateKey with
                                | Ok md => md
                                | Throw _ => fallbackMetadata fn fm plain now
                                end
                    | None => fallbackMetadata fn fm plain now
                    end in
          Ok (new_Blob plain (fm_mimeType md), md)
        else Throw checksum_failure
    end.
Proof.
  unfold processFileForDownload, decrypt_record, Res.bind.
  destruct (base64ToArrayBuffer (encryptedData ef)) as [a1|]; [|reflexivity].
  destruct (base64ToArrayBuffer (encryptedKey ef)) as [a2|]; [|reflexivity].
  destruct (base64ToArrayBuffer (iv ef)) as [a3|]; [|reflexivity].
  destruct (base64ToArrayBuffer (authTag ef)) as [a4|]; [|reflexivity].
  destruct (decryptFile a1 a2 a3 a4 privateKey) as [plain|]; [|reflexivity].
  destruct (String.eqb (calculateFileHash plain) (checksum ef)); reflexivity.
Qed.

(** C4 (amended): the digest check is [processFileForDownload]'s, not
    [decryptFile]'s. After the record has decrypted, it recomputes the
    digest and compares it with the stored checksum: what it returns always
    decrypts from the record and has the stored digest; on a mismatch it
    throws [Error('Checksum inválido - archivo corrupto')]; on a match it
    returns the plaintext, in a blob of the metadata's type as [new Blob]
    keeps it; and when the record does not decrypt, it passes
    on the platform's [DOMException], which is never that [Error]. *)
Theorem processFileForDownload_verifies_checksum :
  forall (ef : EncryptedFileData) (privateKey : CryptoKey)
         (fallbackFilename fallbackMimeType : option string) (now : Z),
    (forall file md,
        processFileForDownload parseMetadata ef privateKey
                               fallbackFilename fallbackMimeType now = Ok (file, md) ->
        decrypts_to ef privateKey (blob_bytes file)
        /\ calculateFileHash (blob_bytes file) = checksum ef)
    /\ (forall plain,
           decrypts_to ef privateKey plain ->
           calculateFileHash plain <> checksum ef ->
           processFileForDownload parseMetadata ef privateKey
                                  fallbackFilename fallbackMimeType now
           = Throw checksum_failure)
    /\ (forall plain,
           decrypts_to ef privateKey plain ->
           calculateFileHash plain = checksum ef ->
           exists md,
             processFileForDownload parseMetadata ef privateKey
                                    fallbackFilename fallbackMimeType now
             = Ok (new_Blob plain (fm_mimeType md), md))
    /\ ((forall plain, ~ decrypts_to ef privateKey plain) ->
        exists n,
          processFileForDownload parseMetadata ef privateKey
                                 fallbackFilename fallbackMimeType now
          = Throw (DOMException n)
          /\ DOMException n <> checksum_failure).
Proof.
  intros ef privateKey fn fm now.
  rewrite processFileForDownload_unfold.
  destruct (decrypt_record ef privateKey) as [plain|e] eqn:D.
  - pose proof D as D'. apply decrypt_record_spec in D'.
    split; [|split; [|split]].
    + intros file md Hd.
      destruct (String.eqb (calculateFileHash plain) (checksum ef)) eqn:C; [|discriminate].
      simpl in Hd. inversion Hd. subst. simpl.
      split; [exact D' | apply String.eqb_eq; exact C].
    + intros p Dp NE. apply decrypt_record_spec in Dp. rewrite D in Dp.
      inversion Dp. subst p. apply String.eqb_neq in NE. rewrite NE. reflexivity.
    + intros p Dp E. apply decrypt_record_spec in Dp. rewrite D in Dp.
      inversion Dp. subst p. apply String.eqb_eq in E. rewrite E. simpl. eauto.
    + intros N. exfalso. exact (N plain D').
  - split; [|split; [|split]].
    + intros file md Hd. discriminate.
    + intros p Dp. apply decrypt_record_spec in Dp. rewrite D in Dp. discriminate.
    + intros p Dp. apply decrypt_record_spec in Dp. rewrite D in Dp. discriminate.
    + intros _. destruct (decrypt_record_throws ef privateKey e D) as [n ->].
      exists n. split; [reflexivity | discriminate].
Qed.
End CryptoFacts.

(** C1 at the input of the repository's own demonstration: a key wrapped
    for Alice, Alice's private key and Bob's exported public key. *)
Example reEncryptFileKey_rejects_the_demonstration :
  fst (@reEncryptFileKey Scenario.W
         (arrayBufferToBase64 (ef_encryptedKey Scenario.report_encrypted))
         (privateKey Scenario.alice_keys)
         (Scenario.pem_of Scenario.bob_keys) 200)
  = Throw (JsError "No se pudo re-cifrar la clave del archivo").
Proof. vm_compute. reflexivity. Qed.

(** C4, the claim as stated fails: [decryptFile] returns the plaintext of a
    record whose stored checksum is not the plaintext's digest. *)
Lemma decryptFile_ignores_the_checksum :
  ~ @decryptFile_checks_digest Scenario.W Scenario.report_tampered
      (privateKey Scenario.alice_keys).
Proof.
  intros H. specialize (H Scenario.hello). vm_compute in H.
  specialize (H eq_refl). discriminate H.
Qed.

(** C4 (amended) on the scenario: the intact record downloads to
    "hello world", the tampered one is refused for its checksum. *)
Lemma processFileForDownload_on_the_scenario :
  (exists md,
      @processFileForDownload Scenario.W Scenario.no_metadata
        (Scenario.transport Scenario.report_encrypted) (privateKey Scenario.alice_keys)
        None None Scenario.now
      = Ok (new_Blob Scenario.hello (fm_mimeType md), md))
  /\ @processFileForDownload Scenario.W Scenario.no_metadata
       (Scenario.transport Scenario.report_tampered) (privateKey Scenario.alice_keys)
       None None Scenario.now
     = Throw checksum_failure.
Proof.
  split.
  - apply (proj1 (proj2 (proj2
             (@processFileForDownload_verifies_checksum Scenario.W Scenario.no_metadata
                (Scenario.transport Scenario.report_encrypted)
                (privateKey Scenario.alice_keys) None None Scenario.now)))).
    + apply decrypt_record_spec. vm_compute. reflexivity.
    + vm_compute. reflexivity.
  - apply (proj1 (proj2
             (@processFileForDownload_verifies_checksum Scenario.W Scenario.no_metadata
                (Scenario.transport Scenario.report_tampered)
                (privateKey Scenario.alice_keys) None None Scenario.now))
             Scenario.hello).
    + apply decrypt_record_spec. vm_compute. reflexivity.
    + vm_compute. discriminate.
Defined.

(** The type of the blob: the caller's fallback type 'Application/PDF'
    becomes 'application/pdf', and a type with a character outside
    U+0020..U+007E becomes the empty string. *)
Example processFileForDownload_blob_type :
  @processFileForDownload Scenario.W Scenario.no_metadata
    (Scenario.transport Scenario.report_encrypted) (privateKey Scenario.alice_keys)
    (Some "report.pdf") (Some "Application/PDF") Scenario.now
  = Ok (mkBlob Scenario.hello "application/pdf",
        fallbackMetadata (Some "report.pdf") (Some "Application/PDF") Scenario.hello
                         Scenario.now)
  /\ Blob_type (String (ascii_of_nat 9) "text/plain") = "".
Proof. split; vm_compute; reflexivity. Qed.

Section RoundTrip.
Context `{W : WebCrypto} (L : WebCryptoLaws W).

(** A key pair from [generateRSAKeyPair]: what its two keys are. *)
Lemma generateRSAKeyPair_inv e K e' :
  generateRSAKeyPair e = (Ok K, e') ->
  K = mkKeyPair
        (mkCryptoKey Public true RSA_OAEP [Encrypt] (fst (fst (rsa_generate e))))
        (mkCryptoKey Private true RSA_OAEP [Decrypt] (snd (fst (rsa_generate e)))).
Proof.
  unfold generateRSAKeyPair, Subtle.generateKey_RSA. simpl.
  destruct (rsa_generate e) as [[spki pkcs8] e1]. simpl.
  intros E. inversion E. reflexivity.
Qed.

Lemma generateAESKey_ok e :
  exists raw e',
    generateAESKey e = (Ok (mkCryptoKey Secret true AES_GCM [Encrypt; Decrypt] raw), e')
    /\ List.length raw = 32.
Proof.
  unfold generateAESKey, Subtle.generateKey_AES. simpl.
  pose proof (random_length 32 e) as R.
  destruct (getRandomValues 32 e) as [raw e'] eqn:G. simpl in R.
  exists raw, e'. split; [reflexivity | exact R].
Qed.

(** C3: for every plaintext [P] and every key pair [K] that
    [generateRSAKeyPair] returns, [encryptFile P K.public] succeeds, whatever
    the state of the random source, and [decryptFile] applied to its output
    with [K.private] returns exactly [P]. The primitives are assumed to
    satisfy [WebCryptoLaws]. *)
Theorem encryptFile_decryptFile_roundtrip :
  forall (P : ArrayBuffer) (K : KeyPair) (e0 e1 e : Entropy),
    generateRSAKeyPair e0 = (Ok K, e1) ->
    exists ef e',
      encryptFile P (publicKey K) e = (Ok ef, e')
      /\ decryptFile (ef_encryptedData ef) (ef_encryptedKey ef) (ef_iv ef) (ef_authTag ef)
                     (privateKey K) = Ok P.
Proof.
  intros P K e0 e1 e G.
  rewrite (generateRSAKeyPair_inv e0 K e1 G). simpl.
  destruct (generateAESKey_ok e) as (raw & e2 & GA & Lraw).
  unfold encryptFile, Async.bind. rewrite GA.
  unfold encryptWithAES, Async.bind, Async.random, Async.lift, Async.ret.
  destruct (getRandomValues 12 e2) as [iv e3]. simpl.
  unfold encryptKeyWithRSA, Async.bind, Async.lift. simpl.
  unfold Subtle.encrypt_RSA_OAEP. simpl.
  assert (Lm : List.length raw <= rsa_oaep_max_message)
    by (rewrite Lraw; unfold rsa_oaep_max_message; lia).
  destruct (rsa_generate_inverse e0 raw e3 Lm) as (c & Enc & Dec).
  destruct (rsa_oaep_encrypt (fst (fst (rsa_generate e0))) raw e3) as [oc e4].
  simpl in Enc. subst oc.
  eexists. eexists. split; [reflexivity|]. simpl.
  unfold decryptFile, decryptKeyWithRSA, Res.bind, Subtle.decrypt_RSA_OAEP. simpl.
  rewrite Dec. unfold Subtle.importKey. simpl.
  rewrite Lraw. simpl.
  unfold decryptWithAES, Subtle.decrypt_AES_GCM. simpl.
  rewrite slice_parts.
  rewrite aes_gcm_tag.
  replace (List.length P + 16 <? 16)%nat with false
    by (symmetry; apply Nat.ltb_ge; lia).
  rewrite (aes_gcm_inverse raw iv P Lraw). reflexivity.
Qed.
End RoundTrip.

(** C3 on the scenario: Alice's key pair and "hello world". *)
Lemma encryptFile_decryptFile_on_the_scenario :
  @generateRSAKeyPair Scenario.W 0 = (Ok Scenario.alice_keys, 4)
  /\ exists ef e',
      @encryptFile Scenario.W Scenario.hello (publicKey Scenario.alice_keys) 100 = (Ok ef, e')
      /\ @decryptFile Scenario.W (ef_encryptedData ef) (ef_encryptedKey ef) (ef_iv ef)
           (ef_authTag ef) (privateKey Scenario.alice_keys) = Ok Scenario.hello.
Proof.
  split; [vm_compute; reflexivity|].
  apply (@encryptFile_decryptFile_roundtrip Scenario.W ReferenceFacts.laws
           Scenario.hello Scenario.alice_keys 0 4 100).
  vm_compute. reflexivity.
Defined.


(* ------------------------------------------------------------------ *)
(** ** Tables *)
(* ------------------------------------------------------------------ *)

Lemma pair_eqb_eq p q : pair_eqb p q = true <-> p = q.
Proof.
  unfold pair_eqb. destruct p as [a b], q as [c d]. simpl.
  rewrite andb_true_iff, !String.eqb_eq. split.
  - intros [-> ->]. reflexivity.
  - intros E. inversion E. auto.
Qed.

Lemma pair_eqb_refl p : pair_eqb p p = true.
Proof. apply pair_eqb_eq. reflexivity. Qed.

Lemma cuid_inj n m : cuid n = cuid m -> n = m.
Proof.
  unfold cuid. intros E. inversion E as [E'].
  apply DecimalNat.Unsigned.to_uint_inj.
  pose proof (NilEmpty.usu (Nat.to_uint n)) as U1.
  pose proof (NilEmpty.usu (Nat.to_uint m)) as U2.
  rewrite E' in U1. rewrite U1 in U2. inversion U2. reflexivity.
Qed.

Lemma logAuditEvent_fileShares now action u f d ip ua ok msg db :
  fileShares (logAuditEvent now action u f d ip ua ok msg db) = fileShares db.
Proof.
  unfold logAuditEvent, Prisma.auditLog_create.
  destruct (Prisma.references_ok u f db); reflexivity.
Qed.

Lemma logAuditEvent_files now action u f d ip ua ok msg db :
  files (logAuditEvent now action u f d ip ua ok msg db) = files db.
Proof.
  unfold logAuditEvent, Prisma.auditLog_create.
  destruct (Prisma.references_ok u f db); reflexivity.
Qed.

Lemma logAuditEvent_counter now action u f d ip ua ok msg db :
  cuid_counter db <= cuid_counter (logAuditEvent now action u f d ip ua ok msg db).
Proof.
  unfold logAuditEvent, Prisma.auditLog_create.
  destruct (Prisma.references_ok u f db); simpl; lia.
Qed.

Lemma fileShare_findUnique_ext fileId userId db db' :
  fileShares db' = fileShares db ->
  Prisma.fileShare_findUnique fileId userId db' = Prisma.fileShare_findUnique fileId userId db.
Proof. unfold Prisma.fileShare_findUnique. intros ->. reflexivity. Qed.

Lemma file_findUnique_ext fileId db db' :
  files db' = files db ->
  Prisma.file_findUnique fileId db' = Prisma.file_findUnique fileId db.
Proof. unfold Prisma.file_findUnique. intros ->. reflexivity. Qed.

(* ------------------------------------------------------------------ *)
(** ** validateFilePermission *)
(* ------------------------------------------------------------------ *)

Lemma existsb_includes3 (a b c : string) (l : list string) :
  existsb (fun p => JsString.includes [a; b; c] p) l
  = JsString.includes l a || JsString.includes l b || JsString.includes l c.
Proof.
  induction l as [|x l IH]; [reflexivity|].
  cbn [existsb]. rewrite IH. unfold JsString.includes. cbn [existsb].
  rewrite (String.eqb_sym x a), (String.eqb_sym x b), (String.eqb_sym x c).
  destruct (String.eqb a x), (String.eqb b x), (String.eqb c x),
    (existsb (String.eqb a) l), (existsb (String.eqb b) l), (existsb (String.eqb c) l);
    reflexivity.
Qed.

Lemma existsb_includes1 (a : string) (l : list string) :
  existsb (fun p => JsString.includes [a] p) l = JsString.includes l a.
Proof.
  induction l as [|x l IH]; [reflexivity|].
  cbn [existsb]. rewrite IH. unfold JsString.includes. cbn [existsb].
  rewrite orb_false_r, (String.eqb_sym x a). reflexivity.
Qed.

Lemma existsb_includes0 (l : list string) :
  existsb (fun p => JsString.includes [] p) l = false.
Proof. induction l; simpl; auto. Qed.

(** The check for a user who is not the owner and holds a share that is
    neither revoked nor expired. *)
Lemma validateFilePermission_active now fileId userId permission db file share :
  Prisma.file_findUnique fileId db = Some file ->
  File.ownerId file <> userId ->
  Prisma.fileShare_findUnique fileId userId db = Some share ->
  FileShare.isRevoked share = false ->
  expired now (FileShare.expiresAt share) = false ->
  validateFilePermission now fileId userId permission db
  = existsb (fun p => JsString.includes (permissionMap permission) p) (userPermissions share).
Proof.
  intros F O S R X. unfold validateFilePermission. rewrite F.
  apply String.eqb_neq in O. rewrite O, S, R, X. reflexivity.
Qed.

(** C5 (amended): for a user who is not the owner and holds a share that is
    neither revoked nor expired, the access check follows the fixed
    [permissionMap]: a [read] requirement passes exactly when the share
    grants [read], [download] or [share]; [write] exactly when it grants
    [write]; [share] exactly when it grants [share]; [delete] never. *)
Theorem validateFilePermission_follows_permissionMap :
  forall (now : DateTime) (fileId userId : Id) (db : DB) (file : File.t) (share : FileShare.t),
    Prisma.file_findUnique fileId db = Some file ->
    File.ownerId file <> userId ->
    Prisma.fileShare_findUnique fileId userId db = Some share ->
    FileShare.isRevoked share = false ->
    expired now (FileShare.expiresAt share) = false ->
    validateFilePermission now fileId userId PermRead db
    = granted share "read" || granted share "download" || granted share "share"
    /\ validateFilePermission now fileId userId PermWrite db = granted share "write"
    /\ validateFilePermission now fileId userId PermShare db = granted share "share"
    /\ validateFilePermission now fileId userId PermDelete db = false.
Proof.
  intros now fileId userId db file share F O S R X.
  rewrite !(fun p => validateFilePermission_active now fileId userId p db file share F O S R X).
  unfold granted. simpl permissionMap.
  rewrite existsb_includes3, !existsb_includes1, existsb_includes0. auto.
Qed.

(** C5, the claim as stated fails: Bob's share grants [download] and
    nothing else, [read] is not among its entries, and the check for
    [read] passes. *)
Lemma download_grant_satisfies_read :
  option_map userPermissions
    (Prisma.fileShare_findUnique "f-report" "u-bob" Scenario.db_download_only)
  = Some ["download"]
  /\ JsString.includes ["download"] (permission_name PermRead) = false
  /\ validateFilePermission Scenario.now "f-report" "u-bob" PermRead Scenario.db_download_only
     = true.
Proof. vm_compute. auto. Qed.

(** C5 (amended) on the scenario: Bob's share of read and download. *)
Lemma validateFilePermission_on_the_scenario :
  validateFilePermission Scenario.now "f-report" "u-bob" PermRead Scenario.db1
  = granted (Scenario.bob_share Scenario.db1) "read"
    || granted (Scenario.bob_share Scenario.db1) "download"
    || granted (Scenario.bob_share Scenario.db1) "share"
  /\ validateFilePermission Scenario.now "f-report" "u-bob" PermWrite Scenario.db1
     = granted (Scenario.bob_share Scenario.db1) "write"
  /\ validateFilePermission Scenario.now "f-report" "u-bob" PermShare Scenario.db1
     = granted (Scenario.bob_share Scenario.db1) "share"
  /\ validateFilePermission Scenario.now "f-report" "u-bob" PermDelete Scenario.db1 = false.
Proof.
  apply (validateFilePermission_follows_permissionMap
           Scenario.now "f-report" "u-bob" Scenario.db1 Scenario.report
           (Scenario.bob_share Scenario.db1)).
  - vm_compute. reflexivity.
  - vm_compute. discriminate.
  - vm_compute. reflexivity.
  - vm_compute. reflexivity.
  - vm_compute. reflexivity.
Defined.


(** C8: for a user who is not the owner and whose share has an expiry
    strictly before the current time, the access check returns [false] for
    every required permission, and the download route answers 403; the
    revoked flag plays no part. *)
Theorem expired_share_is_denied :
  forall (now : DateTime) (req : Request) (user : AuthUser) (fileId : Id)
         (permission : Permission) (db : DB) (share : FileShare.t) (t : DateTime),
    auth req = Some user ->
    (forall file, Prisma.file_findUnique fileId db = Some file ->
                  File.ownerId file <> au_id user) ->
    Prisma.fileShare_findUnique fileId (au_id user) db = Some share ->
    FileShare.expiresAt share = Some t ->
    (t < now)%Z ->
    validateFilePermission now fileId (au_id user) permission db = false
    /\ status (fst (download_GET now req fileId db)) = 403.
Proof.
  intros now req user fileId permission db share t A O S E T.
  assert (V : forall p, validateFilePermission now fileId (au_id user) p db = false).
  { intros p. unfold validateFilePermission.
    destruct (Prisma.file_findUnique fileId db) as [file|] eqn:F; [|reflexivity].
    specialize (O file eq_refl). apply String.eqb_neq in O. rewrite O, S.
    unfold expired. rewrite E. apply Z.ltb_lt in T. rewrite T.
    rewrite orb_true_r. reflexivity. }
  split; [apply V|].
  unfold download_GET. rewrite A, V. reflexivity.
Qed.

(** C8 on the scenario: a share that expired in 2020 and is not revoked. *)
Lemma expired_share_on_the_scenario :
  FileShare.isRevoked (Scenario.bob_share Scenario.db_expired) = false
  /\ validateFilePermission Scenario.now "f-report" "u-bob" PermRead Scenario.db_expired
     = false
  /\ status (fst (download_GET Scenario.now (Scenario.as_user Scenario.bob JNull)
                               "f-report" Scenario.db_expired)) = 403.
Proof.
  split; [vm_compute; reflexivity|].
  apply (expired_share_is_denied
           Scenario.now (Scenario.as_user Scenario.bob JNull)
           (mkAuthUser "u-bob" "bob@example.com" "bob" (User.publicKey Scenario.bob))
           "f-report" PermRead Scenario.db_expired
           (Scenario.bob_share Scenario.db_expired) 1577836800000%Z).
  - vm_compute. reflexivity.
  - intros file F. vm_compute in F. inversion F. vm_compute. discriminate.
  - vm_compute. reflexivity.
  - vm_compute. reflexivity.
  - vm_compute. reflexivity.
Defined.

(* ------------------------------------------------------------------ *)
(** ** DELETE /api/files/[id] *)
(* ------------------------------------------------------------------ *)

Lemma file_softDelete_inv now fileId db db1 :
  Prisma.file_softDelete now fileId db = Ok db1 ->
  fileShares db1 = fileShares db
  /\ Prisma.file_findUnique fileId db1
     = option_map (Prisma.mark_deleted now) (Prisma.file_findUnique fileId db).
Proof.
  unfold Prisma.file_softDelete.
  destruct (Prisma.file_findUnique fileId db) as [file|] eqn:F; [|discriminate].
  intros E. inversion E. subst db1. clear E. split; [reflexivity|].
  unfold Prisma.file_findUnique in *. simpl.
  rewrite find_map_same with (g := fun f => if String.eqb (File.id f) fileId
                                            then Prisma.mark_deleted now f else f).
  - rewrite F. simpl. apply find_some in F. destruct F as [_ F]. rewrite F. reflexivity.
  - intros x. destruct (String.eqb (File.id x) fileId) eqn:E; simpl; rewrite E; reflexivity.
Qed.

Lemma revokeMany_shares now fileId by_ db s :
  In s (fileShares (Prisma.fileShare_revokeMany now fileId by_ db)) ->
  FileShare.fileId s = fileId ->
  FileShare.isRevoked s = true
  /\ FileShare.revokedAt s = Some now
  /\ FileShare.revokedBy s = Some by_.
Proof.
  unfold Prisma.fileShare_revokeMany. simpl. rewrite in_map_iff.
  intros (s0 & E & _) F.
  destruct (String.eqb (FileShare.fileId s0) fileId) eqn:Q.
  - subst s. simpl. auto.
  - subst s. apply String.eqb_neq in Q. contradiction.
Qed.

(** The share table after [fileShare_revokeMany]: the rows of the file
    are marked, every other row is as it was, and no row is added or
    dropped. *)
Lemma revokeMany_table now fileId by_ db :
  (forall s, In s (fileShares db) -> FileShare.fileId s = fileId ->
             exists s', In s' (fileShares (Prisma.fileShare_revokeMany now fileId by_ db))
                        /\ marked_revoked now by_ s s')
  /\ (forall s, In s (fileShares db) -> FileShare.fileId s <> fileId ->
                In s (fileShares (Prisma.fileShare_revokeMany now fileId by_ db)))
  /\ map FileShare.id (fileShares (Prisma.fileShare_revokeMany now fileId by_ db))
     = map FileShare.id (fileShares db).
Proof.
  unfold Prisma.fileShare_revokeMany. cbn [Prisma.set_fileShares fileShares].
  split; [|split].
  - intros s I F. exists (Prisma.revoke now by_ s). split.
    + apply in_map_iff. exists s. split; [|exact I].
      apply String.eqb_eq in F. rewrite F. reflexivity.
    + unfold marked_revoked. simpl. repeat split.
  - intros s I F. apply in_map_iff. exists s. split; [|exact I].
    apply String.eqb_neq in F. rewrite F. reflexivity.
  - rewrite map_map. apply map_ext. intros s.
    destruct (String.eqb (FileShare.fileId s) fileId); reflexivity.
Qed.

(** C7: when the delete route answers 200 for a file, the caller is its
    owner. Every share row the file had before the call is still on
    record, the same in every other column, and marked revoked with the
    time of the call and the caller as revoker; the shares of other files
    are untouched and no row is added or dropped. Every share row of the
    file in the resulting database is so marked, and from then on the
    access check returns [false] for every user other than the owner,
    whatever the permission and the time. *)
Theorem delete_revokes_every_share :
  forall (now : DateTime) (req : Request) (fileId : Id) (db db' : DB) (resp : Response),
    file_DELETE now req fileId db = (resp, db') ->
    status resp = 200 ->
    exists user file,
      auth req = Some user
      /\ Prisma.file_findUnique fileId db = Some file
      /\ File.ownerId file = au_id user
      /\ (forall s, In s (fileShares db) -> FileShare.fileId s = fileId ->
                    exists s', In s' (fileShares db')
                               /\ marked_revoked now (au_id user) s s')
      /\ (forall s, In s (fileShares db) -> FileShare.fileId s <> fileId ->
                    In s (fileShares db'))
      /\ map FileShare.id (fileShares db') = map FileShare.id (fileShares db)
      /\ (forall s, In s (fileShares db') -> FileShare.fileId s = fileId ->
                    FileShare.isRevoked s = true
                    /\ FileShare.revokedAt s = Some now
                    /\ FileShare.revokedBy s = Some (au_id user))
      /\ (forall (userId : Id) (permission : Permission) (later : DateTime),
             userId <> File.ownerId file ->
             validateFilePermission later fileId userId permission db' = false).
Proof.
  intros now req fileId db db' resp D S200. unfold file_DELETE in D.
  destruct (auth req) as [user|] eqn:A;
    [|inversion D; subst; discriminate].
  destruct (Prisma.file_findUnique fileId db) as [file|] eqn:F;
    [|inversion D; subst; discriminate].
  destruct (String.eqb (File.ownerId file) (au_id user)) eqn:O; simpl in D;
    [|inversion D; subst; discriminate].
  destruct (File.isDeleted file); [inversion D; subst; discriminate|].
  destruct (Prisma.file_softDelete now fileId db) as [db1|e] eqn:SD;
    [|inversion D; subst; discriminate].
  inversion D. subst resp db'. clear D.
  apply String.eqb_eq in O.
  destruct (file_softDelete_inv now fileId db db1 SD) as [S1 F1].
  rewrite F in F1. simpl in F1.
  assert (R : forall s,
             In s (fileShares (logAuditEvent now "file_delete" (Some (au_id user)) (Some fileId)
                                (JObj [("filename", JStr (File.filename file))])
                                (clientIP req) (userAgent req) true None
                                (Prisma.fileShare_revokeMany now fileId (au_id user) db1))) ->
             FileShare.fileId s = fileId ->
             FileShare.isRevoked s = true
             /\ FileShare.revokedAt s = Some now
             /\ FileShare.revokedBy s = Some (au_id user)).
  { intros s. rewrite logAuditEvent_fileShares. apply revokeMany_shares. }
  destruct (revokeMany_table now fileId (au_id user) db1) as (T1 & T2 & T3).
  rewrite S1 in T1, T2, T3.
  exists user, file.
  split; [reflexivity|]. split; [reflexivity|]. split; [exact O|].
  split; [intros s I Fs; rewrite logAuditEvent_fileShares; exact (T1 s I Fs)|].
  split; [intros s I Fs; rewrite logAuditEvent_fileShares; exact (T2 s I Fs)|].
  split; [rewrite logAuditEvent_fileShares; exact T3|].
  split; [exact R|].
  intros userId permission later NO.
  unfold validateFilePermission, Prisma.file_findUnique, Prisma.fileShare_findUnique.
  rewrite logAuditEvent_files. simpl files.
  unfold Prisma.file_findUnique in F1. rewrite F1. simpl File.ownerId.
  apply not_eq_sym in NO. apply String.eqb_neq in NO. rewrite NO.
  match goal with
  | |- context [find ?p ?l] => destruct (find p l) as [share|] eqn:FS; [|reflexivity]
  end.
  apply find_some in FS. destruct FS as [I P].
  apply pair_eqb_eq in P. injection P as Pf _.
  destruct (R share I Pf) as (Rv & _). rewrite Rv. reflexivity.
Qed.

(** C7 on the scenario: Alice deletes the report while Bob and Carol each
    hold an active share of it. Before the call both shares are active;
    after it both are on record as revoked by Alice at the time of the
    call, and the access check refuses Bob and Carol. *)
Lemma delete_on_the_scenario :
  status (fst Walkthrough.deletion_of_two) = 200
  /\ map (fun s => (FileShare.sharedWithId s, FileShare.isRevoked s))
         (fileShares Walkthrough.db_two_shares)
     = [("u-bob", false); ("u-carol", false)]
  /\ map (fun s => (FileShare.sharedWithId s, FileShare.isRevoked s,
                    FileShare.revokedAt s, FileShare.revokedBy s))
         (fileShares (snd Walkthrough.deletion_of_two))
     = [("u-bob", true, Some (Scenario.now + 2000)%Z, Some "u-alice");
        ("u-carol", true, Some (Scenario.now + 2000)%Z, Some "u-alice")]
  /\ exists user file,
      auth (Scenario.as_user Scenario.alice JNull) = Some user
      /\ Prisma.file_findUnique "f-report" Walkthrough.db_two_shares = Some file
      /\ File.ownerId file = au_id user
      /\ (forall s, In s (fileShares Walkthrough.db_two_shares) ->
                    FileShare.fileId s = "f-report" ->
                    exists s', In s' (fileShares (snd Walkthrough.deletion_of_two))
                               /\ marked_revoked (Scenario.now + 2000)%Z (au_id user) s s')
      /\ (forall s, In s (fileShares Walkthrough.db_two_shares) ->
                    FileShare.fileId s <> "f-report" ->
                    In s (fileShares (snd Walkthrough.deletion_of_two)))
      /\ map FileShare.id (fileShares (snd Walkthrough.deletion_of_two))
         = map FileShare.id (fileShares Walkthrough.db_two_shares)
      /\ (forall s, In s (fileShares (snd Walkthrough.deletion_of_two)) ->
                    FileShare.fileId s = "f-report" ->
                    FileShare.isRevoked s = true
                    /\ FileShare.revokedAt s = Some (Scenario.now + 2000)%Z
                    /\ FileShare.revokedBy s = Some (au_id user))
      /\ (forall (userId : Id) (permission : Permission) (later : DateTime),
             userId <> File.ownerId file ->
             validateFilePermission later "f-report" userId permission
                                    (snd Walkthrough.deletion_of_two) = false).
Proof.
  split; [vm_compute; reflexivity|].
  split; [vm_compute; reflexivity|].
  split; [vm_compute; reflexivity|].
  apply (delete_revokes_every_share
           (Scenario.now + 2000)%Z (Scenario.as_user Scenario.alice JNull) "f-report"
           Walkthrough.db_two_shares (snd Walkthrough.deletion_of_two)
           (fst Walkthrough.deletion_of_two)).
  - vm_compute. reflexivity.
  - vm_compute. reflexivity.
Defined.

(* ------------------------------------------------------------------ *)
(** ** POST /api/auth/login *)
(* ------------------------------------------------------------------ *)

Section LoginFacts.
Context `{W : WebCrypto} `{S : ServerEnv}.

(** C9: two login attempts that pass the input check, one for an email
    that matches no user and one for an existing email with a password
    that does not verify, receive the same response: status 401 with the
    body [{ error: 'Credenciales inválidas' }]. *)
Theorem login_failures_look_alike :
  forall (now1 now2 : DateTime) (req1 req2 : Request) (body1 body2 : Json)
         (input1 input2 : LoginInput) (db1 db2 : DB) (e1 e2 : Entropy) (user : User.t),
    json req1 = Ok body1 ->
    loginSchema_safeParse body1 = inr input1 ->
    Prisma.user_findUnique_email (li_email input1) db1 = None ->
    json req2 = Ok body2 ->
    loginSchema_safeParse body2 = inr input2 ->
    Prisma.user_findUnique_email (li_email input2) db2 = Some user ->
    verifyPassword (li_password input2) (User.passwordHash user) = false ->
    fst (fst (login_POST now1 req1 db1 e1)) = fst (fst (login_POST now2 req2 db2 e2))
    /\ fst (fst (login_POST now1 req1 db1 e1))
       = mkResponse 401 (JObj [("error", JStr "Credenciales inválidas")]).
Proof.
  intros now1 now2 req1 req2 body1 body2 input1 input2 db1 db2 e1 e2 user
         J1 P1 U1 J2 P2 U2 V.
  unfold login_POST. rewrite J1, P1, U1, J2, P2, U2, V. simpl. split; reflexivity.
Qed.
End LoginFacts.

(** C9 on the scenario: an unknown address, and Alice's address with a
    wrong password. *)
Lemma login_failures_on_the_scenario :
  fst (fst (@login_POST Scenario.W Scenario.S Scenario.now
              (Scenario.anonymous (Scenario.login_body "carol@example.com" "guess"))
              Scenario.db1 0))
  = fst (fst (@login_POST Scenario.W Scenario.S Scenario.now
                (Scenario.anonymous (Scenario.login_body "alice@example.com" "guess"))
                Scenario.db1 0))
  /\ fst (fst (@login_POST Scenario.W Scenario.S Scenario.now
                 (Scenario.anonymous (Scenario.login_body "carol@example.com" "guess"))
                 Scenario.db1 0))
     = mkResponse 401 (JObj [("error", JStr "Credenciales inválidas")]).
Proof.
  apply (@login_failures_look_alike Scenario.W Scenario.S
           Scenario.now Scenario.now
           (Scenario.anonymous (Scenario.login_body "carol@example.com" "guess"))
           (Scenario.anonymous (Scenario.login_body "alice@example.com" "guess"))
           (Scenario.login_body "carol@example.com" "guess")
           (Scenario.login_body "alice@example.com" "guess")
           (mkLoginInput "carol@example.com" "guess")
           (mkLoginInput "alice@example.com" "guess")
           Scenario.db1 Scenario.db1 0 0 Scenario.alice).
  - reflexivity.
  - vm_compute. reflexivity.
  - vm_compute. reflexivity.
  - reflexivity.
  - vm_compute. reflexivity.
  - vm_compute. reflexivity.
  - vm_compute. reflexivity.
Defined.


(* ------------------------------------------------------------------ *)
(** ** POST /api/files/[id]/share *)
(* ------------------------------------------------------------------ *)

Lemma shares_wf_mono db db' :
  fileShares db' = fileShares db -> cuid_counter db <= cuid_counter db' ->
  shares_wf db -> shares_wf db'.
Proof.
  unfold shares_wf, one_share_per_pair, share_ids_fresh.
  intros E C (P & I & F). rewrite E. repeat split; auto.
  intros n Hn. apply F. lia.
Qed.

Lemma shares_wf_logAuditEvent now action u f d ip ua ok msg db :
  shares_wf db -> shares_wf (logAuditEvent now action u f d ip ua ok msg db).
Proof.
  apply shares_wf_mono;
    [apply logAuditEvent_fileShares | apply logAuditEvent_counter].
Qed.

Lemma empty_shares_wf db : fileShares db = [] -> shares_wf db.
Proof.
  unfold shares_wf, one_share_per_pair, share_ids_fresh. intros ->. simpl.
  repeat split; try constructor. intros n _ [].
Qed.

Section ShareWrites.
Variables (now : DateTime) (d : Prisma.ShareData).

Lemma update_row_id i s : FileShare.id (update_row now d i s) = FileShare.id s.
Proof. unfold update_row. destruct (String.eqb (FileShare.id s) i); reflexivity. Qed.

Lemma apply_ShareData_written s : written_from d (Prisma.apply_ShareData now d s).
Proof. unfold written_from. simpl. repeat split. Qed.

(** Updating the row found under the pair that the data carries keeps
    every row's pair. *)
Lemma update_row_pairs db existing :
  NoDup (map FileShare.id (fileShares db)) ->
  Prisma.fileShare_findUnique (Prisma.sd_fileId d) (Prisma.sd_sharedWithId d) db
  = Some existing ->
  map FileShare.pair (map (update_row now d (FileShare.id existing)) (fileShares db))
  = map FileShare.pair (fileShares db).
Proof.
  intros N F. unfold Prisma.fileShare_findUnique in F.
  apply find_some in F. destruct F as [I P]. apply pair_eqb_eq in P.
  rewrite map_map. apply map_ext_in. intros s Is. unfold update_row.
  destruct (String.eqb (FileShare.id s) (FileShare.id existing)) eqn:E; [|reflexivity].
  apply String.eqb_eq in E.
  rewrite (NoDup_map_inj FileShare.id (fileShares db) s existing N Is I E).
  rewrite P. reflexivity.
Qed.

(** After the update, the look-up under the pair finds a row written from
    the data. *)
Lemma find_after_update l existing :
  find (fun s => pair_eqb (FileShare.pair s) (Prisma.sd_fileId d, Prisma.sd_sharedWithId d)) l
  = Some existing ->
  exists r,
    find (fun s => pair_eqb (FileShare.pair s) (Prisma.sd_fileId d, Prisma.sd_sharedWithId d))
         (map (update_row now d (FileShare.id existing)) l) = Some r
    /\ written_from d r.
Proof.
  induction l as [|s l IH]; simpl; [discriminate|].
  destruct (pair_eqb (FileShare.pair s) (Prisma.sd_fileId d, Prisma.sd_sharedWithId d)) eqn:P.
  - intros E. inversion E. subst s. unfold update_row. rewrite String.eqb_refl.
    change (FileShare.pair (Prisma.apply_ShareData now d existing))
      with (Prisma.sd_fileId d, Prisma.sd_sharedWithId d).
    rewrite pair_eqb_refl.
    eexists. split; [reflexivity | apply apply_ShareData_written].
  - intros F.
    destruct (String.eqb (FileShare.id s) (FileShare.id existing)) eqn:Q.
    + assert (U : update_row now d (FileShare.id existing) s = Prisma.apply_ShareData now d s)
        by (unfold update_row; rewrite Q; reflexivity).
      rewrite U.
      change (FileShare.pair (Prisma.apply_ShareData now d s))
        with (Prisma.sd_fileId d, Prisma.sd_sharedWithId d).
      rewrite pair_eqb_refl.
      eexists. split; [reflexivity | apply apply_ShareData_written].
    + assert (U : update_row now d (FileShare.id existing) s = s)
        by (unfold update_row; rewrite Q; reflexivity).
      rewrite U, P. apply IH. exact F.
Qed.

Lemma fileShare_update_inv db existing row db' :
  Prisma.fileShare_findUnique (Prisma.sd_fileId d) (Prisma.sd_sharedWithId d) db
  = Some existing ->
  Prisma.fileShare_update now (FileShare.id existing) d db = Ok (row, db') ->
  fileShares db' = map (update_row now d (FileShare.id existing)) (fileShares db)
  /\ cuid_counter db' = cuid_counter db
  /\ files db' = files db
  /\ exists r,
      Prisma.fileShare_findUnique (Prisma.sd_fileId d) (Prisma.sd_sharedWithId d) db' = Some r
      /\ written_from d r.
Proof.
  intros F U. unfold Prisma.fileShare_update in U.
  destruct (Prisma.fileShare_findUnique_id (FileShare.id existing) db); [|discriminate].
  inversion U. subst row db'. clear U. simpl.
  repeat split. apply find_after_update. exact F.
Qed.

Lemma fileShare_create_inv db row db' :
  Prisma.fileShare_create now d db = Ok (row, db') ->
  Prisma.fileShare_findUnique (Prisma.sd_fileId d) (Prisma.sd_sharedWithId d) db = None
  /\ fileShares db' = fileShares db ++ [row]
  /\ FileShare.id row = cuid (cuid_counter db)
  /\ cuid_counter db' = S (cuid_counter db)
  /\ files db' = files db
  /\ written_from d row
  /\ Prisma.fileShare_findUnique (Prisma.sd_fileId d) (Prisma.sd_sharedWithId d) db' = Some row.
Proof.
  unfold Prisma.fileShare_create.
  destruct (Prisma.file_findUnique (Prisma.sd_fileId d) db); [|discriminate].
  destruct (Prisma.user_findUnique (Prisma.sd_sharedWithId d) db); [|discriminate].
  destruct (Prisma.fileShare_findUnique (Prisma.sd_fileId d) (Prisma.sd_sharedWithId d) db)
    eqn:F; [discriminate|].
  simpl. intros E. inversion E. subst row db'. clear E. simpl.
  repeat split.
  unfold Prisma.fileShare_findUnique in *. simpl.
  rewrite (find_app_none _ _ _ F). simpl.
  unfold FileShare.pair. simpl. rewrite pair_eqb_refl. reflexivity.
Qed.

(** Both writes keep the table well formed. *)
Lemma shares_wf_update db existing row db' :
  shares_wf db ->
  Prisma.fileShare_findUnique (Prisma.sd_fileId d) (Prisma.sd_sharedWithId d) db
  = Some existing ->
  Prisma.fileShare_update now (FileShare.id existing) d db = Ok (row, db') ->
  shares_wf db'.
Proof.
  intros (P & I & Fr) F U.
  destruct (fileShare_update_inv db existing row db' F U) as (S' & C & _).
  unfold shares_wf, one_share_per_pair, share_ids_fresh in *.
  assert (Ids : map FileShare.id (fileShares db') = map FileShare.id (fileShares db)).
  { rewrite S', map_map. apply map_ext. intros s. apply update_row_id. }
  rewrite Ids, C, S', (update_row_pairs db existing I F). auto.
Qed.

Lemma shares_wf_create db row db' :
  shares_wf db ->
  Prisma.fileShare_create now d db = Ok (row, db') ->
  shares_wf db'.
Proof.
  intros (P & I & Fr) Cr.
  destruct (fileShare_create_inv db row db' Cr) as (F & S' & Id & C & _ & Wr & _).
  unfold shares_wf, one_share_per_pair, share_ids_fresh in *.
  rewrite S', C, !map_app. simpl. split; [|split].
  - apply NoDup_snoc; [exact P|].
    intros In'. apply in_map_iff in In'. destruct In' as (s & E & Is).
    unfold Prisma.fileShare_findUnique in F.
    apply (find_none _ _ F) in Is.
    destruct Wr as (W1 & W2 & _).
    assert (Q : FileShare.pair s = (Prisma.sd_fileId d, Prisma.sd_sharedWithId d))
      by (rewrite E; unfold FileShare.pair; rewrite W1, W2; reflexivity).
    apply pair_eqb_eq in Q. rewrite Q in Is. discriminate.
  - apply NoDup_snoc; [exact I|]. rewrite Id. apply Fr. lia.
  - intros n Hn In'. apply in_app_or in In'. destruct In' as [In'|[E|[]]].
    + apply (Fr n); [lia | exact In'].
    + rewrite Id in E. apply cuid_inj in E. lia.
Qed.
End ShareWrites.

(** The entries [validateSharePermissions] accepts are their own trimmed
    form and contain no comma. *)
Lemma valid_permission_plain p :
  JsString.includes ["read"; "download"; "share"] p = true ->
  JsString.trim p = p /\ ~ In ","%char (JsString.chars p).
Proof.
  unfold JsString.includes. simpl. rewrite !orb_true_iff, !String.eqb_eq.
  intros [E|[E|[E|E]]]; try discriminate; subst p; (split; [reflexivity|]);
    simpl; intros H; repeat (destruct H as [H|H]; [discriminate|]); exact H.
Qed.

(** The permission column written by a share call reads back as the
    call's list. *)
Lemma userPermissions_of_join (share : FileShare.t) (permissions : list string) :
  validateSharePermissions permissions = true ->
  FileShare.permissions share = JsString.join "," permissions ->
  userPermissions share = permissions.
Proof.
  unfold validateSharePermissions, userPermissions. intros V E. rewrite E.
  destruct permissions as [|p ps]; [discriminate|].
  simpl List.length in V. cbn [Nat.eqb] in V.
  rewrite forallb_forall in V.
  rewrite JsStringFacts.split_join.
  - rewrite <- (map_id (p :: ps)) at 2. apply map_ext_in.
    intros q Iq. apply valid_permission_plain. apply V. exact Iq.
  - discriminate.
  - apply Forall_forall. intros q Iq. apply valid_permission_plain. apply V. exact Iq.
Qed.

Lemma granted_read_of_valid (permissions : list string) :
  validateSharePermissions permissions = true ->
  existsb (fun p => JsString.includes (permissionMap PermRead) p) permissions = true.
Proof.
  unfold validateSharePermissions.
  destruct permissions as [|p ps]; [discriminate|].
  simpl List.length. cbn [Nat.eqb]. intros V.
  apply andb_prop in V. destruct V as [Vp _].
  cbn [existsb]. simpl permissionMap. rewrite Vp. reflexivity.
Qed.


Section ShareRouteFacts.
Context `{W : WebCrypto} `{S : ServerEnv}.

(** What a successful write of the route leaves behind. *)
Lemma share_write_inv now req fileId user input file target db resp db' :
  share_write now req fileId user input file target
              (Prisma.fileShare_findUnique fileId (User.id target) db) db = Ok (resp, db') ->
  status resp = 201
  /\ files db' = files db
  /\ (shares_wf db -> shares_wf db')
  /\ exists share,
      Prisma.fileShare_findUnique fileId (User.id target) db' = Some share
      /\ written_from (share_data fileId user input file target) share.
Proof.
  unfold share_write, Res.bind.
  destruct (importPublicKeyFromPEM (User.publicKey target)); [|discriminate].
  fold (share_data fileId user input file target).
  set (d := share_data fileId user input file target).
  destruct (Prisma.fileShare_findUnique fileId (User.id target) db) as [existing|] eqn:F.
  - destruct (Prisma.fileShare_update now (FileShare.id existing) d db)
      as [[share db1]|] eqn:U; [|discriminate].
    intros E. inversion E. subst resp db'. clear E.
    destruct (fileShare_update_inv now d db existing share db1 F U)
      as (_ & _ & Fi & r & Fr & Wr).
    split; [reflexivity|]. split; [rewrite logAuditEvent_files; exact Fi|].
    split.
    + intros Wf. apply shares_wf_logAuditEvent.
      exact (shares_wf_update now d db existing share db1 Wf F U).
    + exists r. split; [|exact Wr].
      rewrite (fileShare_findUnique_ext fileId (User.id target) db1); [exact Fr|].
      apply logAuditEvent_fileShares.
  - destruct (Prisma.fileShare_create now d db) as [[share db1]|] eqn:C; [|discriminate].
    intros E. inversion E. subst resp db'. clear E.
    destruct (fileShare_create_inv now d db share db1 C)
      as (_ & _ & _ & _ & Fi & Wr & Fr).
    split; [reflexivity|]. split; [rewrite logAuditEvent_files; exact Fi|].
    split.
    + intros Wf. apply shares_wf_logAuditEvent.
      exact (shares_wf_create now d db share db1 Wf C).
    + exists share. split; [|exact Wr].
      rewrite (fileShare_findUnique_ext fileId (User.id target) db1); [exact Fr|].
      apply logAuditEvent_fileShares.
Qed.

(** The outcomes of the route: an answer other than 201 that leaves files
    and shares alone, or a valid call whose write succeeded. *)
Lemma share_POST_inv now req fileId db resp db' :
  share_POST now req fileId db = (resp, db') ->
  (status resp <> 201
   /\ fileShares db' = fileShares db
   /\ files db' = files db
   /\ cuid_counter db <= cuid_counter db')
  \/ exists user input file target,
      share_call_valid req fileId db user input file target
      /\ (forall existing,
             Prisma.fileShare_findUnique fileId (User.id target) db = Some existing ->
             FileShare.isRevoked existing = true)
      /\ share_write now req fileId user input file target
                     (Prisma.fileShare_findUnique fileId (User.id target) db) db
         = Ok (resp, db').
Proof.
  unfold share_POST.
  assert (Fail : forall action f e r d,
             route_failure now action f req e db = (r, d) ->
             status r <> 201 /\ fileShares d = fileShares db /\ files d = files db
             /\ cuid_counter db <= cuid_counter d).
  { unfold route_failure. intros action f e r d E. inversion E. subst.
    repeat split; [discriminate | apply logAuditEvent_fileShares
                   | apply logAuditEvent_files | apply logAuditEvent_counter]. }
  assert (Same : forall st b, (mkResponse st b, db) = (resp, db') -> st <> 201 ->
             status resp <> 201 /\ fileShares db' = fileShares db /\ files db' = files db
             /\ cuid_counter db <= cuid_counter db').
  { intros st b E N. inversion E. subst. simpl. auto. }
  destruct (auth req) as [user|] eqn:A; [|intros E; left; eapply Fail; eauto].
  destruct (json req) as [body|e] eqn:J; [|intros E; left; eapply Fail; eauto].
  destruct (shareSchema_safeParse body) as [issues|input] eqn:P;
    [intros E; left; eapply Same; [exact E | discriminate]|].
  destruct (validateSharePermissions (si_permissions input)) eqn:V; simpl;
    [|intros E; left; eapply Same; [exact E | discriminate]].
  destruct (Prisma.file_findUnique fileId db) as [file|] eqn:F;
    [|intros E; left; eapply Same; [exact E | discriminate]].
  destruct (String.eqb (File.ownerId file) (au_id user)) eqn:O; simpl;
    [|intros E; left; eapply Same; [exact E | discriminate]].
  destruct (File.isDeleted file) eqn:Del;
    [intros E; left; eapply Same; [exact E | discriminate]|].
  destruct (Prisma.user_findUnique_email (si_userEmail input) db) as [target|] eqn:T;
    [|intros E; left; eapply Same; [exact E | discriminate]].
  destruct (String.eqb (User.id target) (au_id user)) eqn:Self;
    [intros E; left; eapply Same; [exact E | discriminate]|].
  destruct (match Prisma.fileShare_findUnique fileId (User.id target) db with
            | Some existing => negb (FileShare.isRevoked existing)
            | None => false
            end) eqn:Active;
    [intros E; left; eapply Same; [exact E | discriminate]|].
  destruct (validatePublicKey (User.publicKey target)); simpl;
    [|intros E; left; eapply Same; [exact E | discriminate]].
  destruct (share_write now req fileId user input file target
              (Prisma.fileShare_findUnique fileId (User.id target) db) db)
    as [[r d]|e] eqn:Wr;
    [|intros E; left; eapply Same; [exact E | discriminate]].
  intros E. inversion E. subst r d. right.
  exists user, input, file, target. split; [|split; [|exact Wr]].
  - unfold share_call_valid. repeat split; auto.
    + exists body. auto.
    + apply String.eqb_eq. exact O.
    + apply String.eqb_neq. exact Self.
  - intros existing Fe. rewrite Fe in Active.
    destruct (FileShare.isRevoked existing); [reflexivity | discriminate].
Qed.

(** The route keeps the share table well formed. *)
Lemma share_POST_keeps_wf now req fileId db resp db' :
  shares_wf db -> share_POST now req fileId db = (resp, db') -> shares_wf db'.
Proof.
  intros Wf E.
  destruct (share_POST_inv now req fileId db resp db' E)
    as [(_ & Sh & _ & C)|(user & input & file & target & _ & _ & Wr)].
  - exact (shares_wf_mono db db' Sh C Wf).
  - destruct (share_write_inv now req fileId user input file target db resp db' Wr)
      as (_ & _ & Pres & _). exact (Pres Wf).
Qed.

(** The route on a valid call, by the share already on record. *)
Lemma share_POST_valid now req fileId db user input file target :
  share_call_valid req fileId db user input file target ->
  share_POST now req fileId db
  = let existingShare := Prisma.fileShare_findUnique fileId (User.id target) db in
    if match existingShare with
       | Some existing => negb (FileShare.isRevoked existing)
       | None => false
       end
    then (conflict_response, db)
    else if negb (validatePublicKey (User.publicKey target))
    then (mkResponse 400
            (error_body "El usuario destinatario tiene una clave pública inválida"), db)
    else match share_write now req fileId user input file target existingShare db with
         | Ok out => out
         | Throw _ =>
             (mkResponse 500 (error_body "Error procesando claves criptográficas"), db)
         end.
Proof.
  intros (A & (body & J & P) & V & F & O & Del & T & Self).
  unfold share_POST. rewrite A, J, P, V, F, Del, T. simpl.
  apply String.eqb_eq in O. rewrite O. simpl.
  apply String.eqb_neq in Self. rewrite Self. reflexivity.
Qed.

(** What the recipient's download answers once a placeholder share is on
    record. *)
Lemma download_GET_placeholder later req fileId db recipient file share permissions :
  auth req = Some recipient ->
  Prisma.file_findUnique fileId db = Some file ->
  File.ownerId file <> au_id recipient ->
  File.isDeleted file = false ->
  Prisma.fileShare_findUnique fileId (au_id recipient) db = Some share ->
  FileShare.isRevoked share = false ->
  validateSharePermissions permissions = true ->
  FileShare.permissions share = JsString.join "," permissions ->
  JsString.startsWith "DEMO_" (FileShare.encryptedKey share) = true ->
  status (fst (download_GET later req fileId db))
  = if expired later (FileShare.expiresAt share) then 403 else 501.
Proof.
  intros A F O Del Sh R V P D. unfold download_GET. rewrite A.
  destruct (expired later (FileShare.expiresAt share)) eqn:X.
  - unfold validateFilePermission. rewrite F.
    apply String.eqb_neq in O. rewrite O, Sh, R, X. reflexivity.
  - rewrite (validateFilePermission_active later fileId (au_id recipient) PermRead
               db file share F O Sh R X).
    rewrite (userPermissions_of_join share permissions V P).
    rewrite (granted_read_of_valid permissions V). simpl.
    rewrite F, Del. unfold download_key.
    apply String.eqb_neq in O. rewrite O. simpl.
    rewrite Sh, R, X, D. reflexivity.
Qed.

(** C2 (amended): every Share Record that the share route produces (answer
    201) stores, as its wrapped key, the marker [DEMO_] followed by the File
    Record's owner-wrapped key. That string is not base64, so it unwraps
    under no private key, whatever record it is served in; and the download
    route never hands it to the recipient: it answers 501 (demonstration
    mode), or 403 once the share has expired. *)
Theorem share_POST_stores_placeholder_key :
  forall (now : DateTime) (req : Request) (fileId : Id) (db db' : DB) (resp : Response),
    share_POST now req fileId db = (resp, db') ->
    status resp = 201 ->
    exists (user : AuthUser) (input : ShareInput) (file : File.t) (target : User.t)
           (share : FileShare.t),
      share_call_valid req fileId db user input file target
      /\ Prisma.fileShare_findUnique fileId (User.id target) db' = Some share
      /\ FileShare.encryptedKey share = ("DEMO_" ++ File.encryptedKey file)%string
      /\ base64ToArrayBuffer (FileShare.encryptedKey share)
         = Throw (DOMException InvalidCharacterError)
      /\ (forall (ef : EncryptedFileData) (privateKey : CryptoKey) (plain : ArrayBuffer),
             encryptedKey ef = FileShare.encryptedKey share ->
             ~ decrypts_to ef privateKey plain)
      /\ (forall (later : DateTime) (req' : Request) (recipient : AuthUser),
             auth req' = Some recipient ->
             au_id recipient = User.id target ->
             status (fst (download_GET later req' fileId db'))
             = if expired later (FileShare.expiresAt share) then 403 else 501).
Proof.
  intros now req fileId db db' resp E S201.
  destruct (share_POST_inv now req fileId db resp db' E)
    as [(N & _)|(user & input & file & target & Valid & _ & Wr)]; [contradiction|].
  pose proof Valid as (A & _ & V & F & O & Del & T & Self).
  destruct (share_write_inv now req fileId user input file target db resp db' Wr)
    as (_ & Fi & _ & share & Fs & Wf).
  destruct Wf as (_ & _ & _ & K & P & _ & R & _). simpl in K, P.
  exists user, input, file, target, share.
  split; [exact Valid|]. split; [exact Fs|]. split; [exact K|].
  assert (B : base64ToArrayBuffer (FileShare.encryptedKey share)
              = Throw (DOMException InvalidCharacterError))
    by (rewrite K; apply demo_key_is_not_base64).
  split; [exact B|]. split.
  - intros ef privateKey plain Ek (d & k & i & t & aesKey & _ & Dk & _).
    rewrite Ek, B in Dk. discriminate.
  - intros later req' recipient A' Id'.
    apply (download_GET_placeholder later req' fileId db' recipient file share
             (si_permissions input)); auto.
    + rewrite (file_findUnique_ext fileId db db' Fi). exact F.
    + rewrite Id', O. apply not_eq_sym. exact Self.
    + rewrite Id'. exact Fs.
    + rewrite K. apply (demo_key_startsWith (File.encryptedKey file)).
Qed.

(** C6 (amended): the share route keeps at most one Share Record per (file,
    recipient) pair. A call that answers 201 leaves, for its pair, a
    non-revoked record whose permissions and expiry are those of that call
    alone. A valid call for a pair whose record is not revoked is rejected
    with 409 and changes nothing: re-sharing updates only a revoked record. *)
Theorem share_POST_updates_or_rejects :
  forall (now : DateTime) (req : Request) (fileId : Id) (db db' : DB) (resp : Response),
    shares_wf db ->
    share_POST now req fileId db = (resp, db') ->
    (shares_wf db' /\ one_share_per_pair db')
    /\ (status resp = 201 ->
        exists user input file target share,
          share_call_valid req fileId db user input file target
          /\ Prisma.fileShare_findUnique fileId (User.id target) db' = Some share
          /\ userPermissions share = si_permissions input
          /\ FileShare.expiresAt share = si_expiresAt input
          /\ FileShare.isRevoked share = false)
    /\ (forall user input file target existing,
           share_call_valid req fileId db user input file target ->
           Prisma.fileShare_findUnique fileId (User.id target) db = Some existing ->
           FileShare.isRevoked existing = false ->
           resp = conflict_response /\ db' = db).
Proof.
  intros now req fileId db db' resp Wf E.
  pose proof (share_POST_keeps_wf now req fileId db resp db' Wf E) as Wf'.
  split; [split; [exact Wf' | exact (proj1 Wf')]|]. split.
  - intros S201.
    destruct (share_POST_inv now req fileId db resp db' E)
      as [(N & _)|(user & input & file & target & Valid & _ & Wr)]; [contradiction|].
    destruct (share_write_inv now req fileId user input file target db resp db' Wr)
      as (_ & _ & _ & share & Fs & Wfrom).
    destruct Wfrom as (_ & _ & _ & _ & P & X & R & _). simpl in P, X.
    exists user, input, file, target, share.
    split; [exact Valid|]. split; [exact Fs|]. split; [|split; [exact X | exact R]].
    destruct Valid as (_ & _ & V & _).
    exact (userPermissions_of_join share (si_permissions input) V P).
  - intros user input file target existing Valid Fe Rv.
    rewrite (share_POST_valid now req fileId db user input file target Valid) in E.
    simpl in E. rewrite Fe, Rv in E. simpl in E. inversion E. auto.
Qed.
End ShareRouteFacts.


(** C2, the claim as stated fails. Alice's share with Bob is answered 201;
    the file's own wrapped key unwraps under Alice's private key, but the
    key stored on Bob's Share Record is [DEMO_] plus that string: it does
    not unwrap to the same key under Bob's private key, and the download
    route does not serve it to Bob. *)
Lemma demo_share_key_is_not_a_wrapped_key :
  status (fst Scenario.first_share) = 201
  /\ (exists wo ko,
         base64ToArrayBuffer (File.encryptedKey Scenario.report) = Ok wo
         /\ @decryptKeyWithRSA Scenario.W wo (privateKey Scenario.alice_keys) = Ok ko)
  /\ FileShare.encryptedKey (Scenario.bob_share Scenario.db1)
     = ("DEMO_" ++ File.encryptedKey Scenario.report)%string
  /\ ~ @share_key_matches_file_key Scenario.W Scenario.report
         (Scenario.bob_share Scenario.db1)
         (privateKey Scenario.alice_keys) (privateKey Scenario.bob_keys)
  /\ ~ download_serves_share_key Scenario.now (Scenario.as_user Scenario.bob JNull)
         "f-report" Scenario.db1 (Scenario.bob_share Scenario.db1).
Proof.
  split; [vm_compute; reflexivity|].
  split; [eexists; eexists; split; vm_compute; reflexivity|].
  split; [vm_compute; reflexivity|].
  split.
  - intros (wo & wr & ko & kr & _ & _ & B & _). vm_compute in B. discriminate B.
  - intros (fields & E & _). apply (f_equal status) in E. vm_compute in E. discriminate E.
Qed.

(** C2 (amended) on the scenario: Alice's first share with Bob. *)
Lemma share_placeholder_on_the_scenario :
  (@share_POST Scenario.W Scenario.S Scenario.now
     (Scenario.as_user Scenario.alice (Scenario.share_body ["read"; "download"] None))
     "f-report" Scenario.db0
   = (fst Scenario.first_share, Scenario.db1)
   /\ status (fst Scenario.first_share) = 201)
  /\ exists (user : AuthUser) (input : ShareInput) (file : File.t) (target : User.t)
            (share : FileShare.t),
      @share_call_valid Scenario.S
        (Scenario.as_user Scenario.alice (Scenario.share_body ["read"; "download"] None))
        "f-report" Scenario.db0 user input file target
      /\ Prisma.fileShare_findUnique "f-report" (User.id target) Scenario.db1 = Some share
      /\ FileShare.encryptedKey share = ("DEMO_" ++ File.encryptedKey file)%string
      /\ base64ToArrayBuffer (FileShare.encryptedKey share)
         = Throw (DOMException InvalidCharacterError)
      /\ (forall (ef : EncryptedFileData) (privateKey : CryptoKey) (plain : ArrayBuffer),
             encryptedKey ef = FileShare.encryptedKey share ->
             ~ @decrypts_to Scenario.W ef privateKey plain)
      /\ (forall (later : DateTime) (req' : Request) (recipient : AuthUser),
             auth req' = Some recipient ->
             au_id recipient = User.id target ->
             status (fst (download_GET later req' "f-report" Scenario.db1))
             = if expired later (FileShare.expiresAt share) then 403 else 501).
Proof.
  split; [split; vm_compute; reflexivity|].
  apply (@share_POST_stores_placeholder_key Scenario.W Scenario.S Scenario.now
           (Scenario.as_user Scenario.alice (Scenario.share_body ["read"; "download"] None))
           "f-report" Scenario.db0 Scenario.db1 (fst Scenario.first_share)).
  - vm_compute. reflexivity.
  - vm_compute. reflexivity.
Defined.

(** C6, the claim as stated fails. Alice shares with Bob (read and
    download, no expiry), then shares again with other parameters while
    that grant is active: the second call is answered 409 and Bob's record
    still carries the first call's permissions and expiry, not the
    second's. *)
Lemma second_share_is_rejected :
  status (fst Scenario.first_share) = 201
  /\ status (fst Scenario.second_share) = 409
  /\ share_reflects Scenario.db2 "f-report" "u-bob" ["read"; "download"] None
  /\ ~ share_reflects Scenario.db2 "f-report" "u-bob" ["share"] (Some 1893456000000%Z).
Proof.
  split; [vm_compute; reflexivity|].
  split; [vm_compute; reflexivity|].
  split.
  - eexists. split; [vm_compute; reflexivity|]. split; vm_compute; reflexivity.
  - intros (share & F & _ & X). vm_compute in F. inversion F as [E]. subst share.
    vm_compute in X. discriminate X.
Qed.

(** C6 (amended) on the scenario: Alice's second share with Bob, made
    while the first grant is active. *)
Lemma share_upsert_on_the_scenario :
  (shares_wf Scenario.db1
   /\ @share_POST Scenario.W Scenario.S (Scenario.now + 1000)%Z
        (Scenario.as_user Scenario.alice
           (Scenario.share_body ["share"] (Some ReferenceServer.date_2030)))
        "f-report" Scenario.db1
      = (fst Scenario.second_share, Scenario.db2))
  /\ (shares_wf Scenario.db2 /\ one_share_per_pair Scenario.db2)
  /\ (status (fst Scenario.second_share) = 201 ->
      exists user input file target share,
        @share_call_valid Scenario.S
          (Scenario.as_user Scenario.alice
             (Scenario.share_body ["share"] (Some ReferenceServer.date_2030)))
          "f-report" Scenario.db1 user input file target
        /\ Prisma.fileShare_findUnique "f-report" (User.id target) Scenario.db2 = Some share
        /\ userPermissions share = si_permissions input
        /\ FileShare.expiresAt share = si_expiresAt input
        /\ FileShare.isRevoked share = false)
  /\ (forall user input file target existing,
         @share_call_valid Scenario.S
           (Scenario.as_user Scenario.alice
              (Scenario.share_body ["share"] (Some ReferenceServer.date_2030)))
           "f-report" Scenario.db1 user input file target ->
         Prisma.fileShare_findUnique "f-report" (User.id target) Scenario.db1 = Some existing ->
         FileShare.isRevoked existing = false ->
         fst Scenario.second_share = conflict_response /\ Scenario.db2 = Scenario.db1).
Proof.
  assert (Wf1 : shares_wf Scenario.db1).
  { apply (@share_POST_updates_or_rejects Scenario.W Scenario.S Scenario.now
             (Scenario.as_user Scenario.alice (Scenario.share_body ["read"; "download"] None))
             "f-report" Scenario.db0 Scenario.db1 (fst Scenario.first_share)).
    - apply empty_shares_wf. reflexivity.
    - vm_compute. reflexivity. }
  split; [split; [exact Wf1 | vm_compute; reflexivity]|].
  apply (@share_POST_updates_or_rejects Scenario.W Scenario.S (Scenario.now + 1000)%Z
           (Scenario.as_user Scenario.alice
              (Scenario.share_body ["share"] (Some ReferenceServer.date_2030)))
           "f-report" Scenario.db1 Scenario.db2 (fst Scenario.second_share)).
  - exact Wf1.
  - vm_compute. reflexivity.
Defined.


(* ------------------------------------------------------------------ *)
(** ** Further properties of the routes *)
(* ------------------------------------------------------------------ *)

(** X2: the owner of a file passes the access check for every permission,
    shares or no shares. *)
Theorem owner_has_every_permission :
  forall (now : DateTime) (fileId : Id) (permission : Permission) (db : DB) (file : File.t),
    Prisma.file_findUnique fileId db = Some file ->
    validateFilePermission now fileId (File.ownerId file) permission db = true.
Proof.
  intros now fileId permission db file F.
  unfold validateFilePermission. rewrite F, String.eqb_refl. reflexivity.
Qed.

Lemma owner_on_the_scenario :
  Prisma.file_findUnique "f-report" Scenario.db1 = Some Scenario.report
  /\ validateFilePermission Scenario.now "f-report" "u-alice" PermDelete Scenario.db1 = true.
Proof.
  split; [vm_compute; reflexivity|].
  apply (owner_has_every_permission Scenario.now "f-report" PermDelete Scenario.db1
           Scenario.report).
  vm_compute. reflexivity.
Defined.

(** X3: a user who is not the owner and whose share is revoked fails the
    access check for every permission, and the download route answers 403,
    whatever the expiry. *)
Theorem revoked_share_is_denied :
  forall (now : DateTime) (req : Request) (user : AuthUser) (fileId : Id)
         (permission : Permission) (db : DB) (share : FileShare.t),
    auth req = Some user ->
    (forall file, Prisma.file_findUnique fileId db = Some file ->
                  File.ownerId file <> au_id user) ->
    Prisma.fileShare_findUnique fileId (au_id user) db = Some share ->
    FileShare.isRevoked share = true ->
    validateFilePermission now fileId (au_id user) permission db = false
    /\ status (fst (download_GET now req fileId db)) = 403.
Proof.
  intros now req user fileId permission db share A O S R.
  assert (V : forall p, validateFilePermission now fileId (au_id user) p db = false).
  { intros p. unfold validateFilePermission.
    destruct (Prisma.file_findUnique fileId db) as [file|] eqn:F; [|reflexivity].
    specialize (O file eq_refl). apply String.eqb_neq in O. rewrite O, S, R. reflexivity. }
  split; [apply V|].
  unfold download_GET. rewrite A, V. reflexivity.
Qed.

Lemma revoked_share_on_the_scenario :
  validateFilePermission Scenario.now "f-report" "u-bob" PermRead (snd Scenario.deletion)
  = false
  /\ status (fst (download_GET Scenario.now (Scenario.as_user Scenario.bob JNull)
                               "f-report" (snd Scenario.deletion))) = 403.
Proof.
  apply (revoked_share_is_denied
           Scenario.now (Scenario.as_user Scenario.bob JNull)
           (mkAuthUser "u-bob" "bob@example.com" "bob" (User.publicKey Scenario.bob))
           "f-report" PermRead (snd Scenario.deletion)
           (Scenario.bob_share (snd Scenario.deletion))).
  - vm_compute. reflexivity.
  - intros file F. vm_compute in F. inversion F. vm_compute. discriminate.
  - vm_compute. reflexivity.
  - vm_compute. reflexivity.
Defined.

Section RouteFacts.
Context `{W : WebCrypto} `{S : ServerEnv}.

(** X4: sharing a file with its own owner is rejected with 400 and writes
    nothing. *)
Theorem self_share_is_rejected :
  forall (now : DateTime) (req : Request) (fileId : Id) (db : DB) (user : AuthUser)
         (body : Json) (input : ShareInput) (file : File.t) (target : User.t),
    auth req = Some user ->
    json req = Ok body ->
    shareSchema_safeParse body = inr input ->
    validateSharePermissions (si_permissions input) = true ->
    Prisma.file_findUnique fileId db = Some file ->
    File.ownerId file = au_id user ->
    File.isDeleted file = false ->
    Prisma.user_findUnique_email (si_userEmail input) db = Some target ->
    User.id target = au_id user ->
    share_POST now req fileId db
    = (mkResponse 400 (error_body "No puedes compartir un archivo contigo mismo"), db).
Proof.
  intros now req fileId db user body input file target A J P V F O Del T Self.
  unfold share_POST. rewrite A, J, P, V, F, Del, T. simpl.
  apply String.eqb_eq in O. rewrite O. simpl.
  apply String.eqb_eq in Self. rewrite Self. reflexivity.
Qed.

(** X5: sharing a soft-deleted file is rejected with 410 and writes
    nothing. *)
Theorem deleted_file_is_not_shared :
  forall (now : DateTime) (req : Request) (fileId : Id) (db : DB) (user : AuthUser)
         (body : Json) (input : ShareInput) (file : File.t),
    auth req = Some user ->
    json req = Ok body ->
    shareSchema_safeParse body = inr input ->
    validateSharePermissions (si_permissions input) = true ->
    Prisma.file_findUnique fileId db = Some file ->
    File.ownerId file = au_id user ->
    File.isDeleted file = true ->
    share_POST now req fileId db
    = (mkResponse 410 (error_body "No se puede compartir un archivo eliminado"), db).
Proof.
  intros now req fileId db user body input file A J P V F O Del.
  unfold share_POST. rewrite A, J, P, V, F, Del. simpl.
  apply String.eqb_eq in O. rewrite O. reflexivity.
Qed.

(** X6: for one and the same request, the response of the login route is
    the same against a database where the address matches no user and
    against one where it matches a user whose password does not verify. *)
Theorem login_hides_account_existence :
  forall (now : DateTime) (req : Request) (db_absent db_present : DB) (e : Entropy),
    (forall body input,
        json req = Ok body -> loginSchema_safeParse body = inr input ->
        Prisma.user_findUnique_email (li_email input) db_absent = None
        /\ exists user,
            Prisma.user_findUnique_email (li_email input) db_present = Some user
            /\ verifyPassword (li_password input) (User.passwordHash user) = false) ->
    fst (fst (login_POST now req db_absent e)) = fst (fst (login_POST now req db_present e)).
Proof.
  intros now req db_absent db_present e H. unfold login_POST.
  destruct (json req) as [body|x]; [|reflexivity].
  destruct (loginSchema_safeParse body) as [issues|input] eqn:P; [reflexivity|].
  destruct (H body input eq_refl P) as (A & user & U & V).
  rewrite A, U, V. reflexivity.
Qed.

(** X7: starting from a database without shares, no sequence of share
    calls produces two Share Records for one (file, recipient) pair. *)
Theorem share_calls_keep_one_share_per_pair :
  forall (calls : list (DateTime * Request * Id)) (db : DB),
    fileShares db = [] ->
    one_share_per_pair (share_calls calls db).
Proof.
  intros calls db E.
  assert (G : forall cs d, shares_wf d -> shares_wf (share_calls cs d)).
  { induction cs as [|[[now req] fileId] cs IH]; intros d Wf; simpl; [exact Wf|].
    apply IH.
    apply (share_POST_keeps_wf now req fileId d (fst (share_POST now req fileId d))
             (snd (share_POST now req fileId d)) Wf).
    apply surjective_pairing. }
  exact (proj1 (G calls db (empty_shares_wf db E))).
Qed.
End RouteFacts.

Lemma self_share_on_the_scenario :
  @share_POST Scenario.W Scenario.S Scenario.now
    (Scenario.as_user Scenario.alice
       (JObj [("userEmail", JStr "alice@example.com");
              ("permissions", JArr [JStr "read"])]))
    "f-report" Scenario.db0
  = (mkResponse 400 (error_body "No puedes compartir un archivo contigo mismo"), Scenario.db0).
Proof.
  apply (@self_share_is_rejected Scenario.W Scenario.S Scenario.now
           (Scenario.as_user Scenario.alice
              (JObj [("userEmail", JStr "alice@example.com");
                     ("permissions", JArr [JStr "read"])]))
           "f-report" Scenario.db0
           (mkAuthUser "u-alice" "alice@example.com" "alice" (User.publicKey Scenario.alice))
           (JObj [("userEmail", JStr "alice@example.com");
                  ("permissions", JArr [JStr "read"])])
           (mkShareInput "alice@example.com" ["read"] None)
           Scenario.report Scenario.alice);
    vm_compute; reflexivity.
Defined.

Lemma deleted_file_on_the_scenario :
  @share_POST Scenario.W Scenario.S Scenario.now
    (Scenario.as_user Scenario.alice (Scenario.share_body ["read"] None))
    "f-report" (snd Scenario.deletion)
  = (mkResponse 410 (error_body "No se puede compartir un archivo eliminado"),
     snd Scenario.deletion).
Proof.
  apply (@deleted_file_is_not_shared Scenario.W Scenario.S Scenario.now
           (Scenario.as_user Scenario.alice (Scenario.share_body ["read"] None))
           "f-report" (snd Scenario.deletion)
           (mkAuthUser "u-alice" "alice@example.com" "alice" (User.publicKey Scenario.alice))
           (Scenario.share_body ["read"] None)
           (mkShareInput "bob@example.com" ["read"] None)
           (Prisma.mark_deleted (Scenario.now + 2000)%Z Scenario.report));
    vm_compute; reflexivity.
Defined.

Lemma login_hiding_on_the_scenario :
  fst (fst (@login_POST Scenario.W Scenario.S Scenario.now
              (Scenario.anonymous (Scenario.login_body "bob@example.com" "guess"))
              (Prisma.set_users [Scenario.alice] Scenario.db0) 0))
  = fst (fst (@login_POST Scenario.W Scenario.S Scenario.now
                (Scenario.anonymous (Scenario.login_body "bob@example.com" "guess"))
                Scenario.db0 0)).
Proof.
  apply (@login_hides_account_existence Scenario.W Scenario.S Scenario.now
           (Scenario.anonymous (Scenario.login_body "bob@example.com" "guess"))
           (Prisma.set_users [Scenario.alice] Scenario.db0) Scenario.db0 0).
  intros body input J P. vm_compute in J. inversion J. subst body.
  vm_compute in P. inversion P. subst input.
  split; [vm_compute; reflexivity|].
  exists Scenario.bob. split; vm_compute; reflexivity.
Defined.

Lemma share_calls_on_the_scenario :
  fileShares Scenario.db0 = []
  /\ one_share_per_pair
       (@share_calls Scenario.W Scenario.S
          [(Scenario.now,
            Scenario.as_user Scenario.alice (Scenario.share_body ["read"; "download"] None),
            "f-report");
           ((Scenario.now + 1000)%Z,
            Scenario.as_user Scenario.alice
              (Scenario.share_body ["share"] (Some ReferenceServer.date_2030)),
            "f-report")]
          Scenario.db0).
Proof.
  split; [reflexivity|].
  apply (@share_calls_keep_one_share_per_pair Scenario.W Scenario.S).
  reflexivity.
Defined.


(* ------------------------------------------------------------------ *)
(** ** Who may share and who may delete *)
(* ------------------------------------------------------------------ *)

Section OwnerOnly.
Context `{W : WebCrypto} `{S : ServerEnv}.

(** Every list that [shareSchema] lets through passes
    [validateSharePermissions]. *)
Lemma enum_strings_valid items l :
  enum_strings share_permission_enum items = Some l ->
  forallb (fun p => JsString.includes share_permission_enum p) l = true.
Proof.
  revert l. induction items as [|j items IH]; intros l E; cbn [enum_strings] in E.
  - inversion E. reflexivity.
  - destruct j; try discriminate.
    destruct (JsString.includes share_permission_enum s) eqn:I; [|discriminate].
    destruct (enum_strings share_permission_enum items) as [l'|]; [|discriminate].
    inversion E. subst l. cbn [forallb]. rewrite I. apply IH. reflexivity.
Qed.

Lemma shareSchema_permissions body input :
  shareSchema_safeParse body = inr input ->
  si_permissions input <> []
  /\ forallb (fun p => JsString.includes share_permission_enum p) (si_permissions input) = true.
Proof.
  unfold shareSchema_safeParse. destruct body; try discriminate.
  destruct (lookup "permissions" fields) as [[| | | | |items|]|] eqn:P;
    try (destruct (match lookup "userEmail" fields with
                   | Some (JStr s) => if is_email s then inr s else inl ["Email inválido"]
                   | Some _ => inl ["Expected string"]
                   | None => inl ["Required"]
                   end); discriminate).
  destruct (enum_strings share_permission_enum items) as [[|p l]|] eqn:En;
    try (destruct (match lookup "userEmail" fields with
                   | Some (JStr s) => if is_email s then inr s else inl ["Email inválido"]
                   | Some _ => inl ["Expected string"]
                   | None => inl ["Required"]
                   end); discriminate).
  destruct (match lookup "userEmail" fields with
            | Some (JStr s) => if is_email s then inr s else inl ["Email inválido"]
            | Some _ => inl ["Expected string"]
            | None => inl ["Required"]
            end); [discriminate|].
  destruct (match lookup "expiresAt" fields with
            | Some (JStr s0) =>
                match parse_datetime s0 with
                | Some t => inr (Some t)
                | None => inl ["Invalid datetime"]
                end
            | Some _ => inl ["Expected string"]
            | None => inr None
            end); [discriminate|].
  intros E. inversion E. subst input. simpl. split; [discriminate|].
  exact (enum_strings_valid items (p :: l) En).
Qed.

(** X8: the share route never answers 'Permisos inválidos'. A body that
    [shareSchema] accepts always passes [validateSharePermissions], so the
    second check of the permissions rejects nothing. *)
Theorem share_POST_never_answers_invalid_permissions :
  forall (now : DateTime) (req : Request) (fileId : Id) (db : DB),
    fst (share_POST now req fileId db)
    <> mkResponse 400 (error_body "Permisos inválidos").
Proof.
  intros now req fileId db.
  assert (V : forall body input,
             shareSchema_safeParse body = inr input ->
             validateSharePermissions (si_permissions input) = true).
  { intros body input P. destruct (shareSchema_permissions body input P) as [N F].
    unfold validateSharePermissions.
    destruct (si_permissions input) as [|p l]; [contradiction|]. simpl. exact F. }
  unfold share_POST.
  destruct (auth req) as [user|]; [|discriminate].
  destruct (json req) as [body|x]; [|discriminate].
  destruct (shareSchema_safeParse body) as [issues|input] eqn:P; [discriminate|].
  rewrite (V body input P). simpl.
  destruct (Prisma.file_findUnique fileId db) as [file|]; [|discriminate].
  destruct (negb (String.eqb (File.ownerId file) (au_id user))); [discriminate|].
  destruct (File.isDeleted file); [discriminate|].
  destruct (Prisma.user_findUnique_email (si_userEmail input) db) as [target|]; [|discriminate].
  destruct (String.eqb (User.id target) (au_id user)); [discriminate|].
  match goal with |- context [if ?b then _ else _] => destruct b end; [discriminate|].
  destruct (negb (validatePublicKey (User.publicKey target))); [discriminate|].
  destruct (share_write now req fileId user input file target
              (Prisma.fileShare_findUnique fileId (User.id target) db) db)
    as [[resp db']|x] eqn:Wr; [|discriminate].
  unfold share_write, Res.bind in Wr.
  destruct (importPublicKeyFromPEM (User.publicKey target)); [|discriminate].
  match type of Wr with
  | match ?m with Ok _ => _ | Throw _ => _ end = _ => destruct m as [[share db1]|]
  end; [|discriminate].
  inversion Wr. subst resp. simpl. unfold share_created. discriminate.
Qed.
End OwnerOnly.


(* ------------------------------------------------------------------ *)
(** ** The PEM form of a public key *)
(* ------------------------------------------------------------------ *)

Module PemFacts.
Import JsString Base64 Base64Digits.

Lemma append_assoc (a b c : string) : ((a ++ b) ++ c = a ++ (b ++ c))%string.
Proof. induction a as [|x a IH]; simpl; [reflexivity | rewrite IH; reflexivity]. Qed.

Lemma append_empty_r (a : string) : (a ++ "")%string = a.
Proof. induction a as [|x a IH]; simpl; [reflexivity | rewrite IH; reflexivity]. Qed.

Lemma length_append (a b : string) :
  String.length (a ++ b) = String.length a + String.length b.
Proof. induction a as [|x a IH]; simpl; [reflexivity | rewrite IH; reflexivity]. Qed.

Lemma substring_all (s : string) : substring 0 (String.length s) s = s.
Proof. induction s as [|x s IH]; simpl; [reflexivity | rewrite IH; reflexivity]. Qed.

Lemma substring_skip (p r : string) :
  substring (String.length p) (String.length r) (p ++ r) = r.
Proof. induction p as [|x p IH]; simpl; [apply substring_all | exact IH]. Qed.

Lemma prefix_append (p r : string) : String.prefix p (p ++ r) = true.
Proof.
  induction p as [|x p IH]; simpl; [destruct r; reflexivity|].
  destruct (ascii_dec x x) as [_|N]; [exact IH | contradiction].
Qed.

Lemma remove_first_eq (pat s : string) :
  remove_first pat s
  = if String.prefix pat s
    then substring (String.length pat) (String.length s - String.length pat) s
    else match s with
         | EmptyString => EmptyString
         | String c s' => String c (remove_first pat s')
         end.
Proof. destruct s; reflexivity. Qed.

(** A pattern at the start of the string is the occurrence that is
    removed. *)
Lemma remove_first_prefix (pat r : string) : remove_first pat (pat ++ r) = r.
Proof.
  rewrite remove_first_eq, prefix_append, length_append.
  replace (String.length pat + String.length r - String.length pat)
    with (String.length r) by lia.
  apply substring_skip.
Qed.

(** A pattern whose first character does not occur before it is removed
    from the end. *)
Lemma remove_first_suffix (d : ascii) (pat s : string) :
  Forall (fun c => c <> d) (chars s) ->
  remove_first (String d pat) (s ++ String d pat) = s.
Proof.
  induction s as [|c s IH]; intros F.
  - pose proof (remove_first_prefix (String d pat) "") as R.
    rewrite append_empty_r in R. exact R.
  - inversion F as [|c' l Hc Hs]. subst.
    rewrite remove_first_eq.
    change (String.prefix (String d pat) (String c s ++ String d pat))
      with (match ascii_dec d c with
            | left _ => String.prefix pat (s ++ String d pat)
            | right _ => false
            end).
    destruct (ascii_dec d c) as [E|_]; [symmetry in E; contradiction|].
    simpl. rewrite (IH Hs). reflexivity.
Qed.

(** Neither white space nor a dash. *)
Definition pem_safe (c : ascii) : bool :=
  negb (is_space c) && negb (Ascii.eqb c "-"%char).

Lemma digits_pem_safe : forallb (fun n => pem_safe (digit n)) (map N.of_nat (seq 0 64)) = true.
Proof. vm_compute. reflexivity. Qed.

Lemma digit_pem_safe n : (n < 64)%N -> pem_safe (digit n) = true.
Proof.
  intros L. pose proof digits_pem_safe as T. rewrite forallb_forall in T.
  apply T. apply in_map_iff. exists (N.to_nat n). split; [apply N2Nat.id|].
  apply in_seq. lia.
Qed.

Lemma encode_nonempty a ns : encode (a :: ns) <> [].
Proof. destruct ns as [|x [|y r]]; discriminate. Qed.

(** The characters of a base64 encoding. *)
Lemma btoa_pem_safe (binary : string) :
  Forall (fun c => pem_safe c = true) (chars (btoa binary)).
Proof.
  unfold btoa. rewrite Base64RoundTrip.chars_of_chars, Base64RoundTrip.encode_sextets.
  apply Forall_app. split.
  - pose proof (Base64RoundTrip.sextets_small _ (Base64RoundTrip.code_octets (chars binary)))
      as Sm.
    unfold small in Sm. induction Sm as [|n sx Hn _ IH]; simpl; constructor; auto.
    apply digit_pem_safe. exact Hn.
  - unfold padding.
    destruct (List.length (map code (chars binary)) mod 3)%nat as [|[|[|]]];
      repeat constructor.
Qed.

Lemma chunks64_concat fuel (l : list ascii) :
  List.length l <= fuel -> List.concat (map chars (chunks64 fuel l)) = l.
Proof.
  revert l. induction fuel as [|fuel IH]; intros l L.
  - destruct l; [reflexivity | simpl in L; lia].
  - destruct l as [|c l]; [reflexivity|].
    cbn [chunks64 map List.concat]. rewrite Base64RoundTrip.chars_of_chars.
    rewrite IH; [apply firstn_skipn|].
    rewrite length_skipn. simpl List.length in *. lia.
Qed.

Lemma chunks64_Forall (P : ascii -> Prop) fuel (l : list ascii) :
  Forall P l -> Forall (fun s => Forall P (chars s)) (chunks64 fuel l).
Proof.
  revert l. induction fuel as [|fuel IH]; intros l F.
  - destruct l; constructor.
  - destruct l as [|c l]; [constructor|].
    cbn [chunks64]. rewrite <- (firstn_skipn 64 (c :: l)) in F.
    apply Forall_app in F. destruct F as [F1 F2]. constructor.
    + rewrite Base64RoundTrip.chars_of_chars. exact F1.
    + apply IH. exact F2.
Qed.

Lemma join_Forall (P : ascii -> Prop) (sep : string) (lines : list string) :
  Forall P (chars sep) ->
  Forall (fun s => Forall P (chars s)) lines ->
  Forall P (chars (join sep lines)).
Proof.
  intros Fs. induction lines as [|p ps IH]; intros F; [constructor|].
  inversion F as [|p' ps' Fp Fps]. subst.
  destruct ps as [|q ps]; [exact Fp|].
  change (join sep (p :: q :: ps)) with (p ++ sep ++ join sep (q :: ps))%string.
  rewrite !JsStringFacts.chars_app. repeat (apply Forall_app; split); auto.
Qed.

(** Removing the white space of lines joined by line feeds leaves the
    lines, when they hold none themselves. *)
Lemma remove_spaces_join (lines : list string) :
  Forall (fun s => Forall (fun c => is_space c = false) (chars s)) lines ->
  filter (fun c => negb (is_space c)) (chars (join newline lines))
  = List.concat (map chars lines).
Proof.
  assert (K : forall l, Forall (fun c => is_space c = false) l ->
                        filter (fun c => negb (is_space c)) l = l).
  { induction 1 as [|c l Hc _ IH]; simpl; [reflexivity|]. rewrite Hc, IH. reflexivity. }
  induction lines as [|p ps IH]; intros F; [reflexivity|].
  inversion F as [|p' ps' Fp Fps]. subst.
  destruct ps as [|q ps].
  - simpl. rewrite app_nil_r. apply K. exact Fp.
  - change (join newline (p :: q :: ps))
      with (p ++ newline ++ join newline (q :: ps))%string.
    rewrite !JsStringFacts.chars_app, !filter_app, (K _ Fp), (IH Fps).
    reflexivity.
Qed.

End PemFacts.

Section PemRoundTrip.
Context `{W : WebCrypto}.

(** The PEM of a public key, and what its import gives. *)
Lemma pem_of_public_key :
  forall (publicKey : CryptoKey),
    key_type publicKey = Public ->
    algorithm publicKey = RSA_OAEP ->
    extractable publicKey = true ->
    spki_parses (key_data publicKey) = true ->
    key_data publicKey <> [] ->
    exists pem,
      exportPublicKeyToPEM publicKey = Ok pem
      /\ importPublicKeyFromPEM pem
         = Ok (mkCryptoKey Public false RSA_OAEP [Encrypt] (key_data publicKey)).
Proof.
  intros publicKey T A X P N.
  unfold exportPublicKeyToPEM, Res.bind, Subtle.exportKey. rewrite X, A, T. simpl negb.
  cbv iota.
  set (base64 := arrayBufferToBase64 (key_data publicKey)).
  assert (Safe : Forall (fun c => PemFacts.pem_safe c = true) (JsString.chars base64))
    by apply PemFacts.btoa_pem_safe.
  assert (NE : JsString.chars base64 <> []).
  { unfold base64, arrayBufferToBase64, Base64.btoa.
    rewrite Base64RoundTrip.chars_of_chars.
    destruct (key_data publicKey) as [|b l] eqn:D; [contradiction|].
    destruct (map JsString.code (JsString.chars (string_of_list_byte (b :: l))))
      as [|a ns] eqn:M; [simpl in M; discriminate|].
    apply PemFacts.encode_nonempty. }
  unfold match_1_64.
  destruct (JsString.chars base64) as [|c0 l0] eqn:Cs; [contradiction|].
  rewrite <- Cs in *. clear NE.
  set (lines := chunks64 (List.length (JsString.chars base64)) (JsString.chars base64)).
  eexists. split; [reflexivity|].
  unfold importPublicKeyFromPEM.
  rewrite PemFacts.remove_first_prefix.
  assert (Sp : Forall (fun c => JsString.is_space c = false) (JsString.chars base64)).
  { eapply Forall_impl; [|exact Safe]. intros c H. unfold PemFacts.pem_safe in H.
    apply andb_prop in H. destruct H as [H _]. apply negb_true_iff in H. exact H. }
  assert (Nd : Forall (fun c => c <> "-"%char) (JsString.chars base64)).
  { eapply Forall_impl; [|exact Safe]. intros c H. unfold PemFacts.pem_safe in H.
    apply andb_prop in H. destruct H as [_ H]. apply negb_true_iff in H.
    apply Ascii.eqb_neq in H. exact H. }
  replace (newline ++ JsString.join newline lines ++ newline ++ pem_footer)%string
    with ((newline ++ JsString.join newline lines ++ newline) ++ pem_footer)%string
    by (rewrite !PemFacts.append_assoc; reflexivity).
  unfold pem_footer at 1 2.
  rewrite (PemFacts.remove_first_suffix "-"%char "----END PUBLIC KEY-----").
  2:{ rewrite !JsStringFacts.chars_app. apply Forall_app. split; [|apply Forall_app; split].
      - repeat constructor. discriminate.
      - apply PemFacts.join_Forall; [repeat constructor; discriminate|].
        apply PemFacts.chunks64_Forall. exact Nd.
      - repeat constructor. discriminate. }
  unfold JsString.remove_spaces.
  rewrite !JsStringFacts.chars_app, !filter_app.
  rewrite PemFacts.remove_spaces_join by (apply PemFacts.chunks64_Forall; exact Sp).
  unfold lines. rewrite PemFacts.chunks64_concat by lia.
  change (filter (fun c => negb (JsString.is_space c)) (JsString.chars newline)) with (@nil ascii).
  rewrite app_nil_r. simpl app. rewrite JsStringFacts.of_chars_chars.
  unfold base64, base64ToArrayBuffer, arrayBufferToBase64.
  rewrite Base64RoundTrip.atob_btoa, list_byte_of_string_of_list_byte.
  unfold Res.bind, Subtle.importKey. simpl. rewrite P. reflexivity.
Qed.

(** X9: a public key exported to PEM and imported back. For an
    extractable RSA-OAEP public key whose (non-empty) SubjectPublicKeyInfo
    parses, [exportPublicKeyToPEM] succeeds, [importPublicKeyFromPEM] of
    its result is a public key with the same key material, not extractable
    and usable for 'encrypt' only, and [validatePublicKey] accepts the
    PEM. *)
Theorem importPublicKeyFromPEM_exportPublicKeyToPEM :
  forall (publicKey : CryptoKey),
    key_type publicKey = Public ->
    algorithm publicKey = RSA_OAEP ->
    extractable publicKey = true ->
    spki_parses (key_data publicKey) = true ->
    key_data publicKey <> [] ->
    exists pem,
      exportPublicKeyToPEM publicKey = Ok pem
      /\ importPublicKeyFromPEM pem
         = Ok (mkCryptoKey Public false RSA_OAEP [Encrypt] (key_data publicKey))
      /\ validatePublicKey pem = true.
Proof.
  intros publicKey T A X P N.
  destruct (pem_of_public_key publicKey T A X P N) as (pem & Ex & Im).
  exists pem. split; [exact Ex|]. split; [exact Im|].
  unfold validatePublicKey. rewrite Im. reflexivity.
Qed.
End PemRoundTrip.


(* ------------------------------------------------------------------ *)
(** ** AES-GCM records, the stored private key, the password *)
(* ------------------------------------------------------------------ *)

Lemma base64_roundtrip (buffer : ArrayBuffer) :
  base64ToArrayBuffer (arrayBufferToBase64 buffer) = Ok buffer.
Proof.
  unfold base64ToArrayBuffer, arrayBufferToBase64.
  rewrite Base64RoundTrip.atob_btoa, list_byte_of_string_of_list_byte. reflexivity.
Qed.

Section KeyFacts.
Context `{W : WebCrypto} (L : WebCryptoLaws W).

(** What [encryptWithAES] returns under a key that may encrypt. *)
Lemma encryptWithAES_inv data key e :
  algorithm key = AES_GCM ->
  has_usage Encrypt (usages key) = true ->
  exists iv e',
    let c := aes_gcm_encrypt (key_data key) iv data in
    encryptWithAES data key e
    = (Ok (mkEncryptedData (slice_until_last 16 c) iv (slice_last 16 c)), e')
    /\ (iv, e') = getRandomValues 12 e
    /\ List.length iv = 12
    /\ List.length (slice_until_last 16 c) = List.length data
    /\ List.length (slice_last 16 c) = 16.
Proof.
  intros A U.
  unfold encryptWithAES, Async.bind, Async.random, Async.lift, Async.ret,
    Subtle.encrypt_AES_GCM.
  pose proof (random_length 12 e) as R.
  destruct (getRandomValues 12 e) as [iv e1]. simpl in R.
  rewrite A, U. simpl.
  exists iv, e1. split; [reflexivity|]. split; [reflexivity|]. split; [exact R|].
  unfold slice_until_last, slice_last.
  rewrite length_firstn, length_skipn, aes_gcm_tag. lia.
Qed.

Lemma decryptWithAES_inv data key iv :
  aes256_key key ->
  let c := aes_gcm_encrypt (key_data key) iv data in
  decryptWithAES (slice_until_last 16 c) key iv (slice_last 16 c) = Ok data.
Proof.
  intros (A & _ & D & Len). simpl.
  unfold decryptWithAES, Subtle.decrypt_AES_GCM.
  rewrite slice_parts, A, D, aes_gcm_tag. simpl.
  replace (List.length data + 16 <? 16)%nat with false
    by (symmetry; apply Nat.ltb_ge; lia).
  rewrite (aes_gcm_inverse (key_data key) iv data Len). reflexivity.
Qed.

(** X10: [encryptWithAES] under a 256-bit AES-GCM key returns a 12-byte IV,
    a 16-byte tag and a ciphertext as long as the data, and
    [decryptWithAES] of the three parts under the same key returns the
    data. *)
Theorem decryptWithAES_encryptWithAES :
  forall (data : ArrayBuffer) (key : CryptoKey) (e : Entropy),
    aes256_key key ->
    exists enc e',
      encryptWithAES data key e = (Ok enc, e')
      /\ List.length (ed_iv enc) = 12
      /\ List.length (ed_authTag enc) = 16
      /\ List.length (ed_encryptedData enc) = List.length data
      /\ decryptWithAES (ed_encryptedData enc) key (ed_iv enc) (ed_authTag enc) = Ok data.
Proof.
  intros data key e K. pose proof K as (A & U & _ & _).
  destruct (encryptWithAES_inv data key e A U) as (iv & e' & E & _ & Liv & Ld & Lt).
  eexists. exists e'. split; [exact E|]. simpl.
  repeat split; auto. apply decryptWithAES_inv. exact K.
Qed.

(** A file encrypted to the public key of a pair decrypts under its
    private key, whatever key objects hold the material. *)
Lemma encryptFile_inv e0 pub priv P e :
  key_pair_of e0 pub priv ->
  exists ef e',
    encryptFile P pub e = (Ok ef, e')
    /\ ef_checksum ef = calculateFileHash P
    /\ decryptFile (ef_encryptedData ef) (ef_encryptedKey ef) (ef_iv ef) (ef_authTag ef) priv
       = Ok P.
Proof.
  intros (Tp & Ap & Up & Dp & Ts & As & Us & Ds).
  destruct (generateAESKey_ok L e) as (raw & e2 & GA & Lraw).
  unfold encryptFile, Async.bind. rewrite GA.
  destruct (encryptWithAES_inv P (mkCryptoKey Secret true AES_GCM [Encrypt; Decrypt] raw) e2
              eq_refl eq_refl) as (iv & e3 & E & _ & _).
  simpl in E. rewrite E.
  unfold encryptKeyWithRSA, Async.bind, Async.lift. simpl.
  unfold Subtle.encrypt_RSA_OAEP. rewrite Ap, Up, Tp, Dp. simpl.
  assert (Lm : List.length raw <= rsa_oaep_max_message)
    by (rewrite Lraw; unfold rsa_oaep_max_message; lia).
  destruct (rsa_generate_inverse e0 raw e3 Lm) as (c & Enc & Dec).
  destruct (rsa_oaep_encrypt (fst (fst (rsa_generate e0))) raw e3) as [oc e4].
  simpl in Enc. subst oc.
  eexists. eexists. split; [reflexivity|]. simpl. split; [reflexivity|].
  unfold decryptFile, decryptKeyWithRSA, Res.bind, Subtle.decrypt_RSA_OAEP.
  rewrite As, Us, Ts, Ds. simpl. rewrite Dec. unfold Subtle.importKey. simpl.
  rewrite Lraw. simpl.
  apply (decryptWithAES_inv P (mkCryptoKey Secret false AES_GCM [Encrypt; Decrypt] raw) iv).
  repeat split; auto.
Qed.

Lemma generated_pair e0 K e1 :
  generateRSAKeyPair e0 = (Ok K, e1) -> key_pair_of e0 (publicKey K) (privateKey K).
Proof.
  intros G. rewrite (generateRSAKeyPair_inv e0 K e1 G). simpl.
  repeat split; reflexivity.
Qed.

(** What [encryptPrivateKey] and [decryptPrivateKey] do to an extractable
    private key. *)
Lemma privateKey_stored priv masterKey e :
  key_type priv = Private ->
  algorithm priv = RSA_OAEP ->
  extractable priv = true ->
  pkcs8_parses (key_data priv) = true ->
  aes256_key masterKey ->
  exists enc e',
    encryptPrivateKey priv masterKey e = (Ok enc, e')
    /\ decryptPrivateKey (ed_encryptedData enc) masterKey (ed_iv enc) (ed_authTag enc)
       = Ok (mkCryptoKey Private false RSA_OAEP [Decrypt] (key_data priv)).
Proof.
  intros T Al X P M. pose proof M as (A & U & _ & _).
  unfold encryptPrivateKey, Async.bind, Async.lift, Subtle.exportKey.
  rewrite X, Al, T. simpl.
  destruct (encryptWithAES_inv (key_data priv) masterKey e A U) as (iv & e' & E & _).
  simpl in E. rewrite E. eexists. exists e'. split; [reflexivity|]. simpl.
  unfold decryptPrivateKey, Res.bind.
  rewrite (decryptWithAES_inv (key_data priv) masterKey iv M).
  unfold Subtle.importKey. simpl. rewrite P. reflexivity.
Qed.

Lemma generated_private_key e0 K e1 :
  generateRSAKeyPair e0 = (Ok K, e1) ->
  key_type (privateKey K) = Private
  /\ algorithm (privateKey K) = RSA_OAEP
  /\ extractable (privateKey K) = true
  /\ pkcs8_parses (key_data (privateKey K)) = true.
Proof.
  intros G. rewrite (generateRSAKeyPair_inv e0 K e1 G). simpl.
  repeat split. apply (proj2 (rsa_generate_parses e0)).
Qed.

(** X11: the private key of a generated pair, encrypted under a 256-bit
    master key by [encryptPrivateKey], comes back from [decryptPrivateKey]
    under the same master key with the same key material, as a key that is
    not extractable and may only decrypt. *)
Theorem decryptPrivateKey_encryptPrivateKey :
  forall (K : KeyPair) (e0 e1 : Entropy) (masterKey : CryptoKey) (e : Entropy),
    generateRSAKeyPair e0 = (Ok K, e1) ->
    aes256_key masterKey ->
    exists enc e',
      encryptPrivateKey (privateKey K) masterKey e = (Ok enc, e')
      /\ decryptPrivateKey (ed_encryptedData enc) masterKey (ed_iv enc) (ed_authTag enc)
         = Ok (mkCryptoKey Private false RSA_OAEP [Decrypt] (key_data (privateKey K))).
Proof.
  intros K e0 e1 masterKey e G M.
  destruct (generated_private_key e0 K e1 G) as (T & A & X & P).
  apply privateKey_stored; assumption.
Qed.

Lemma decryptPrivateKey_not_extractable d masterKey iv tag key :
  decryptPrivateKey d masterKey iv tag = Ok key -> extractable key = false.
Proof.
  unfold decryptPrivateKey, Res.bind.
  destruct (decryptWithAES d masterKey iv tag); [|discriminate].
  apply importKey_extractable.
Qed.

(** X12: a private key that [decryptPrivateKey] returned cannot be stored
    again: [encryptPrivateKey] rejects it with [InvalidAccessError] under
    every master key, and draws no randomness. *)
Theorem recovered_private_key_cannot_be_encrypted :
  forall (encryptedData iv authTag : ArrayBuffer) (masterKey newMasterKey key : CryptoKey)
         (e : Entropy),
    decryptPrivateKey encryptedData masterKey iv authTag = Ok key ->
    encryptPrivateKey key newMasterKey e = (Throw (DOMException InvalidAccessError), e).
Proof.
  intros d iv tag masterKey newMasterKey key e D.
  unfold encryptPrivateKey, Async.bind, Async.lift, Subtle.exportKey.
  rewrite (decryptPrivateKey_not_extractable d masterKey iv tag key D). reflexivity.
Qed.

Section Password.
Context `{D : KeyDerivation} (LD : KeyDerivationLaws D).

Lemma deriveKeyFromPassword_ok password salt :
  exists raw,
    deriveKeyFromPassword password salt
    = Ok (mkCryptoKey Secret false AES_GCM [Encrypt; Decrypt] raw)
    /\ List.length raw = 32.
Proof.
  unfold deriveKeyFromPassword, Subtle.importKey.
  pose proof (pbkdf2_length (TextEncoder.encode password) salt PBKDF2_iterations
                PBKDF2_length) as Len.
  change (N.to_nat (PBKDF2_length / 8)) with 32 in Len.
  eexists. simpl. rewrite Len. simpl. split; [reflexivity | exact Len].
Qed.

(** X13: the master key. For every password and salt,
    [deriveKeyFromPassword] returns an AES-GCM key of 256 bits that may
    encrypt and decrypt and that [exportKey] refuses to export. *)
Theorem deriveKeyFromPassword_key :
  forall (password : string) (salt : list byte),
  exists masterKey,
    deriveKeyFromPassword password salt = Ok masterKey
    /\ aes256_key masterKey
    /\ Subtle.exportKey Raw masterKey = Throw (DOMException InvalidAccessError).
Proof.
  intros password salt.
  destruct (deriveKeyFromPassword_ok password salt) as (raw & E & Len).
  eexists. split; [exact E|]. split; [repeat split; auto | reflexivity].
Qed.

(** X14: registration and login. When [register] derives the master key
    from a password and a salt, encrypts the private key of a generated
    pair and sends everything in base64, [login] with the same password
    recovers a private key with the same key material, not extractable
    and usable for 'decrypt'. *)
Theorem login_recovers_the_registered_key :
  forall (password : string) (salt : list byte) (K : KeyPair) (e0 e1 e : Entropy),
    generateRSAKeyPair e0 = (Ok K, e1) ->
    exists masterKey enc e',
      deriveKeyFromPassword password salt = Ok masterKey
      /\ encryptPrivateKey (privateKey K) masterKey e = (Ok enc, e')
      /\ recoverPrivateKey password (arrayBufferToBase64 salt) (storePrivateKey enc)
         = Ok (mkCryptoKey Private false RSA_OAEP [Decrypt] (key_data (privateKey K))).
Proof.
  intros password salt K e0 e1 e G.
  destruct (deriveKeyFromPassword_ok password salt) as (raw & E & Len).
  set (masterKey := mkCryptoKey Secret false AES_GCM [Encrypt; Decrypt] raw) in *.
  assert (M : aes256_key masterKey) by (repeat split; auto).
  destruct (generated_private_key e0 K e1 G) as (Tk & Ak & Xk & Pk).
  destruct (privateKey_stored (privateKey K) masterKey e Tk Ak Xk Pk M)
    as (enc & e' & Enc & Dec).
  exists masterKey, enc, e'. split; [exact E|]. split; [exact Enc|].
  unfold recoverPrivateKey, storePrivateKey, Res.bind. simpl.
  rewrite !base64_roundtrip, E. exact Dec.
Qed.

(** X15: the keys a session works with. The public key imported from the
    PEM that [register] exported and the private key that [login]
    recovered form a working pair: what [encryptFile] encrypts to the
    first, [decryptFile] decrypts with the second. *)
Theorem session_keys_work :
  forall (password : string) (salt : list byte) (K : KeyPair) (e0 e1 e : Entropy)
         (P : ArrayBuffer) (e2 : Entropy),
    generateRSAKeyPair e0 = (Ok K, e1) ->
    spki_parses [] = false ->
    exists masterKey enc e' pem publicKeyCrypto privateKey' ef e3,
      deriveKeyFromPassword password salt = Ok masterKey
      /\ encryptPrivateKey (privateKey K) masterKey e = (Ok enc, e')
      /\ exportPublicKeyToPEM (publicKey K) = Ok pem
      /\ importPublicKeyFromPEM pem = Ok publicKeyCrypto
      /\ recoverPrivateKey password (arrayBufferToBase64 salt) (storePrivateKey enc)
         = Ok privateKey'
      /\ encryptFile P publicKeyCrypto e2 = (Ok ef, e3)
      /\ decryptFile (ef_encryptedData ef) (ef_encryptedKey ef) (ef_iv ef) (ef_authTag ef)
                     privateKey' = Ok P.
Proof.
  intros password salt K e0 e1 e P e2 G S0.
  destruct (deriveKeyFromPassword_ok password salt) as (raw & E & Len).
  set (masterKey := mkCryptoKey Secret false AES_GCM [Encrypt; Decrypt] raw) in *.
  assert (M : aes256_key masterKey) by (repeat split; auto).
  destruct (generated_private_key e0 K e1 G) as (Tk & Ak & Xk & Pk).
  destruct (privateKey_stored (privateKey K) masterKey e Tk Ak Xk Pk M)
    as (enc & e' & Enc & Dec).
  pose proof (generateRSAKeyPair_inv e0 K e1 G) as KK.
  assert (Sp : spki_parses (key_data (publicKey K)) = true)
    by (rewrite KK; simpl; apply (proj1 (rsa_generate_parses e0))).
  assert (NE : key_data (publicKey K) <> [])
    by (intros Z; rewrite Z, S0 in Sp; discriminate).
  destruct (pem_of_public_key (publicKey K))
    as (pem & Ex & Im); try (rewrite KK; reflexivity); auto.
  set (pub' := mkCryptoKey Public false RSA_OAEP [Encrypt] (key_data (publicKey K))) in *.
  set (priv' := mkCryptoKey Private false RSA_OAEP [Decrypt] (key_data (privateKey K))) in *.
  assert (KP : key_pair_of e0 pub' priv')
    by (unfold pub', priv'; rewrite KK; simpl; repeat split; reflexivity).
  destruct (encryptFile_inv e0 pub' priv' P e2 KP) as (ef & e3 & EF & _ & DF).
  exists masterKey, enc, e', pem, pub', priv', ef, e3.
  repeat split; auto.
  unfold recoverPrivateKey, storePrivateKey, Res.bind. simpl.
  rewrite !base64_roundtrip, E. exact Dec.
Qed.
End Password.
End KeyFacts.


(* ------------------------------------------------------------------ *)
(** ** Upload processing against download processing *)
(* ------------------------------------------------------------------ *)

Section UploadFacts.
Context `{W : WebCrypto} (L : WebCryptoLaws W).
Variable serializeMetadata : FileMetadata -> ArrayBuffer.
Variable parseMetadata : ArrayBuffer -> result FileMetadata.

(** What [processFileForUpload] returns for a key pair that works. *)
Lemma processFileForUpload_inv e0 pub priv file description tags now e :
  key_pair_of e0 pub priv ->
  exists ef m e',
    let md := mkFileMetadata (file_name file) (file_type file)
                             (List.length (file_bytes file)) now description tags in
    processFileForUpload serializeMetadata file pub description tags now e
    = (Ok (ef, md), e')
    /\ checksum ef = calculateFileHash (file_bytes file)
    /\ decrypt_record ef priv = Ok (file_bytes file)
    /\ metadata ef = Some m
    /\ decryptMetadata parseMetadata m priv = parseMetadata (serializeMetadata md).
Proof.
  intros KP. simpl.
  set (md := mkFileMetadata (file_name file) (file_type file)
                            (List.length (file_bytes file)) now description tags).
  destruct (encryptFile_inv L e0 pub priv (file_bytes file) e KP) as (ef & e1 & E1 & C1 & D1).
  destruct (encryptFile_inv L e0 pub priv (serializeMetadata md) e1 KP)
    as (em & e2 & E2 & _ & D2).
  unfold processFileForUpload, encryptMetadata, Async.bind, Async.ret.
  fold md. rewrite E1, E2.
  eexists. eexists. exists e2. split; [reflexivity|]. simpl.
  split; [exact C1|]. split; [|split; [reflexivity|]].
  - unfold decrypt_record, Res.bind. simpl. rewrite !base64_roundtrip. exact D1.
  - unfold decryptMetadata, Res.bind. simpl. rewrite !base64_roundtrip, D2. reflexivity.
Qed.

(** X16: what [processFileForUpload] produced passes
    [validateFileIntegrity] under the private key of the pair, and stops
    passing as soon as its checksum field holds anything else. *)
Theorem uploaded_file_is_intact :
  forall (e0 : Entropy) (pub priv : CryptoKey) (file : JsFile)
         (description : option string) (tags : option (list string)) (now : Z)
         (e : Entropy),
    key_pair_of e0 pub priv ->
    exists ef md e',
      processFileForUpload serializeMetadata file pub description tags now e
      = (Ok (ef, md), e')
      /\ validateFileIntegrity ef priv = Ok true
      /\ forall c,
          c <> checksum ef ->
          validateFileIntegrity
            (mkEncryptedFileData (encryptedData ef) (encryptedKey ef) (iv ef) (authTag ef)
                                 c (metadata ef))
            priv
          = Ok false.
Proof.
  intros e0 pub priv file description tags now e KP.
  destruct (processFileForUpload_inv e0 pub priv file description tags now e KP)
    as (ef & m & e' & U & C & D & _).
  exists ef. eexists. exists e'. split; [exact U|]. split.
  - rewrite validateFileIntegrity_unfold, D, C, String.eqb_refl. reflexivity.
  - intros c N. rewrite validateFileIntegrity_unfold.
    unfold decrypt_record in *. simpl. rewrite D. simpl.
    rewrite <- C. apply not_eq_sym in N. apply String.eqb_neq in N. rewrite N. reflexivity.
Qed.

(** X17: upload, then download. [processFileForDownload] applied to what
    [processFileForUpload] produced returns a blob with exactly the bytes
    of the file. Its metadata are what parsing the serialised metadata of
    the upload gives, or the fallback when that parse throws; the type of
    the blob is the type named there as [new Blob] keeps it: in ASCII
    lower case, or empty when it holds a character outside
    U+0020..U+007E. *)
Theorem download_returns_the_uploaded_file :
  forall (e0 : Entropy) (pub priv : CryptoKey) (file : JsFile)
         (description : option string) (tags : option (list string)) (now : Z)
         (e : Entropy) (fallbackFilename fallbackMimeType : option string) (later : Z),
    key_pair_of e0 pub priv ->
    exists ef md e',
      processFileForUpload serializeMetadata file pub description tags now e
      = (Ok (ef, md), e')
      /\ let md' := match parseMetadata (serializeMetadata md) with
                    | Ok parsed => parsed
                    | Throw _ => fallbackMetadata fallbackFilename fallbackMimeType
                                                  (file_bytes file) later
                    end in
         processFileForDownload parseMetadata ef priv fallbackFilename fallbackMimeType later
         = Ok (new_Blob (file_bytes file) (fm_mimeType md'), md').
Proof.
  intros e0 pub priv file description tags now e fn fm later KP.
  destruct (processFileForUpload_inv e0 pub priv file description tags now e KP)
    as (ef & m & e' & U & C & D & M & DM).
  exists ef. eexists. exists e'. split; [exact U|]. simpl.
  rewrite processFileForDownload_unfold, D, C, String.eqb_refl, M, DM.
  reflexivity.
Qed.
End UploadFacts.

(* ------------------------------------------------------------------ *)
(** ** Identifiers in hexadecimal *)
(* ------------------------------------------------------------------ *)

Module HexFacts.

Lemma digits_hex : forallb (fun n => is_hex_digit (Hex.digit n)) (map N.of_nat (seq 0 16)) = true.
Proof. vm_compute. reflexivity. Qed.

Lemma digit_hex n : (n < 16)%N -> is_hex_digit (Hex.digit n) = true.
Proof.
  intros L. pose proof digits_hex as T. rewrite forallb_forall in T.
  apply T. apply in_map_iff. exists (N.to_nat n). split; [apply N2Nat.id|].
  apply in_seq. lia.
Qed.

Lemma byte_bound (b : byte) : (Byte.to_N b < 256)%N.
Proof. destruct b; vm_compute; reflexivity. Qed.

Lemma of_string_length l : String.length (JsString.of_chars l) = List.length l.
Proof. induction l as [|c l IH]; simpl; [reflexivity | rewrite IH; reflexivity]. Qed.

(** Two lower-case hexadecimal digits per byte. *)
Lemma of_bytes_format (l : list byte) :
  String.length (Hex.of_bytes l) = 2 * List.length l
  /\ forallb is_hex_digit (JsString.chars (Hex.of_bytes l)) = true.
Proof.
  unfold Hex.of_bytes. rewrite of_string_length, Base64RoundTrip.chars_of_chars.
  induction l as [|b l [IH1 IH2]]; [split; reflexivity|].
  cbn [flat_map Hex.of_byte app List.length forallb]. rewrite IH1, IH2.
  pose proof (byte_bound b) as B.
  rewrite !digit_hex.
  - split; [lia | reflexivity].
  - apply N.mod_lt. discriminate.
  - apply N.Div0.div_lt_upper_bound. exact B.
Qed.

End HexFacts.

Section Identifiers.
Context `{W : WebCrypto} (L : WebCryptoLaws W).

(** X18: what the random values look like. [generateSalt] always returns
    32 bytes, [generateFileId] 32 lower-case hexadecimal digits and
    [generateSessionToken] 64. *)
Theorem random_values_have_their_format :
  forall (e : Entropy),
    (exists salt e', generateSalt e = (Ok salt, e') /\ List.length salt = 32)
    /\ (exists id e',
           generateFileId e = (Ok id, e')
           /\ String.length id = 32
           /\ forallb is_hex_digit (JsString.chars id) = true)
    /\ (exists token e',
           generateSessionToken e = (Ok token, e')
           /\ String.length token = 64
           /\ forallb is_hex_digit (JsString.chars token) = true).
Proof.
  intros e. split; [|split].
  - unfold generateSalt, Async.random.
    pose proof (random_length 32 e) as R.
    destruct (getRandomValues 32 e) as [bytes e']. simpl in R.
    exists bytes, e'. split; [reflexivity | exact R].
  - unfold generateFileId, Async.bind, Async.random, Async.ret.
    pose proof (random_length 16 e) as R.
    destruct (getRandomValues 16 e) as [bytes e']. simpl in R.
    destruct (HexFacts.of_bytes_format bytes) as [Len Hx].
    eexists. exists e'. split; [reflexivity|]. rewrite Len, R. split; [reflexivity | exact Hx].
  - unfold generateSessionToken, Async.bind, Async.random, Async.ret.
    pose proof (random_length 32 e) as R.
    destruct (getRandomValues 32 e) as [bytes e']. simpl in R.
    destruct (HexFacts.of_bytes_format bytes) as [Len Hx].
    eexists. exists e'. split; [reflexivity|]. rewrite Len, R. split; [reflexivity | exact Hx].
Qed.
End Identifiers.

(* ------------------------------------------------------------------ *)
(** ** Re-encryption never succeeds *)
(* ------------------------------------------------------------------ *)

Section ReEncryption.
Context `{W : WebCrypto}.

Lemma reEncryptFileKey_outcome encryptedFileKey ownerPrivateKey targetPublicKeyPEM e :
  reEncryptFileKey encryptedFileKey ownerPrivateKey targetPublicKeyPEM e
  = (Throw reEncrypt_failure, e).
Proof.
  unfold reEncryptFileKey, Async.try_catch, Async.bind, Async.lift, Async.throw.
  destruct (base64ToArrayBuffer encryptedFileKey) as [buf|]; [|reflexivity].
  destruct (decryptKeyWithRSA buf ownerPrivateKey) as [aesKey|] eqn:D; [|reflexivity].
  destruct (importPublicKeyFromPEM targetPublicKeyPEM) as [pk|]; [|reflexivity].
  rewrite (encryptKeyWithRSA_not_extractable aesKey pk e
             (decryptKeyWithRSA_not_extractable buf ownerPrivateKey aesKey D)).
  reflexivity.
Qed.

(** X19: [shareFileE2EE] never returns a key. For every request and every
    PEM it rejects with [Error('Error procesando el cifrado E2EE')] and
    draws no randomness: either the import of the owner's private key
    fails, or [reEncryptFileKey] does. *)
Theorem shareFileE2EE_always_rejects :
  forall (request : ReEncryptRequest) (targetPublicKeyPEM : string) (e : Entropy),
    shareFileE2EE request targetPublicKeyPEM e = (Throw shareFileE2EE_failure, e).
Proof.
  intros request pem e.
  unfold shareFileE2EE, Async.try_catch, Async.bind, Async.lift, Async.throw, Res.bind.
  destruct (base64ToArrayBuffer (rr_ownerPrivateKeyData request)) as [keyData|];
    [|reflexivity].
  destruct (Subtle.importKey Pkcs8 keyData RSA_OAEP false [Decrypt]) as [key|];
    [|reflexivity].
  rewrite reEncryptFileKey_outcome. reflexivity.
Qed.
End ReEncryption.


(* ------------------------------------------------------------------ *)
(** ** The small utilities of crypto-utils.ts *)
(* ------------------------------------------------------------------ *)

Module ExtensionFacts.
Import JsStringExt.

Lemma toLowerCase_append (a b : string) :
  toLowerCase (a ++ b) = (toLowerCase a ++ toLowerCase b)%string.
Proof. induction a as [|c a IH]; simpl; [reflexivity | rewrite IH; reflexivity]. Qed.

Lemma endsWith_append (b x : string) : endsWith x (b ++ x) = true.
Proof.
  unfold endsWith, substring_from. rewrite PemFacts.length_append.
  replace (String.length b + String.length x - String.length x) with (String.length b) by lia.
  replace (String.length b + String.length x - String.length b) with (String.length x) by lia.
  rewrite PemFacts.substring_skip, String.eqb_refl.
  replace (String.length x <=? String.length b + String.length x)%nat with true
    by (symmetry; apply Nat.leb_le; lia).
  reflexivity.
Qed.

End ExtensionFacts.

(** X20: [preserveFileExtension] is idempotent in the base name, never
    changes anything but the end of the base name, and, when the original
    name has an extension (a dot that is neither its first nor its last
    character), returns a name that ends with that extension, letter case
    apart. *)
Theorem preserveFileExtension_idempotent :
  forall (originalName baseName : string),
    let result := preserveFileExtension originalName baseName in
    preserveFileExtension originalName result = result
    /\ JsString.startsWith baseName result = true
    /\ forall i,
        JsStringExt.lastIndexOf "."%char originalName = Some i ->
        0 < i -> i + 1 < String.length originalName ->
        JsStringExt.endsWith
          (JsStringExt.toLowerCase (JsStringExt.substring_from i originalName))
          (JsStringExt.toLowerCase result) = true.
Proof.
  intros o b. unfold preserveFileExtension.
  assert (Pb : JsString.startsWith b b = true).
  { pose proof (PemFacts.prefix_append b "") as P.
    rewrite PemFacts.append_empty_r in P. exact P. }
  destruct (JsStringExt.lastIndexOf "."%char o) as [i|] eqn:Li; cbv zeta.
  2:{ split; [reflexivity|]. split; [exact Pb | discriminate]. }
  destruct ((0 <? i)%nat && (i + 1 <? String.length o)%nat) eqn:Ext.
  2:{ split; [reflexivity|]. split; [exact Pb|].
      intros j E Hj Hl. inversion E. subst j.
      apply andb_false_iff in Ext. destruct Ext as [X|X]; apply Nat.ltb_ge in X; lia. }
  set (ext := JsStringExt.substring_from i o).
  destruct (JsStringExt.endsWith (JsStringExt.toLowerCase ext) (JsStringExt.toLowerCase b)) eqn:En;
    cbn [negb].
  - rewrite En. cbn [negb]. split; [reflexivity|]. split; [exact Pb|].
    intros j E _ _. inversion E. subst j. exact En.
  - rewrite ExtensionFacts.toLowerCase_append, ExtensionFacts.endsWith_append. cbn [negb].
    split; [reflexivity|]. split; [apply PemFacts.prefix_append|].
    intros j E _ _. inversion E. subst j. fold ext.
    apply ExtensionFacts.endsWith_append.
Qed.

(** X21: [estimateEncryptionTime] rounds up to whole seconds at one
    mebibyte per second: for a size of [n] bytes the estimate [t] is the
    least number with [n <= t * 2^20]. It grows with the size, and is 0
    only for the empty file. *)
Theorem estimateEncryptionTime_rounds_up :
  forall (fileSize : N),
    (fileSize <= MAX_SAFE_INTEGER)%N ->
    let t := estimateEncryptionTime fileSize in
    (fileSize <= t * 1048576)%N
    /\ (t * 1048576 < fileSize + 1048576)%N
    /\ (t = 0 <-> fileSize = 0)%N
    /\ forall larger,
        (fileSize <= larger)%N ->
        (t <= estimateEncryptionTime larger)%N.
Proof.
  intros n _. unfold estimateEncryptionTime. simpl N.mul. simpl N.sub.
  split; [euclid|]. split; [euclid|]. split; [split; intros E; euclid|].
  intros m L. apply N.Div0.div_le_mono. lia.
Qed.

(* ------------------------------------------------------------------ *)
(** ** The client address *)
(* ------------------------------------------------------------------ *)

(** X22: with an [x-forwarded-for] header of several entries,
    [getClientIP] returns the first one, trimmed, whatever [x-real-ip] and
    [cf-connecting-ip] say. *)
Theorem getClientIP_first_forwarded :
  forall (headers : Headers) (first rest : string),
    ~ In ","%char (JsString.chars first) ->
    x_forwarded_for headers = Some (first ++ "," ++ rest)%string ->
    getClientIP headers = Some (JsString.trim first).
Proof.
  intros headers first rest N F. unfold getClientIP, truthy. rewrite F.
  destruct (String.eqb (first ++ "," ++ rest) "") eqn:E.
  - apply String.eqb_eq in E. destruct first; discriminate.
  - unfold JsString.split. rewrite JsStringFacts.chars_app.
    change (JsString.chars ("," ++ rest)%string) with (","%char :: JsString.chars rest).
    rewrite JsStringFacts.split_chars_cons by exact N. simpl.
    rewrite JsStringFacts.of_chars_chars. reflexivity.
Qed.

(* ------------------------------------------------------------------ *)
(** ** Sessions *)
(* ------------------------------------------------------------------ *)

Module SessionFacts.

Lemma find_id_some (l : list Session.t) (sid : Id) (s : Session.t) :
  find (fun x => String.eqb (Session.id x) sid) l = Some s -> Session.id s = sid.
Proof. intros F. apply find_some in F. destruct F as [_ E]. apply String.eqb_eq. exact E. Qed.

Lemma find_not_in (l : list Session.t) (sid : Id) :
  ~ In sid (map Session.id l) ->
  find (fun x => String.eqb (Session.id x) sid) l = None.
Proof.
  induction l as [|x l IH]; intros N; [reflexivity|]. simpl.
  destruct (String.eqb (Session.id x) sid) eqn:E.
  - apply String.eqb_eq in E. exfalso. apply N. left. exact E.
  - apply IH. intros I. apply N. right. exact I.
Qed.

(** Looking for the deleted identifier, and for another one, after a
    delete. *)
Lemma find_after_delete (l : list Session.t) (sid other : Id) :
  find (fun x => String.eqb (Session.id x) other)
       (filter (fun x => negb (String.eqb (Session.id x) sid)) l)
  = if String.eqb other sid then None
    else find (fun x => String.eqb (Session.id x) other) l.
Proof.
  induction l as [|x l IH]; [destruct (String.eqb other sid); reflexivity|].
  simpl. destruct (String.eqb (Session.id x) sid) eqn:Es; simpl.
  - rewrite IH. destruct (String.eqb other sid) eqn:Eo; [reflexivity|].
    apply String.eqb_eq in Es. rewrite Es.
    rewrite String.eqb_sym, Eo. reflexivity.
  - destruct (String.eqb (Session.id x) other) eqn:Ex.
    + apply String.eqb_eq in Ex. subst other. rewrite Es. reflexivity.
    + exact IH.
Qed.

Lemma user_findUnique_id (uid : Id) (db : DB) (u : User.t) :
  Prisma.user_findUnique uid db = Some u -> User.id u = uid.
Proof.
  unfold Prisma.user_findUnique. intros F. apply find_some in F.
  destruct F as [_ E]. apply String.eqb_eq. exact E.
Qed.

Lemma prefix_split (p s : string) :
  String.prefix p s = true ->
  s = (p ++ JsStringExt.substring_from (String.length p) s)%string.
Proof.
  unfold JsStringExt.substring_from.
  revert s. induction p as [|c p IH]; intros s P.
  - simpl. rewrite Nat.sub_0_r, PemFacts.substring_all. reflexivity.
  - destruct s as [|d s]; [discriminate|]. simpl in P.
    destruct (ascii_dec c d) as [E|]; [|discriminate]. subst d.
    simpl. f_equal. apply IH. exact P.
Qed.

End SessionFacts.

Section SessionTheorems.
Context `{W : WebCrypto} `{S : ServerEnv}.

(** What a successful [createSession] leaves in the database. *)
Lemma createSession_inv now userId ip ua db e tokens db' e' :
  createSession now userId ip ua db e = (Ok (tokens, db'), e') ->
  exists token access refresh u,
    Prisma.user_findUnique userId db = Some u
    /\ st_sessionId tokens = cuid (cuid_counter db)
    /\ users db' = users db
    /\ files db' = files db
    /\ fileShares db' = fileShares db
    /\ sessions db'
       = map (fun s =>
                if String.eqb (Session.id s) (cuid (cuid_counter db))
                then Session.mk (Session.id s) (Session.userId s) (Session.sessionToken s)
                                (Some access) (Some refresh) (Session.expiresAt s)
                                (Session.createdAt s) (Session.ipAddress s)
                                (Session.userAgent s)
                else s)
             (sessions db
              ++ [Session.mk (cuid (cuid_counter db)) userId token None None
                             (now + seven_days)%Z now ip ua]).
Proof.
  unfold createSession, Async.bind, Async.lift, Async.ret, Async.throw.
  destruct (generateSessionToken e) as [[token|x] e1]; [|discriminate].
  unfold session_create.
  destruct (Prisma.user_findUnique userId db) as [u|] eqn:U; [|discriminate].
  destruct (existsb (fun s => String.eqb (Session.sessionToken s) token) (sessions db));
    [discriminate|].
  cbn [Prisma.fresh_id fst snd].
  unfold Prisma.set_sessions at 1. cbn [users sessions files fileShares auditLogs cuid_counter].
  match goal with
  | |- context [Prisma.user_findUnique userId ?d] =>
      change (Prisma.user_findUnique userId d) with (Prisma.user_findUnique userId db)
  end.
  rewrite U. intros E. inversion E. subst. clear E.
  exists token. eexists. eexists. exists u.
  repeat split; reflexivity.
Qed.

(** X23: a session that [createSession] opened is valid for seven days.
    [validateSession] on its identifier returns the user it was opened
    for, with the expiry seven days after the creation, at every time up
    to that expiry, and [null] after it. *)
Theorem createSession_then_validateSession :
  forall (now : DateTime) (userId : Id) (ip ua : option string) (db : DB) (e : Entropy)
         (tokens : SessionTokens) (db' : DB) (e' : Entropy) (t : DateTime),
    session_ids_fresh db ->
    createSession now userId ip ua db e = (Ok (tokens, db'), e') ->
    exists u,
      Prisma.user_findUnique userId db = Some u
      /\ validateSession t (st_sessionId tokens) db'
         = if (now + seven_days <? t)%Z then None
           else Some (Auth.mkSessionData (Auth.select_user u) (st_sessionId tokens)
                                         (now + seven_days)%Z).
Proof.
  intros now userId ip ua db e tokens db' e' t Fr C.
  destruct (createSession_inv now userId ip ua db e tokens db' e' C)
    as (token & access & refresh & u & U & Sid & Us & _ & _ & Ss).
  exists u. split; [exact U|].
  unfold validateSession, PrismaSession.findUnique. rewrite Ss, Sid.
  set (sid := cuid (cuid_counter db)).
  rewrite map_app. cbn [map Session.id]. unfold sid at 2. fold sid.
  rewrite String.eqb_refl.
  rewrite find_app_none.
  2:{ assert (N : ~ In sid (map Session.id (sessions db))) by (apply Fr; lia).
      clear - N. induction (sessions db) as [|x l IH]; [reflexivity|].
      cbn [map find].
      assert (Ex : String.eqb (Session.id x) sid = false)
        by (apply String.eqb_neq; intros E; apply N; left; exact E).
      rewrite Ex. rewrite Ex. apply IH. intros I. apply N. right. exact I. }
  cbn [find Session.id]. rewrite String.eqb_refl. cbn [Session.userId Session.expiresAt].
  unfold Prisma.user_findUnique in *. rewrite Us, U. reflexivity.
Qed.
End SessionTheorems.

(** X24: after [revokeSession] the session is gone and every other one is
    as before: [validateSession] returns [null] for the revoked
    identifier, at any time, and what it returned before for any other;
    revoking the same session once more throws. *)
Theorem revokeSession_ends_the_session :
  forall (sessionId : Id) (db db' : DB) (t : DateTime),
    revokeSession sessionId db = Ok db' ->
    validateSession t sessionId db' = None
    /\ (forall other,
           other <> sessionId ->
           validateSession t other db' = validateSession t other db)
    /\ revokeSession sessionId db' = Throw (prisma_error "P2025").
Proof.
  intros sid db db' t R. unfold revokeSession, PrismaSession.delete in R.
  destruct (PrismaSession.findUnique sid db) as [s|]; [|discriminate].
  inversion R. subst db'. clear R.
  assert (F : forall other,
             PrismaSession.findUnique other
               (Prisma.set_sessions
                  (filter (fun s0 => negb (String.eqb (Session.id s0) sid)) (sessions db)) db)
             = if String.eqb other sid then None else PrismaSession.findUnique other db).
  { intros other. unfold PrismaSession.findUnique. simpl.
    apply SessionFacts.find_after_delete. }
  split; [|split].
  - unfold validateSession. rewrite F, String.eqb_refl. reflexivity.
  - intros other N. unfold validateSession. rewrite F.
    apply String.eqb_neq in N. rewrite N. reflexivity.
  - unfold revokeSession, PrismaSession.delete. rewrite F, String.eqb_refl. reflexivity.
Qed.

Section AuthenticationFacts.
Context `{V : TokenVerifier}.

(** X25: a request is authenticated only through a stored session that
    has not expired. When [getAuthenticatedUser] returns a user, the
    [authorization] header is 'Bearer ' followed by a token that
    [verifyToken] accepts, the token names a session in the database whose
    expiry is not before the time of the request, and the user is the
    owner of that session. *)
Theorem getAuthenticatedUser_sound :
  forall (now : DateTime) (headers : Headers) (db : DB) (user : Auth.AuthUser),
    getAuthenticatedUser now headers db = Some user ->
    exists token payload session u,
      authorization headers = Some ("Bearer " ++ token)%string
      /\ verifyToken token now = Some payload
      /\ PrismaSession.findUnique (Auth.sessionId payload) db = Some session
      /\ (now <= Session.expiresAt session)%Z
      /\ Prisma.user_findUnique (Session.userId session) db = Some u
      /\ user = Auth.select_user u
      /\ Auth.id user = Session.userId session.
Proof.
  intros now headers db user G. unfold getAuthenticatedUser in G.
  destruct (authorization headers) as [h|] eqn:A; [|discriminate].
  destruct (JsString.startsWith "Bearer " h) eqn:P; [|discriminate]. simpl in G.
  destruct (verifyToken (JsStringExt.substring_from 7 h) now) as [payload|] eqn:Vt;
    [|discriminate].
  unfold validateSession in G.
  destruct (PrismaSession.findUnique (Auth.sessionId payload) db) as [session|] eqn:F;
    [|discriminate].
  destruct (Prisma.user_findUnique (Session.userId session) db) as [u|] eqn:U;
    [|discriminate].
  destruct (Session.expiresAt session <? now)%Z eqn:X; [discriminate|].
  inversion G. subst user. clear G.
  exists (JsStringExt.substring_from 7 h), payload, session, u.
  split; [f_equal; exact (SessionFacts.prefix_split "Bearer " h P)|].
  repeat split; auto.
  - apply Z.ltb_ge in X. exact X.
  - simpl. exact (SessionFacts.user_findUnique_id _ _ _ U).
Qed.

(** X26: after [revokeAllUserSessions] for a user, no request is
    authenticated as that user, whatever token it carries. *)
Theorem revokeAllUserSessions_locks_out :
  forall (userId : Id) (now : DateTime) (headers : Headers) (db : DB) (user : Auth.AuthUser),
    getAuthenticatedUser now headers (revokeAllUserSessions userId db) = Some user ->
    Auth.id user <> userId.
Proof.
  intros userId now headers db user G. unfold getAuthenticatedUser in G.
  destruct (authorization headers) as [h|]; [|discriminate].
  destruct (negb (JsString.startsWith "Bearer " h)); [discriminate|].
  destruct (verifyToken (JsStringExt.substring_from 7 h) now) as [payload|]; [|discriminate].
  unfold validateSession in G.
  destruct (PrismaSession.findUnique (Auth.sessionId payload)
              (revokeAllUserSessions userId db)) as [session|] eqn:F; [|discriminate].
  destruct (Prisma.user_findUnique (Session.userId session)
              (revokeAllUserSessions userId db)) as [u|] eqn:U; [|discriminate].
  destruct (Session.expiresAt session <? now)%Z; [discriminate|].
  inversion G. subst user. clear G. simpl.
  rewrite (SessionFacts.user_findUnique_id _ _ _ U).
  unfold PrismaSession.findUnique, revokeAllUserSessions, PrismaSession.deleteMany in F.
  simpl in F. apply find_some in F. destruct F as [I _].
  apply filter_In in I. destruct I as [_ Ne].
  apply negb_true_iff in Ne. apply String.eqb_neq in Ne. exact Ne.
Qed.
End AuthenticationFacts.


(* ------------------------------------------------------------------ *)
(** ** The routes as one interface *)
(* ------------------------------------------------------------------ *)

Lemma logAuditEvent_users now action u f d ip ua ok msg db :
  users (logAuditEvent now action u f d ip ua ok msg db) = users db.
Proof.
  unfold logAuditEvent, Prisma.auditLog_create.
  destruct (Prisma.references_ok u f db); reflexivity.
Qed.

Lemma route_failure_tables now action f req x db :
  fileShares (snd (route_failure now action f req x db)) = fileShares db
  /\ files (snd (route_failure now action f req x db)) = files db.
Proof.
  unfold route_failure. simpl.
  split; [apply logAuditEvent_fileShares | apply logAuditEvent_files].
Qed.

Lemma written_share_as_written fileId user input file target r :
  validateSharePermissions (si_permissions input) = true ->
  written_from (share_data fileId user input file target) r ->
  share_as_written r.
Proof.
  intros V (_ & _ & _ & K & P & _). unfold share_as_written. split.
  - rewrite K. apply demo_key_startsWith.
  - rewrite (userPermissions_of_join r (si_permissions input) V P).
    unfold validateSharePermissions in V.
    destruct (List.length (si_permissions input) =? 0)%nat; [discriminate|].
    rewrite forallb_forall in V. apply Forall_forall. intros p I.
    specialize (V p I). unfold JsString.includes in V.
    apply existsb_exists in V. destruct V as (q & Iq & E).
    apply String.eqb_eq in E. subst q. exact Iq.
Qed.

Lemma revoke_as_written now by_ s : share_as_written s -> share_as_written (Prisma.revoke now by_ s).
Proof. intros H. exact H. Qed.

Section ApiFacts.
Context `{W : WebCrypto} `{S : ServerEnv} `{B : NodeBuffer}.

(** The share table after a successful write of the share route. *)
Lemma share_write_Forall (Q : FileShare.t -> Prop) now req fileId user input file target
      db resp db' :
  (forall r, written_from (share_data fileId user input file target) r -> Q r) ->
  Forall Q (fileShares db) ->
  share_write now req fileId user input file target
              (Prisma.fileShare_findUnique fileId (User.id target) db) db = Ok (resp, db') ->
  Forall Q (fileShares db').
Proof.
  intros HQ F. unfold share_write, Res.bind.
  destruct (importPublicKeyFromPEM (User.publicKey target)); [|discriminate].
  fold (share_data fileId user input file target).
  set (d := share_data fileId user input file target) in *.
  destruct (Prisma.fileShare_findUnique fileId (User.id target) db) as [existing|] eqn:Fe.
  - destruct (Prisma.fileShare_update now (FileShare.id existing) d db)
      as [[share db1]|] eqn:U; [|discriminate].
    intros E. inversion E. subst resp db'. clear E.
    rewrite logAuditEvent_fileShares.
    destruct (fileShare_update_inv now d db existing share db1 Fe U) as (Sh & _).
    rewrite Sh. apply Forall_forall. intros r I. apply in_map_iff in I.
    destruct I as (s & E & Is). subst r. unfold update_row.
    destruct (String.eqb (FileShare.id s) (FileShare.id existing)).
    + apply HQ. apply apply_ShareData_written.
    + rewrite Forall_forall in F. apply F. exact Is.
  - destruct (Prisma.fileShare_create now d db) as [[share db1]|] eqn:C; [|discriminate].
    intros E. inversion E. subst resp db'. clear E.
    rewrite logAuditEvent_fileShares.
    destruct (fileShare_create_inv now d db share db1 C) as (_ & Sh & _ & _ & _ & Wr & _).
    rewrite Sh. apply Forall_app. split; [exact F|]. constructor; [|constructor].
    apply HQ. exact Wr.
Qed.

Lemma share_POST_as_written now req fileId db :
  Forall share_as_written (fileShares db) ->
  Forall share_as_written (fileShares (snd (share_POST now req fileId db))).
Proof.
  intros F. destruct (share_POST now req fileId db) as [resp db'] eqn:E. simpl.
  destruct (share_POST_inv now req fileId db resp db' E)
    as [(_ & Sh & _)|(user & input & file & target & Valid & _ & Wr)].
  - rewrite Sh. exact F.
  - apply (share_write_Forall share_as_written now req fileId user input file target
             db resp db'); auto.
    intros r Wr'. apply (written_share_as_written fileId user input file target r); auto.
    destruct Valid as (_ & _ & V & _). exact V.
Qed.

(** The share route writes to a file's shares for its owner alone. *)
Lemma share_POST_frame now req fileId db :
  not_from_the_owner req fileId db ->
  fileShares (snd (share_POST now req fileId db)) = fileShares db
  /\ files (snd (share_POST now req fileId db)) = files db.
Proof.
  intros N. destruct (share_POST now req fileId db) as [resp db'] eqn:E. simpl.
  destruct (share_POST_inv now req fileId db resp db' E)
    as [(_ & Sh & Fi & _)|(user & input & file & target & Valid & _)]; [auto|].
  destruct Valid as (A & _ & _ & F & O & _). exfalso. exact (N user file A F O).
Qed.

Lemma share_POST_files now req fileId db :
  files (snd (share_POST now req fileId db)) = files db.
Proof.
  destruct (share_POST now req fileId db) as [resp db'] eqn:E. simpl.
  destruct (share_POST_inv now req fileId db resp db' E)
    as [(_ & _ & Fi & _)|(user & input & file & target & _ & _ & Wr)]; [exact Fi|].
  destruct (share_write_inv now req fileId user input file target db resp db' Wr)
    as (_ & Fi & _). exact Fi.
Qed.

(** X27: the re-encryption route never succeeds. Whatever the request, the
    file and the database, it does not answer 200 and leaves every share
    and every file as it was: the key of a share is never replaced. *)
Theorem reencrypt_POST_never_succeeds :
  forall (now : DateTime) (req : Request) (fileId : Id) (db : DB) (e : Entropy),
    status (fst (fst (reencrypt_POST now req fileId db e))) <> 200
    /\ fileShares (snd (fst (reencrypt_POST now req fileId db e))) = fileShares db
    /\ files (snd (fst (reencrypt_POST now req fileId db e))) = files db.
Proof.
  intros now req fileId db e. unfold reencrypt_POST.
  assert (Fail : forall x,
             status (fst (route_failure now "file_reencrypt_share_error" (Some fileId) req x db))
             <> 200
             /\ fileShares (snd (route_failure now "file_reencrypt_share_error" (Some fileId)
                                               req x db)) = fileShares db
             /\ files (snd (route_failure now "file_reencrypt_share_error" (Some fileId)
                                          req x db)) = files db).
  { intros x. split; [discriminate | apply route_failure_tables]. }
  destruct (auth req) as [user|]; [|apply Fail].
  destruct (json req) as [body|x]; [|apply Fail].
  destruct (reEncryptSchema_safeParse body) as [issues|input];
    [simpl; repeat split; discriminate|].
  destruct (Prisma.file_findUnique fileId db) as [file|];
    [|simpl; repeat split; discriminate].
  destruct (negb (String.eqb (File.ownerId file) (au_id user)));
    [simpl; repeat split; discriminate|].
  destruct (File.isDeleted file); [simpl; repeat split; discriminate|].
  destruct (Prisma.fileShare_findUnique_id (ri_shareId input) db) as [share|];
    [|simpl; repeat split; discriminate].
  destruct (Prisma.user_findUnique (FileShare.sharedWithId share) db) as [sharedWith|];
    [|apply Fail].
  destruct (negb (String.eqb (FileShare.fileId share) fileId));
    [simpl; repeat split; discriminate|].
  destruct (negb (String.eqb (User.email sharedWith) (ri_targetUserEmail input)));
    [simpl; repeat split; discriminate|].
  unfold reencrypt_write, Async.bind, Async.lift.
  destruct (Subtle.importKey Pkcs8 (Buffer_from_base64 (ri_ownerPrivateKeyData input))
                             RSA_OAEP false [Decrypt]) as [key|];
    [|simpl; repeat split; discriminate].
  rewrite reEncryptFileKey_outcome. simpl. repeat split; discriminate.
Qed.

Lemma reencrypt_POST_tables now req fileId db e :
  fileShares (snd (fst (reencrypt_POST now req fileId db e))) = fileShares db
  /\ files (snd (fst (reencrypt_POST now req fileId db e))) = files db.
Proof.
  unfold reencrypt_POST.
  destruct (auth req) as [user|]; [|apply route_failure_tables].
  destruct (json req) as [body|x]; [|apply route_failure_tables].
  destruct (reEncryptSchema_safeParse body) as [issues|input]; [split; reflexivity|].
  destruct (Prisma.file_findUnique fileId db) as [file|]; [|split; reflexivity].
  destruct (negb (String.eqb (File.ownerId file) (au_id user))); [split; reflexivity|].
  destruct (File.isDeleted file); [split; reflexivity|].
  destruct (Prisma.fileShare_findUnique_id (ri_shareId input) db) as [share|];
    [|split; reflexivity].
  destruct (Prisma.user_findUnique (FileShare.sharedWithId share) db) as [sharedWith|];
    [|apply route_failure_tables].
  destruct (negb (String.eqb (FileShare.fileId share) fileId)); [split; reflexivity|].
  destruct (negb (String.eqb (User.email sharedWith) (ri_targetUserEmail input)));
    [split; reflexivity|].
  unfold reencrypt_write, Async.bind, Async.lift.
  destruct (Subtle.importKey Pkcs8 (Buffer_from_base64 (ri_ownerPrivateKeyData input))
                             RSA_OAEP false [Decrypt]) as [key|]; [|split; reflexivity].
  rewrite reEncryptFileKey_outcome. split; reflexivity.
Qed.

Lemma download_GET_tables now req fileId db :
  fileShares (snd (download_GET now req fileId db)) = fileShares db
  /\ files (snd (download_GET now req fileId db)) = files db.
Proof.
  unfold download_GET.
  destruct (auth req) as [user|]; [|apply route_failure_tables].
  destruct (negb (validateFilePermission now fileId (au_id user) PermRead db)).
  { simpl. split; [apply logAuditEvent_fileShares | apply logAuditEvent_files]. }
  destruct (Prisma.file_findUnique fileId db) as [file|]; [|split; reflexivity].
  destruct (File.isDeleted file); [split; reflexivity|].
  destruct (download_key now fileId user file db); [split; reflexivity|].
  simpl. split; [apply logAuditEvent_fileShares | apply logAuditEvent_files].
Qed.

Lemma file_setMetadata_inv now fileId m db updated db1 :
  PrismaExt.file_setMetadata now fileId m db = Ok (updated, db1) ->
  fileShares db1 = fileShares db
  /\ files db1
     = map (fun f => if String.eqb (File.id f) fileId
                     then PrismaExt.with_metadata now m f else f) (files db).
Proof.
  unfold PrismaExt.file_setMetadata.
  destruct (Prisma.file_findUnique fileId db); [|discriminate].
  intros E. inversion E. split; reflexivity.
Qed.

Lemma file_PUT_shares now req fileId db :
  fileShares (snd (file_PUT now req fileId db)) = fileShares db.
Proof.
  unfold file_PUT.
  destruct (auth req) as [user|]; [|apply route_failure_tables].
  destruct (negb (validateFilePermission now fileId (au_id user) PermWrite db));
    [reflexivity|].
  destruct (json req) as [body|x]; [|apply route_failure_tables].
  destruct (updateMetadataSchema_safeParse body) as [issues|m]; [reflexivity|].
  destruct (PrismaExt.file_setMetadata now fileId m db) as [[updated db1]|x] eqn:U;
    [|apply route_failure_tables].
  simpl. rewrite logAuditEvent_fileShares.
  exact (proj1 (file_setMetadata_inv now fileId m db updated db1 U)).
Qed.

Lemma file_DELETE_shares now req fileId db s :
  In s (fileShares (snd (file_DELETE now req fileId db))) ->
  In s (fileShares db)
  \/ exists by_ s0, In s0 (fileShares db) /\ s = Prisma.revoke now by_ s0.
Proof.
  unfold file_DELETE.
  destruct (auth req) as [user|].
  2:{ rewrite (proj1 (route_failure_tables _ _ _ _ _ _)). auto. }
  destruct (Prisma.file_findUnique fileId db) as [file|]; [|auto].
  destruct (negb (String.eqb (File.ownerId file) (au_id user))); [auto|].
  destruct (File.isDeleted file); [auto|].
  destruct (Prisma.file_softDelete now fileId db) as [db1|x] eqn:D.
  2:{ rewrite (proj1 (route_failure_tables _ _ _ _ _ _)). auto. }
  simpl. rewrite logAuditEvent_fileShares.
  unfold Prisma.fileShare_revokeMany. simpl.
  rewrite (proj1 (file_softDelete_inv now fileId db db1 D)).
  intros I. apply in_map_iff in I. destruct I as (s0 & E & I0).
  destruct (String.eqb (FileShare.fileId s0) fileId).
  - right. exists (au_id user), s0. auto.
  - left. subst s. exact I0.
Qed.

Lemma user_touch_login_tables now id db :
  fileShares (user_touch_login now id db) = fileShares db
  /\ files (user_touch_login now id db) = files db.
Proof. split; reflexivity. Qed.

Lemma login_POST_tables now req db e :
  fileShares (snd (fst (login_POST now req db e))) = fileShares db
  /\ files (snd (fst (login_POST now req db e))) = files db.
Proof.
  unfold login_POST.
  destruct (json req) as [body|x]; [|apply route_failure_tables].
  destruct (loginSchema_safeParse body) as [issues|input]; [split; reflexivity|].
  destruct (Prisma.user_findUnique_email (li_email input) db) as [user|].
  2:{ cbn [fst snd]. split; [apply logAuditEvent_fileShares | apply logAuditEvent_files]. }
  destruct (negb (verifyPassword (li_password input) (User.passwordHash user))).
  { cbn [fst snd]. split; [apply logAuditEvent_fileShares | apply logAuditEvent_files]. }
  destruct (createSession now (User.id user) (clientIP req) (userAgent req) db e)
    as [[[tokens db1]|x] e'] eqn:C; [|apply route_failure_tables].
  destruct (createSession_inv now (User.id user) (clientIP req) (userAgent req) db e
              tokens db1 e' C) as (_ & _ & _ & _ & _ & _ & _ & Fi & Sh & _).
  cbn [fst snd]. rewrite logAuditEvent_fileShares, logAuditEvent_files.
  unfold user_touch_login. cbn [Prisma.set_users fileShares files]. auto.
Qed.

(** Every call keeps the shares as the share route writes them. *)
Lemma api_call_as_written now call db e :
  Forall share_as_written (fileShares db) ->
  Forall share_as_written (fileShares (snd (fst (api_call now call db e)))).
Proof.
  intros F. destruct call as [req f|req f|req f|req f|req f|req f|req]; simpl.
  - apply share_POST_as_written. exact F.
  - rewrite (proj1 (reencrypt_POST_tables now req f db e)). exact F.
  - rewrite (proj1 (download_GET_tables now req f db)). exact F.
  - exact F.
  - rewrite file_PUT_shares. exact F.
  - apply Forall_forall. intros s I. rewrite Forall_forall in F.
    destruct (file_DELETE_shares now req f db s I) as [I0|(by_ & s0 & I0 & E)].
    + apply F. exact I0.
    + subst s. apply revoke_as_written. apply F. exact I0.
  - rewrite (proj1 (login_POST_tables now req db e)). exact F.
Qed.

Lemma api_run_as_written calls db e :
  Forall share_as_written (fileShares db) ->
  Forall share_as_written (fileShares (fst (api_run calls db e))).
Proof.
  revert db e. induction calls as [|[now call] calls IH]; intros db e F; [exact F|].
  cbn [api_run].
  pose proof (api_call_as_written now call db e F) as F'.
  destruct (api_call now call db e) as [[resp db'] e']. simpl in F'.
  apply IH. exact F'.
Qed.

Lemma share_found fileId userId db share :
  Prisma.fileShare_findUnique fileId userId db = Some share -> In share (fileShares db).
Proof.
  unfold Prisma.fileShare_findUnique. intros F. apply find_some in F. exact (proj1 F).
Qed.

(** A download by somebody who is not the owner, when every share holds a
    placeholder. *)
Lemma download_GET_recipient now req fileId db :
  Forall share_as_written (fileShares db) ->
  not_from_the_owner req fileId db ->
  status (fst (download_GET now req fileId db)) <> 200.
Proof.
  intros F N. unfold download_GET.
  destruct (auth req) as [user|] eqn:A; [|discriminate].
  destruct (negb (validateFilePermission now fileId (au_id user) PermRead db));
    [discriminate|].
  destruct (Prisma.file_findUnique fileId db) as [file|] eqn:Fi; [|discriminate].
  destruct (File.isDeleted file); [discriminate|].
  unfold download_key.
  pose proof (N user file A Fi) as O. apply String.eqb_neq in O. rewrite O.
  simpl.
  destruct (Prisma.fileShare_findUnique fileId (au_id user) db) as [share|] eqn:Sh;
    [|discriminate].
  destruct (FileShare.isRevoked share || expired now (FileShare.expiresAt share));
    [discriminate|].
  rewrite Forall_forall in F.
  rewrite (proj1 (F share (share_found fileId (au_id user) db share Sh))). discriminate.
Qed.

(** X28: through the interface, nobody but the owner ever downloads a
    file. Start from a database without shares and make any calls, in any
    order, to the share, re-encryption, download, information, update,
    delete and login routes. In the database that results, a download
    request that does not come from the owner of the file is never
    answered 200: every share still holds a placeholder key. *)
Theorem no_recipient_ever_downloads :
  forall (calls : list (DateTime * ApiCall)) (db0 : DB) (e0 : Entropy)
         (now : DateTime) (req : Request) (fileId : Id),
    fileShares db0 = [] ->
    not_from_the_owner req fileId (fst (api_run calls db0 e0)) ->
    Forall share_as_written (fileShares (fst (api_run calls db0 e0)))
    /\ status (fst (download_GET now req fileId (fst (api_run calls db0 e0)))) <> 200.
Proof.
  intros calls db0 e0 now req fileId E N.
  assert (F : Forall share_as_written (fileShares (fst (api_run calls db0 e0)))).
  { apply api_run_as_written. rewrite E. constructor. }
  split; [exact F|]. apply download_GET_recipient; assumption.
Qed.

Lemma write_not_granted share :
  share_as_written share ->
  existsb (fun p => JsString.includes (permissionMap PermWrite) p) (userPermissions share)
  = false.
Proof.
  intros (_ & P). simpl permissionMap. rewrite existsb_includes1.
  unfold JsString.includes.
  destruct (existsb (String.eqb "write") (userPermissions share)) eqn:X; [|reflexivity].
  apply existsb_exists in X. destruct X as (p & I & E).
  apply String.eqb_eq in E. subst p.
  rewrite Forall_forall in P. specialize (P "write" I).
  simpl in P. repeat (destruct P as [P|P]; [discriminate|]). contradiction.
Qed.

Lemma file_PUT_frame now req fileId db :
  Forall share_as_written (fileShares db) ->
  not_from_the_owner req fileId db ->
  files (snd (file_PUT now req fileId db)) = files db.
Proof.
  intros F N. unfold file_PUT.
  destruct (auth req) as [user|] eqn:A; [|apply route_failure_tables].
  assert (V : validateFilePermission now fileId (au_id user) PermWrite db = false).
  { unfold validateFilePermission.
    destruct (Prisma.file_findUnique fileId db) as [file|] eqn:Fi; [|reflexivity].
    pose proof (N user file A Fi) as O. apply String.eqb_neq in O. rewrite O.
    destruct (Prisma.fileShare_findUnique fileId (au_id user) db) as [share|] eqn:Sh;
      [|reflexivity].
    destruct (FileShare.isRevoked share || expired now (FileShare.expiresAt share));
      [reflexivity|].
    apply write_not_granted. rewrite Forall_forall in F. apply F.
    exact (share_found fileId (au_id user) db share Sh). }
  rewrite V. reflexivity.
Qed.

Lemma file_DELETE_frame now req fileId db :
  not_from_the_owner req fileId db ->
  fileShares (snd (file_DELETE now req fileId db)) = fileShares db
  /\ files (snd (file_DELETE now req fileId db)) = files db.
Proof.
  intros N. unfold file_DELETE.
  destruct (auth req) as [user|] eqn:A; [|apply route_failure_tables].
  destruct (Prisma.file_findUnique fileId db) as [file|] eqn:Fi; [|split; reflexivity].
  pose proof (N user file A Fi) as O. apply String.eqb_neq in O. rewrite O.
  split; reflexivity.
Qed.

(** X29: through the interface, only its owner changes a file or its
    shares. In a database reached from one without shares by any calls, a
    call on a file whose request does not come from the owner leaves the
    file table and the share table exactly as they were, whichever route
    it goes to and whatever share the caller holds. *)
Theorem only_the_owner_changes_a_file :
  forall (calls : list (DateTime * ApiCall)) (db0 : DB) (e0 : Entropy)
         (now : DateTime) (call : ApiCall) (req : Request) (fileId : Id) (e : Entropy),
    fileShares db0 = [] ->
    call_target call = Some (req, fileId) ->
    not_from_the_owner req fileId (fst (api_run calls db0 e0)) ->
    files (snd (fst (api_call now call (fst (api_run calls db0 e0)) e)))
    = files (fst (api_run calls db0 e0))
    /\ fileShares (snd (fst (api_call now call (fst (api_run calls db0 e0)) e)))
       = fileShares (fst (api_run calls db0 e0)).
Proof.
  intros calls db0 e0 now call req fileId e E T N.
  assert (F : Forall share_as_written (fileShares (fst (api_run calls db0 e0)))).
  { apply api_run_as_written. rewrite E. constructor. }
  set (db := fst (api_run calls db0 e0)) in *.
  destruct call as [r f|r f|r f|r f|r f|r f|r]; simpl in T; inversion T; subst r f; simpl.
  - destruct (share_POST_frame now req fileId db N) as [Sh Fi]. auto.
  - destruct (reencrypt_POST_tables now req fileId db e) as [Sh Fi]. auto.
  - destruct (download_GET_tables now req fileId db) as [Sh Fi]. auto.
  - auto.
  - split; [apply file_PUT_frame; assumption | apply file_PUT_shares].
  - destruct (file_DELETE_frame now req fileId db N) as [Sh Fi]. auto.
Qed.

(** What each call does to a file that is marked as deleted. *)
Lemma find_file_map (g : File.t -> File.t) fileId l :
  (forall f, File.id (g f) = File.id f) ->
  find (fun f => String.eqb (File.id f) fileId) (map g l)
  = option_map g (find (fun f => String.eqb (File.id f) fileId) l).
Proof.
  intros Hg. apply find_map_same. intros x. rewrite Hg. reflexivity.
Qed.

Lemma api_call_keeps_deleted now call db e fileId :
  file_is_deleted fileId db ->
  file_is_deleted fileId (snd (fst (api_call now call db e))).
Proof.
  intros (file & Fi & Del).
  assert (Same : forall db', files db' = files db -> file_is_deleted fileId db').
  { intros db' E. exists file. split; [|exact Del].
    rewrite (file_findUnique_ext fileId db db' E). exact Fi. }
  destruct call as [req f|req f|req f|req f|req f|req f|req]; simpl.
  - apply Same. apply share_POST_files.
  - apply Same. apply reencrypt_POST_tables.
  - apply Same. apply download_GET_tables.
  - apply Same. reflexivity.
  - unfold file_PUT.
    destruct (auth req) as [user|]; [|apply Same; apply route_failure_tables].
    destruct (negb (validateFilePermission now f (au_id user) PermWrite db));
      [apply Same; reflexivity|].
    destruct (json req) as [body|x]; [|apply Same; apply route_failure_tables].
    destruct (updateMetadataSchema_safeParse body) as [issues|m]; [apply Same; reflexivity|].
    destruct (PrismaExt.file_setMetadata now f m db) as [[updated db1]|x] eqn:U;
      [|apply Same; apply route_failure_tables].
    destruct (file_setMetadata_inv now f m db updated db1 U) as [_ Fs].
    simpl.
    exists (if String.eqb (File.id file) f then PrismaExt.with_metadata now m file else file).
    split.
    + unfold Prisma.file_findUnique in *. rewrite logAuditEvent_files, Fs.
      rewrite find_file_map, Fi; [reflexivity|].
      intros x0. destruct (String.eqb (File.id x0) f); reflexivity.
    + destruct (String.eqb (File.id file) f); exact Del.
  - unfold file_DELETE.
    destruct (auth req) as [user|]; [|apply Same; apply route_failure_tables].
    destruct (Prisma.file_findUnique f db) as [file'|] eqn:Ff; [|apply Same; reflexivity].
    destruct (negb (String.eqb (File.ownerId file') (au_id user)));
      [apply Same; reflexivity|].
    destruct (File.isDeleted file'); [apply Same; reflexivity|].
    unfold Prisma.file_softDelete. rewrite Ff. simpl.
    exists (if String.eqb (File.id file) f then Prisma.mark_deleted now file else file).
    split.
    + unfold Prisma.file_findUnique in *. rewrite logAuditEvent_files. simpl.
      rewrite find_file_map, Fi; [reflexivity|].
      intros x0. destruct (String.eqb (File.id x0) f); reflexivity.
    + destruct (String.eqb (File.id file) f); [reflexivity | exact Del].
  - apply Same. apply login_POST_tables.
Qed.

Lemma api_run_keeps_deleted calls db e fileId :
  file_is_deleted fileId db -> file_is_deleted fileId (fst (api_run calls db e)).
Proof.
  revert db e. induction calls as [|[now call] calls IH]; intros db e D; [exact D|].
  cbn [api_run].
  pose proof (api_call_keeps_deleted now call db e fileId D) as D'.
  destruct (api_call now call db e) as [[resp db'] e']. simpl in D'.
  apply IH. exact D'.
Qed.

Lemma file_DELETE_deletes now req fileId db :
  status (fst (file_DELETE now req fileId db)) = 200 ->
  file_is_deleted fileId (snd (file_DELETE now req fileId db)).
Proof.
  unfold file_DELETE.
  destruct (auth req) as [user|]; [|discriminate].
  destruct (Prisma.file_findUnique fileId db) as [file|] eqn:Fi; [|discriminate].
  destruct (negb (String.eqb (File.ownerId file) (au_id user))); [discriminate|].
  destruct (File.isDeleted file); [discriminate|].
  unfold Prisma.file_softDelete. rewrite Fi. simpl. intros _.
  exists (Prisma.mark_deleted now file). split; [|reflexivity].
  unfold Prisma.file_findUnique in *. rewrite logAuditEvent_files. simpl.
  rewrite find_file_map, Fi.
  - simpl. apply find_some in Fi. destruct Fi as [_ E]. rewrite E. reflexivity.
  - intros x0. destruct (String.eqb (File.id x0) fileId); reflexivity.
Qed.

(** X30: a deleted file stays deleted and is served to nobody. After a
    DELETE that answered 200, and after any further calls to the routes,
    no request for that file, from the owner or anybody else, is answered
    200 by the download, information or delete route, or 201 by the share
    route. *)
Theorem deletion_is_final :
  forall (now : DateTime) (req : Request) (fileId : Id) (db : DB) (e : Entropy)
         (calls : list (DateTime * ApiCall)) (later : DateTime) (req' : Request),
    status (fst (file_DELETE now req fileId db)) = 200 ->
    let db' := fst (api_run calls (snd (file_DELETE now req fileId db)) e) in
    status (fst (download_GET later req' fileId db')) <> 200
    /\ status (file_GET later req' fileId db') <> 200
    /\ status (fst (file_DELETE later req' fileId db')) <> 200
    /\ status (fst (share_POST later req' fileId db')) <> 201.
Proof.
  intros now req fileId db e calls later req' D db'.
  assert (Del : file_is_deleted fileId db').
  { apply api_run_keeps_deleted. apply file_DELETE_deletes. exact D. }
  destruct Del as (file & Fi & Del).
  split; [|split; [|split]].
  - unfold download_GET.
    destruct (auth req') as [user|]; [|discriminate].
    destruct (negb (validateFilePermission later fileId (au_id user) PermRead db'));
      [discriminate|].
    rewrite Fi, Del. discriminate.
  - unfold file_GET.
    destruct (auth req') as [user|]; [|discriminate].
    destruct (negb (validateFilePermission later fileId (au_id user) PermRead db'));
      [discriminate|].
    rewrite Fi.
    destruct (Prisma.user_findUnique (File.ownerId file) db'); [|discriminate].
    rewrite Del. discriminate.
  - unfold file_DELETE.
    destruct (auth req') as [user|]; [|discriminate].
    rewrite Fi.
    destruct (negb (String.eqb (File.ownerId file) (au_id user))); [discriminate|].
    rewrite Del. discriminate.
  - destruct (share_POST later req' fileId db') as [resp db''] eqn:E. simpl.
    destruct (share_POST_inv later req' fileId db' resp db'' E)
      as [(N & _)|(user & input & file' & target & Valid & _)]; [exact N|].
    destruct Valid as (_ & _ & _ & F' & _ & D' & _).
    rewrite Fi in F'. inversion F'. subst file'. rewrite Del in D'. discriminate.
Qed.
End ApiFacts.


(* ------------------------------------------------------------------ *)
(** ** The properties on the walk-through *)
(* ------------------------------------------------------------------ *)

Module ReferenceClientFacts.
Import ReferenceClient.

Lemma derive_length password salt iterations length :
  List.length (derive password salt iterations length) = N.to_nat (length / 8).
Proof.
  unfold derive. rewrite length_firstn, !length_app, repeat_length. lia.
Qed.

Lemma kdf_laws : KeyDerivationLaws kdf.
Proof. constructor. exact derive_length. Qed.

End ReferenceClientFacts.

(** Alice's key pair is the one generated from the random state 0. *)
Lemma alice_keys_generated :
  @generateRSAKeyPair Scenario.W 0 = (Ok Scenario.alice_keys, 4).
Proof. vm_compute. reflexivity. Qed.

Lemma alice_keys_pair :
  @key_pair_of Scenario.W 0 (publicKey Scenario.alice_keys) (privateKey Scenario.alice_keys).
Proof. repeat split; vm_compute; reflexivity. Qed.

Lemma masterKey_aes256 : aes256_key Walkthrough.masterKey.
Proof. repeat split; vm_compute; reflexivity. Qed.

(** X9 on the scenario: Alice's public key. *)
Lemma pem_roundtrip_on_the_scenario :
  exists pem,
    exportPublicKeyToPEM (publicKey Scenario.alice_keys) = Ok pem
    /\ @importPublicKeyFromPEM Scenario.W pem
       = Ok (mkCryptoKey Public false RSA_OAEP [Encrypt]
                         (key_data (publicKey Scenario.alice_keys)))
    /\ @validatePublicKey Scenario.W pem = true.
Proof.
  apply (@importPublicKeyFromPEM_exportPublicKeyToPEM Scenario.W
           (publicKey Scenario.alice_keys)); vm_compute; try reflexivity; discriminate.
Defined.

(** X10 on the walk-through: 'hello world' under Alice's master key. *)
Lemma aes_roundtrip_on_the_walkthrough :
  exists enc e',
    @encryptWithAES Scenario.W Scenario.hello Walkthrough.masterKey 40 = (Ok enc, e')
    /\ List.length (ed_iv enc) = 12
    /\ List.length (ed_authTag enc) = 16
    /\ List.length (ed_encryptedData enc) = List.length Scenario.hello
    /\ @decryptWithAES Scenario.W (ed_encryptedData enc) Walkthrough.masterKey (ed_iv enc)
         (ed_authTag enc) = Ok Scenario.hello.
Proof.
  apply (@decryptWithAES_encryptWithAES Scenario.W ReferenceFacts.laws
           Scenario.hello Walkthrough.masterKey 40).
  exact masterKey_aes256.
Defined.

(** X11 on the walk-through: Alice's private key under her master key. *)
Lemma private_key_roundtrip_on_the_walkthrough :
  exists enc e',
    @encryptPrivateKey Scenario.W (privateKey Scenario.alice_keys) Walkthrough.masterKey 300
    = (Ok enc, e')
    /\ @decryptPrivateKey Scenario.W (ed_encryptedData enc) Walkthrough.masterKey
         (ed_iv enc) (ed_authTag enc)
       = Ok Walkthrough.recoveredKey.
Proof.
  apply (@decryptPrivateKey_encryptPrivateKey Scenario.W ReferenceFacts.laws
           Scenario.alice_keys 0 4 Walkthrough.masterKey 300).
  - exact alice_keys_generated.
  - exact masterKey_aes256.
Defined.

(** X12 on the walk-through: the key Alice's login recovered. *)
Lemma recovered_key_on_the_walkthrough :
  @decryptPrivateKey Scenario.W
    (ed_encryptedData Walkthrough.encryptedPrivateKey) Walkthrough.masterKey
    (ed_iv Walkthrough.encryptedPrivateKey) (ed_authTag Walkthrough.encryptedPrivateKey)
  = Ok Walkthrough.recoveredKey
  /\ @encryptPrivateKey Scenario.W Walkthrough.recoveredKey Walkthrough.masterKey 0
     = (Throw (DOMException InvalidAccessError), 0).
Proof.
  split; [vm_compute; reflexivity|].
  apply (@recovered_private_key_cannot_be_encrypted Scenario.W
           (ed_encryptedData Walkthrough.encryptedPrivateKey)
           (ed_iv Walkthrough.encryptedPrivateKey)
           (ed_authTag Walkthrough.encryptedPrivateKey)
           Walkthrough.masterKey Walkthrough.masterKey Walkthrough.recoveredKey 0).
  vm_compute. reflexivity.
Defined.

(** X13 on the walk-through: Alice's password and salt. *)
Lemma master_key_on_the_walkthrough :
  exists masterKey,
    @deriveKeyFromPassword Scenario.W ReferenceClient.kdf Walkthrough.password
      Walkthrough.salt = Ok masterKey
    /\ aes256_key masterKey
    /\ Subtle.exportKey Raw masterKey = Throw (DOMException InvalidAccessError).
Proof.
  apply (@deriveKeyFromPassword_key Scenario.W ReferenceClient.kdf
           ReferenceClientFacts.kdf_laws Walkthrough.password Walkthrough.salt).
Defined.

(** X14 on the walk-through. *)
Lemma login_recovers_on_the_walkthrough :
  exists masterKey enc e',
    @deriveKeyFromPassword Scenario.W ReferenceClient.kdf Walkthrough.password
      Walkthrough.salt = Ok masterKey
    /\ @encryptPrivateKey Scenario.W (privateKey Scenario.alice_keys) masterKey 300
       = (Ok enc, e')
    /\ @recoverPrivateKey Scenario.W ReferenceClient.kdf Walkthrough.password
         (arrayBufferToBase64 Walkthrough.salt) (storePrivateKey enc)
       = Ok Walkthrough.recoveredKey.
Proof.
  apply (@login_recovers_the_registered_key Scenario.W ReferenceFacts.laws
           ReferenceClient.kdf ReferenceClientFacts.kdf_laws
           Walkthrough.password Walkthrough.salt Scenario.alice_keys 0 4 300).
  exact alice_keys_generated.
Defined.

(** X15 on the walk-through: 'hello world' with Alice's session keys. *)
Lemma session_keys_on_the_walkthrough :
  exists masterKey enc e' pem publicKeyCrypto privateKey' ef e3,
    @deriveKeyFromPassword Scenario.W ReferenceClient.kdf Walkthrough.password
      Walkthrough.salt = Ok masterKey
    /\ @encryptPrivateKey Scenario.W (privateKey Scenario.alice_keys) masterKey 300
       = (Ok enc, e')
    /\ exportPublicKeyToPEM (publicKey Scenario.alice_keys) = Ok pem
    /\ @importPublicKeyFromPEM Scenario.W pem = Ok publicKeyCrypto
    /\ @recoverPrivateKey Scenario.W ReferenceClient.kdf Walkthrough.password
         (arrayBufferToBase64 Walkthrough.salt) (storePrivateKey enc)
       = Ok privateKey'
    /\ @encryptFile Scenario.W Scenario.hello publicKeyCrypto 400 = (Ok ef, e3)
    /\ @decryptFile Scenario.W (ef_encryptedData ef) (ef_encryptedKey ef) (ef_iv ef)
         (ef_authTag ef) privateKey' = Ok Scenario.hello.
Proof.
  apply (@session_keys_work Scenario.W ReferenceFacts.laws
           ReferenceClient.kdf ReferenceClientFacts.kdf_laws
           Walkthrough.password Walkthrough.salt Scenario.alice_keys 0 4 300
           Scenario.hello 400).
  - exact alice_keys_generated.
  - reflexivity.
Defined.

(** X16 on the walk-through: the upload of notes.txt. *)
Lemma uploaded_file_on_the_walkthrough :
  exists ef md e',
    @processFileForUpload Scenario.W Walkthrough.serialize Walkthrough.notes
      (publicKey Scenario.alice_keys) (Some "notes") None Scenario.now 700
    = (Ok (ef, md), e')
    /\ @validateFileIntegrity Scenario.W ef (privateKey Scenario.alice_keys) = Ok true
    /\ forall c,
        c <> checksum ef ->
        @validateFileIntegrity Scenario.W
          (mkEncryptedFileData (encryptedData ef) (encryptedKey ef) (iv ef) (authTag ef)
                               c (metadata ef))
          (privateKey Scenario.alice_keys)
        = Ok false.
Proof.
  apply (@uploaded_file_is_intact Scenario.W ReferenceFacts.laws Walkthrough.serialize
           Scenario.no_metadata 0 (publicKey Scenario.alice_keys)
           (privateKey Scenario.alice_keys) Walkthrough.notes (Some "notes") None
           Scenario.now 700).
  exact alice_keys_pair.
Defined.

(** X17 on the walk-through: the metadata do not parse, so the fallback
    names the download; the type 'Text/PLAIN' that the caller passes
    becomes the blob's 'text/plain'. *)
Lemma download_of_upload_on_the_walkthrough :
  exists ef md e',
    @processFileForUpload Scenario.W Walkthrough.serialize Walkthrough.notes
      (publicKey Scenario.alice_keys) (Some "notes") None Scenario.now 700
    = (Ok (ef, md), e')
    /\ @processFileForDownload Scenario.W Scenario.no_metadata ef
         (privateKey Scenario.alice_keys) (Some "notes.txt") (Some "Text/PLAIN")
         (Scenario.now + 1000)%Z
       = Ok (mkBlob Scenario.hello "text/plain",
             fallbackMetadata (Some "notes.txt") (Some "Text/PLAIN") Scenario.hello
                              (Scenario.now + 1000)%Z).
Proof.
  apply (@download_returns_the_uploaded_file Scenario.W ReferenceFacts.laws
           Walkthrough.serialize Scenario.no_metadata 0 (publicKey Scenario.alice_keys)
           (privateKey Scenario.alice_keys) Walkthrough.notes (Some "notes") None
           Scenario.now 700 (Some "notes.txt") (Some "Text/PLAIN") (Scenario.now + 1000)%Z).
  exact alice_keys_pair.
Defined.

(** X18 on the reference random source. *)
Lemma random_values_on_the_walkthrough :
  (exists salt e', @generateSalt Scenario.W 9 = (Ok salt, e') /\ List.length salt = 32)
  /\ (exists id e',
         @generateFileId Scenario.W 9 = (Ok id, e')
         /\ String.length id = 32
         /\ forallb is_hex_digit (JsString.chars id) = true)
  /\ (exists token e',
         @generateSessionToken Scenario.W 9 = (Ok token, e')
         /\ String.length token = 64
         /\ forallb is_hex_digit (JsString.chars token) = true).
Proof.
  apply (@random_values_have_their_format Scenario.W ReferenceFacts.laws 9).
Defined.

(** X21 for a file of 1536 bytes. *)
Lemma estimate_on_a_small_file :
  (1536 <= MAX_SAFE_INTEGER)%N
  /\ (1536 <= estimateEncryptionTime 1536 * 1048576)%N
  /\ (estimateEncryptionTime 1536 * 1048576 < 1536 + 1048576)%N
  /\ (estimateEncryptionTime 1536 = 0 <-> 1536 = 0)%N
  /\ forall larger,
      (1536 <= larger)%N ->
      (estimateEncryptionTime 1536 <= estimateEncryptionTime larger)%N.
Proof.
  split; [vm_compute; discriminate|].
  apply (estimateEncryptionTime_rounds_up 1536). vm_compute. discriminate.
Defined.

(** X22 on the walk-through: two forwarded entries and an [x-real-ip]. *)
Lemma client_address_on_the_walkthrough :
  getClientIP (Walkthrough.bearer Walkthrough.alice_session) = Some "203.0.113.7".
Proof.
  apply (getClientIP_first_forwarded (Walkthrough.bearer Walkthrough.alice_session)
           "203.0.113.7" " 10.0.0.1").
  - vm_compute. intros H. repeat (destruct H as [H|H]; [discriminate|]). exact H.
  - reflexivity.
Defined.

(** X23 on the walk-through: the session of Alice, one second after it was
    opened. *)
Lemma session_on_the_walkthrough :
  exists u,
    Prisma.user_findUnique "u-alice" Scenario.db0 = Some u
    /\ validateSession (Scenario.now + 1000)%Z "c0" Walkthrough.db_session
       = if (Scenario.now + seven_days <? Scenario.now + 1000)%Z then None
         else Some (Auth.mkSessionData (Auth.select_user u) "c0"
                                       (Scenario.now + seven_days)%Z).
Proof.
  apply (@createSession_then_validateSession Scenario.W Scenario.S
           Scenario.now "u-alice" (Some "203.0.113.7") (Some "test-agent") Scenario.db0 500
           (mkSessionTokens "c0" "jwt.15m.u-alice.c0" "jwt.7d.u-alice.c0")
           Walkthrough.db_session 532 (Scenario.now + 1000)%Z).
  - intros n _ [].
  - vm_compute. reflexivity.
Defined.

(** X24 on the walk-through: Alice's session is revoked. *)
Lemma revoked_session_on_the_walkthrough :
  validateSession (Scenario.now + 1000)%Z "c0"
    (Prisma.set_sessions [] Walkthrough.db_logged_in) = None
  /\ (forall other,
         other <> "c0" ->
         validateSession (Scenario.now + 1000)%Z other
           (Prisma.set_sessions [] Walkthrough.db_logged_in)
         = validateSession (Scenario.now + 1000)%Z other Walkthrough.db_logged_in)
  /\ revokeSession "c0" (Prisma.set_sessions [] Walkthrough.db_logged_in)
     = Throw (prisma_error "P2025").
Proof.
  apply (revokeSession_ends_the_session "c0" Walkthrough.db_logged_in
           (Prisma.set_sessions [] Walkthrough.db_logged_in) (Scenario.now + 1000)%Z).
  vm_compute. reflexivity.
Defined.

(** X25 on the walk-through: a request with Alice's token. *)
Lemma authenticated_request_on_the_walkthrough :
  exists token payload session u,
    authorization (Walkthrough.bearer "c0") = Some ("Bearer " ++ token)%string
    /\ @verifyToken ReferenceClient.verifier token (Scenario.now + 1000)%Z = Some payload
    /\ PrismaSession.findUnique (Auth.sessionId payload) Walkthrough.db_logged_in
       = Some session
    /\ (Scenario.now + 1000 <= Session.expiresAt session)%Z
    /\ Prisma.user_findUnique (Session.userId session) Walkthrough.db_logged_in = Some u
    /\ Auth.select_user Scenario.alice = Auth.select_user u
    /\ Auth.id (Auth.select_user Scenario.alice) = Session.userId session.
Proof.
  apply (@getAuthenticatedUser_sound ReferenceClient.verifier (Scenario.now + 1000)%Z
           (Walkthrough.bearer "c0") Walkthrough.db_logged_in
           (Auth.select_user Scenario.alice)).
  vm_compute. reflexivity.
Defined.

(** X26 on the walk-through: Bob's sessions are revoked, Alice is still
    herself. *)
Lemma lock_out_on_the_walkthrough :
  @getAuthenticatedUser ReferenceClient.verifier (Scenario.now + 1000)%Z
    (Walkthrough.bearer "c0") (revokeAllUserSessions "u-bob" Walkthrough.db_logged_in)
  = Some (Auth.select_user Scenario.alice)
  /\ Auth.id (Auth.select_user Scenario.alice) <> "u-bob".
Proof.
  split; [vm_compute; reflexivity|].
  apply (@revokeAllUserSessions_locks_out ReferenceClient.verifier "u-bob"
           (Scenario.now + 1000)%Z (Walkthrough.bearer "c0") Walkthrough.db_logged_in
           (Auth.select_user Scenario.alice)).
  vm_compute. reflexivity.
Defined.

(** Bob's requests for the report do not come from its owner. *)
Lemma bob_is_not_the_owner (db : DB) :
  Prisma.file_findUnique "f-report" db = Some Scenario.report ->
  not_from_the_owner (Scenario.as_user Scenario.bob JNull) "f-report" db.
Proof.
  intros F user file A F'. rewrite F in F'. inversion F'. subst file.
  vm_compute in A. inversion A. subst user. vm_compute. discriminate.
Qed.

(** X28 on the walk-through: Bob's download after Alice shared and asked
    for the re-encryption. *)
Lemma bob_download_on_the_walkthrough :
  Forall share_as_written (fileShares Walkthrough.db_shared)
  /\ status (fst (download_GET (Scenario.now + 9000)%Z (Scenario.as_user Scenario.bob JNull)
                               "f-report" Walkthrough.db_shared)) <> 200.
Proof.
  apply (@no_recipient_ever_downloads Scenario.W Scenario.S ReferenceClient.buffer
           Walkthrough.calls Scenario.db0 600 (Scenario.now + 9000)%Z
           (Scenario.as_user Scenario.bob JNull) "f-report").
  - reflexivity.
  - apply bob_is_not_the_owner. vm_compute. reflexivity.
Defined.

(** X29 on the walk-through: Bob's update of the report's metadata. *)
Lemma bob_update_on_the_walkthrough :
  files (snd (fst (@api_call Scenario.W Scenario.S ReferenceClient.buffer
                     (Scenario.now + 9000)%Z
                     (CallUpdate (Scenario.as_user Scenario.bob Walkthrough.metadata_update)
                                 "f-report")
                     Walkthrough.db_shared 0)))
  = files Walkthrough.db_shared
  /\ fileShares (snd (fst (@api_call Scenario.W Scenario.S ReferenceClient.buffer
                             (Scenario.now + 9000)%Z
                             (CallUpdate
                                (Scenario.as_user Scenario.bob Walkthrough.metadata_update)
                                "f-report")
                             Walkthrough.db_shared 0)))
     = fileShares Walkthrough.db_shared.
Proof.
  apply (@only_the_owner_changes_a_file Scenario.W Scenario.S ReferenceClient.buffer
           Walkthrough.calls Scenario.db0 600 (Scenario.now + 9000)%Z
           (CallUpdate (Scenario.as_user Scenario.bob Walkthrough.metadata_update) "f-report")
           (Scenario.as_user Scenario.bob Walkthrough.metadata_update) "f-report" 0).
  - reflexivity.
  - reflexivity.
  - intros user file A F. vm_compute in F. inversion F. subst file.
    vm_compute in A. inversion A. subst user. vm_compute. discriminate.
Defined.

(** X30 on the scenario: after Alice's deletion and two more calls. *)
Lemma deletion_on_the_walkthrough :
  status (fst Scenario.deletion) = 200
  /\ status (fst (download_GET (Scenario.now + 9000)%Z (Scenario.as_user Scenario.alice JNull)
                               "f-report"
                               (fst (@api_run Scenario.W Scenario.S ReferenceClient.buffer
                                       Walkthrough.calls_after_deletion
                                       (snd Scenario.deletion) 0)))) <> 200
  /\ status (@file_GET (Scenario.now + 9000)%Z (Scenario.as_user Scenario.alice JNull)
               "f-report"
               (fst (@api_run Scenario.W Scenario.S ReferenceClient.buffer
                       Walkthrough.calls_after_deletion (snd Scenario.deletion) 0))) <> 200
  /\ status (fst (file_DELETE (Scenario.now + 9000)%Z (Scenario.as_user Scenario.alice JNull)
                              "f-report"
                              (fst (@api_run Scenario.W Scenario.S ReferenceClient.buffer
                                      Walkthrough.calls_after_deletion
                                      (snd Scenario.deletion) 0)))) <> 200
  /\ status (fst (@share_POST Scenario.W Scenario.S (Scenario.now + 9000)%Z
                    (Scenario.as_user Scenario.alice JNull) "f-report"
                    (fst (@api_run Scenario.W Scenario.S ReferenceClient.buffer
                            Walkthrough.calls_after_deletion
                            (snd Scenario.deletion) 0)))) <> 201.
Proof.
  split; [vm_compute; reflexivity|].
  apply (@deletion_is_final Scenario.W Scenario.S ReferenceClient.buffer
           (Scenario.now + 2000)%Z (Scenario.as_user Scenario.alice JNull) "f-report"
           Scenario.db1 0 Walkthrough.calls_after_deletion (Scenario.now + 9000)%Z
           (Scenario.as_user Scenario.alice JNull)).
  vm_compute. reflexivity.
Defined.
